(** * FingerprintSDK: a shallow embedding of [src/fingerprint-sdk.ts]

    The development follows the source file top to bottom:

    - [JS]       JavaScript strings, as sequences of UTF-16 code units;
    - [Platform] the two Web-platform services behind [createHash]:
                 [TextEncoder.encode] and SHA-256;
    - [Num]      JavaScript numbers and completions;
    - [Sdk]      the class [FingerprintSDK], method by method;
    - [Table]    the vocabulary of the statements;
    - [Extended] the class of seventeen signals;
    - [Binary64] the weight arithmetic of the class in IEEE-754 doubles,
                 and the two ways its providers can fail;
    - then the properties, grouped by method.

    Four conventions hold throughout.

    - A method call runs to completion before the next one starts: the
      [await]s inside a call are not interleaved with other calls on the
      same instance.
    - Everything a method reads from the browser is a field of the
      environment [Env], fixed for the duration of a statement; the
      digest service [crypto.subtle.digest] is one of these fields, and
      [Platform.SHA256] is what a conforming browser puts there.
    - In [Sdk] numbers are exact: a finite number is a real, with [NaN]
      and the infinities beside it.  The rounding of IEEE-754 doubles is
      not modelled there, so an equation between finite numbers proved
      over [Sdk] holds of the program up to rounding.  Where a rounding
      decides a repeat count, a thrown error or an exact zero, the
      statement is made over [Binary64], whose numbers are the doubles
      themselves.
    - An environment [Env] is a page whose document has a [body] and
      whose context offers [crypto.subtle]; over it no provider fails.
      [Binary64.Page] adds the pages without one or the other. *)

From Stdlib Require Import String Ascii.
From Stdlib Require Import ZArith List Bool Lia.
From Stdlib Require Import Uint63.
From Corelib Require Import PrimFloat SpecFloat FloatOps FloatAxioms.
From Stdlib Require Import Reals Lra Permutation.
Import ListNotations.

(* ================================================================== *)
(** * JavaScript strings *)
(* ================================================================== *)

Module JS.

Local Open Scope Z_scope.

(** A JavaScript string is a finite sequence of UTF-16 code units;
    [str.length] counts code units and [str[i]] is the one-unit string
    at position [i]. *)
Definition jsstring := list Z.

(** ASCII literals of the source, as code units. *)
Fixpoint js (s : string) : jsstring :=
  match s with
  | EmptyString => []
  | String c rest => Z.of_nat (nat_of_ascii c) :: js rest
  end.

(** [Array.prototype.join(sep)] on an array of strings. *)
Fixpoint join (sep : jsstring) (parts : list jsstring) : jsstring :=
  match parts with
  | [] => []
  | [p] => p
  | p :: rest => p ++ sep ++ join sep rest
  end.

(** [s.padStart(targetLength, fill)] for a one-unit [fill]. *)
Definition padStart (targetLength : nat) (fill : Z) (s : jsstring) : jsstring :=
  repeat fill (targetLength - length s) ++ s.

(** Digit of [Number.prototype.toString(16)]: 0-9 then lowercase a-f. *)
Definition hexDigit (d : Z) : Z := if d <? 10 then 48 + d else 87 + d.

Fixpoint hexDigits (fuel : nat) (n : Z) (acc : jsstring) : jsstring :=
  match fuel with
  | O => acc
  | S fuel' =>
      let acc' := hexDigit (n mod 16) :: acc in
      if n / 16 =? 0 then acc' else hexDigits fuel' (n / 16) acc'
  end.

(** [n.toString(16)] for a non-negative integer [n]. *)
Definition toString16 (n : Z) : jsstring :=
  hexDigits (S (Z.to_nat (Z.log2 n))) n [].

Fixpoint decDigits (fuel : nat) (n : Z) (acc : jsstring) : jsstring :=
  match fuel with
  | O => acc
  | S fuel' =>
      let acc' := (48 + n mod 10) :: acc in
      if n / 10 =? 0 then acc' else decDigits fuel' (n / 10) acc'
  end.

(** [String(n)] for a non-negative integer [n] (the elements of a
    [Uint8Array] when it is joined). *)
Definition toStringDec (n : Z) : jsstring :=
  decDigits (S (Z.to_nat (Z.log2 n))) n [].

(** Lowercase hexadecimal code units: ['0'..'9'] and ['a'..'f']. *)
Definition isLowerHex (u : Z) : bool :=
  ((48 <=? u) && (u <=? 57)) || ((97 <=? u) && (u <=? 102)).

(** Equality of strings, decided unit by unit. *)
Definition jsstring_eq_dec : forall a b : jsstring, {a = b} + {a <> b} :=
  list_eq_dec Z.eq_dec.

End JS.

(* ================================================================== *)
(** * The platform services used by [createHash] *)
(* ================================================================== *)

Module Platform.

Import JS.
Local Open Scope Z_scope.

(** ** [new TextEncoder().encode(message)]: UTF-16 to UTF-8 *)

Definition isHighSurrogate (u : Z) : bool := (0xD800 <=? u) && (u <=? 0xDBFF).
Definition isLowSurrogate (u : Z) : bool := (0xDC00 <=? u) && (u <=? 0xDFFF).

(** Code points of a string; a surrogate without its partner becomes
    U+FFFD, as the encoder does. *)
Fixpoint codePoints (s : jsstring) : list Z :=
  match s with
  | [] => []
  | u :: rest =>
      if isHighSurrogate u then
        match rest with
        | l :: rest' =>
            if isLowSurrogate l
            then (0x10000 + Z.shiftl (u - 0xD800) 10 + (l - 0xDC00)) :: codePoints rest'
            else 0xFFFD :: codePoints rest
        | [] => [0xFFFD]
        end
      else if isLowSurrogate u then 0xFFFD :: codePoints rest
      else u :: codePoints rest
  end.

Definition utf8 (cp : Z) : list Z :=
  if cp <? 0x80 then [cp]
  else if cp <? 0x800 then
    [Z.lor 0xC0 (Z.shiftr cp 6); Z.lor 0x80 (Z.land cp 0x3F)]
  else if cp <? 0x10000 then
    [Z.lor 0xE0 (Z.shiftr cp 12);
     Z.lor 0x80 (Z.land (Z.shiftr cp 6) 0x3F);
     Z.lor 0x80 (Z.land cp 0x3F)]
  else
    [Z.lor 0xF0 (Z.shiftr cp 18);
     Z.lor 0x80 (Z.land (Z.shiftr cp 12) 0x3F);
     Z.lor 0x80 (Z.land (Z.shiftr cp 6) 0x3F);
     Z.lor 0x80 (Z.land cp 0x3F)].

Definition TextEncoder_encode (message : jsstring) : list Z :=
  flat_map utf8 (codePoints message).

(** ** [crypto.subtle.digest('SHA-256', data)] (FIPS 180-4)

    Words are 32-bit integers held in 63-bit machine integers; every
    addition and every rotation is masked back to 32 bits. *)

Definition mask32 : int := 0xFFFFFFFF%uint63.
Definition add32 (x y : int) : int := PrimInt63.land (PrimInt63.add x y) mask32.
Definition rotr (n x : int) : int :=
  PrimInt63.land
    (PrimInt63.lor (PrimInt63.lsr x n) (PrimInt63.lsl x (PrimInt63.sub 32%uint63 n)))
    mask32.
Definition shr (n x : int) : int := PrimInt63.lsr x n.
Definition xor3 (x y z : int) : int := PrimInt63.lxor (PrimInt63.lxor x y) z.
Definition not32 (x : int) : int := PrimInt63.lxor x mask32.

Definition Ch (x y z : int) : int :=
  PrimInt63.lxor (PrimInt63.land x y) (PrimInt63.land (not32 x) z).
Definition Maj (x y z : int) : int :=
  xor3 (PrimInt63.land x y) (PrimInt63.land x z) (PrimInt63.land y z).
Definition bigSigma0 (x : int) : int :=
  xor3 (rotr 2%uint63 x) (rotr 13%uint63 x) (rotr 22%uint63 x).
Definition bigSigma1 (x : int) : int :=
  xor3 (rotr 6%uint63 x) (rotr 11%uint63 x) (rotr 25%uint63 x).
Definition smallSigma0 (x : int) : int :=
  xor3 (rotr 7%uint63 x) (rotr 18%uint63 x) (shr 3%uint63 x).
Definition smallSigma1 (x : int) : int :=
  xor3 (rotr 17%uint63 x) (rotr 19%uint63 x) (shr 10%uint63 x).

(** The constants are derived as FIPS 180-4 defines them, from the
    first sixty-four primes: a round constant is the first 32 bits of
    the fractional part of a cube root, an initial hash word the first 32
    bits of the fractional part of a square root. *)
Definition primes : list Z :=
  [2; 3; 5; 7; 11; 13; 17; 19; 23; 29; 31; 37; 41; 43; 47; 53;
   59; 61; 67; 71; 73; 79; 83; 89; 97; 101; 103; 107; 109; 113; 127; 131;
   137; 139; 149; 151; 157; 163; 167; 173; 179; 181; 191; 193; 197; 199;
   211; 223; 227; 229; 233; 239; 241; 251; 257; 263; 269; 271; 277; 281;
   283; 293; 307; 311].

(** Integer cube root, one bit at a time from bit [bits - 1] down. *)
Fixpoint cubeRoot (bits : nat) (n r : Z) : Z :=
  match bits with
  | O => r
  | S bits' =>
      let r' := r + 2 ^ Z.of_nat bits' in
      cubeRoot bits' n (if r' * r' * r' <=? n then r' else r)
  end.

Definition fracCubeRoot (p : Z) : int :=
  Uint63.of_Z (cubeRoot 40 (p * 2 ^ 96) 0 mod 2 ^ 32).

Definition fracSquareRoot (p : Z) : int :=
  Uint63.of_Z (Z.sqrt (p * 2 ^ 64) mod 2 ^ 32).

Definition roundConstants : list int :=
  Eval vm_compute in map fracCubeRoot primes.

(** The eight working variables, and the running hash value. *)
Record state8 : Set := State8 {
  sa : int; sb : int; sc : int; sd : int; se : int; sf : int; sg : int; sh : int }.

Definition initialHash : state8 :=
  Eval vm_compute in
  State8 (fracSquareRoot 2) (fracSquareRoot 3) (fracSquareRoot 5) (fracSquareRoot 7)
         (fracSquareRoot 11) (fracSquareRoot 13) (fracSquareRoot 17) (fracSquareRoot 19).

(** Padding: a 1 bit, zeros up to 56 mod 64 bytes, then the bit length
    as a 64-bit big-endian integer. *)
Definition bigEndian (width : nat) (x : Z) : list Z :=
  map (fun i => Z.shiftr x (8 * Z.of_nat (width - 1 - i)) mod 256) (seq 0 width).

Definition pad (data : list Z) : list Z :=
  let len := Z.of_nat (length data) in
  data ++ [0x80] ++ repeat 0 (Z.to_nat ((55 - len) mod 64)) ++ bigEndian 8 (8 * len).

(** Big-endian words of a block of octets. *)
Fixpoint beWords (bytes : list Z) : list int :=
  match bytes with
  | b0 :: b1 :: b2 :: b3 :: rest =>
      Uint63.of_Z (Z.shiftl b0 24 + Z.shiftl b1 16 + Z.shiftl b2 8 + b3) :: beWords rest
  | _ => []
  end.

Fixpoint blocks (n : nat) (bytes : list Z) : list (list Z) :=
  match n with
  | O => []
  | S n' => firstn 64 bytes :: blocks n' (skipn 64 bytes)
  end.

(** Message schedule, most recent word first: [recent] holds
    W(t-1), W(t-2), ... *)
Fixpoint extend (n : nat) (recent : list int) : list int :=
  match n with
  | O => recent
  | S n' =>
      let w := add32 (add32 (smallSigma1 (nth 1 recent 0%uint63)) (nth 6 recent 0%uint63))
                     (add32 (smallSigma0 (nth 14 recent 0%uint63)) (nth 15 recent 0%uint63)) in
      extend n' (w :: recent)
  end.

Definition schedule (block : list Z) : list int :=
  rev (extend 48 (rev (beWords block))).

Definition round (s : state8) (kw : int * int) : state8 :=
  let t1 := add32 (add32 (add32 (add32 (sh s) (bigSigma1 (se s)))
                                 (Ch (se s) (sf s) (sg s))) (fst kw)) (snd kw) in
  let t2 := add32 (bigSigma0 (sa s)) (Maj (sa s) (sb s) (sc s)) in
  State8 (add32 t1 t2) (sa s) (sb s) (sc s) (add32 (sd s) t1) (se s) (sf s) (sg s).

Definition compress (h : state8) (block : list Z) : state8 :=
  let s := fold_left round (combine roundConstants (schedule block)) h in
  State8 (add32 (sa h) (sa s)) (add32 (sb h) (sb s))
         (add32 (sc h) (sc s)) (add32 (sd h) (sd s))
         (add32 (se h) (se s)) (add32 (sf h) (sf s))
         (add32 (sg h) (sg s)) (add32 (sh h) (sh s)).

Definition stateWords (s : state8) : list Z :=
  map Uint63.to_Z [sa s; sb s; sc s; sd s; se s; sf s; sg s; sh s].

(** The 32 octets of the digest, as [new Uint8Array(hashBuffer)] shows them. *)
Definition SHA256 (data : list Z) : list Z :=
  let padded := pad data in
  let h := fold_left compress (blocks (length padded / 64) padded) initialHash in
  flat_map (bigEndian 4) (stateWords h).

End Platform.

(* ================================================================== *)
(** * JavaScript numbers and completions *)
(* ================================================================== *)

Module Num.

Local Open Scope R_scope.

(** A JavaScript number, read through exact arithmetic: a finite value
    is a real number, so the rounding and the overflow of IEEE-754
    doubles are left out and the zero carries no sign.  [NaN] and the two
    infinities are kept: they are what a division by a zero total
    produces, and the rest of the arithmetic propagates them as IEEE-754
    does. *)
Inductive number : Type :=
  | NaN
  | PosInf
  | NegInf
  | Fin (r : R).

Definition nneg (a : number) : number :=
  match a with
  | NaN => NaN
  | PosInf => NegInf
  | NegInf => PosInf
  | Fin x => Fin (- x)
  end.

(** [a + b] *)
Definition nadd (a b : number) : number :=
  match a, b with
  | NaN, _ | _, NaN => NaN
  | PosInf, NegInf | NegInf, PosInf => NaN
  | PosInf, _ | _, PosInf => PosInf
  | NegInf, _ | _, NegInf => NegInf
  | Fin x, Fin y => Fin (x + y)
  end.

(** [a - b] *)
Definition nsub (a b : number) : number := nadd a (nneg b).

(** An infinity with the sign of the finite factor [x]; [0 * Infinity]
    is [NaN]. *)
Definition scaleInf (x : R) (inf : number) : number :=
  if Req_dec_T x 0 then NaN
  else if Rlt_dec 0 x then inf else nneg inf.

(** [a * b] *)
Definition nmul (a b : number) : number :=
  match a, b with
  | NaN, _ | _, NaN => NaN
  | Fin x, Fin y => Fin (x * y)
  | Fin x, inf => scaleInf x inf
  | inf, Fin y => scaleInf y inf
  | PosInf, PosInf | NegInf, NegInf => PosInf
  | PosInf, NegInf | NegInf, PosInf => NegInf
  end.

(** [a / b]: a finite non-zero value over zero is an infinity, [0 / 0]
    and [Infinity / Infinity] are [NaN]. *)
Definition ndiv (a b : number) : number :=
  match a, b with
  | NaN, _ | _, NaN => NaN
  | Fin x, Fin y =>
      if Req_dec_T y 0 then
        if Req_dec_T x 0 then NaN
        else if Rlt_dec 0 x then PosInf else NegInf
      else Fin (x / y)
  | Fin _, _ => Fin 0
  | inf, Fin y => if Rlt_dec y 0 then nneg inf else inf
  | _, _ => NaN
  end.

(** [Math.floor(a)] *)
Definition Math_floor (a : number) : number :=
  match a with
  | Fin x => Fin (IZR (Int_part x))
  | other => other
  end.

(** [Math.log2(a)] *)
Definition Math_log2 (a : number) : number :=
  match a with
  | NaN | NegInf => NaN
  | PosInf => PosInf
  | Fin x =>
      if Rlt_dec x 0 then NaN
      else if Req_dec_T x 0 then NegInf
      else Fin (ln x / ln 2)
  end.

(** Truthiness of a number, for [v || 0]: [0] and [NaN] are falsy. *)
Definition orZero (v : option number) : number :=
  match v with
  | None | Some NaN => Fin 0
  | Some (Fin x) => if Req_dec_T x 0 then Fin 0 else Fin x
  | Some inf => inf
  end.

(** The result of the abstract operation [ToIntegerOrInfinity]. *)
Inductive integerOrInfinity : Type :=
  | Integer (z : Z)
  | PlusInfinity
  | MinusInfinity.

Definition ToIntegerOrInfinity (a : number) : integerOrInfinity :=
  match a with
  | NaN => Integer 0
  | PosInf => PlusInfinity
  | NegInf => MinusInfinity
  | Fin x => Integer (if Rlt_dec x 0 then - Int_part (- x) else Int_part x)
  end.

(** How a call ends: normally with a value, or by throwing.  The class
    has no error of its own: [RangeError] comes from [String.repeat],
    [TypeError] from a property read on [undefined]. *)
Inductive error : Set := RangeError | TypeError.

Inductive completion (A : Type) : Type :=
  | Normal (a : A)
  | Throw (e : error).

Arguments Normal {A} a.
Arguments Throw {A} e.

(** [s.repeat(count)]: a negative or infinite count throws [RangeError]
    (the engine's limit on the length of a string is left out). *)
Definition String_repeat (s : JS.jsstring) (count : number) : completion JS.jsstring :=
  match ToIntegerOrInfinity count with
  | Integer n =>
      if (n <? 0)%Z then Throw RangeError
      else Normal (concat (repeat s (Z.to_nat n)))
  | PlusInfinity | MinusInfinity => Throw RangeError
  end.

End Num.

(* ================================================================== *)
(** * The source file, function by function *)
(* ================================================================== *)

Module Sdk.

Import JS Num.

(** ** The environment of one SDK instance

    Everything the class reads from the browser: the 2D canvas, the WebGL
    debug extension, the analyser node, the layout of the font test span
    and the Web Crypto digest. *)
Record Env : Type := {
  (** [canvas.toDataURL()], or [None] when [getContext('2d')] is null *)
  canvasDataURL : option jsstring;
  (** outer [None]: no WebGL context; inner [None]: no
      [WEBGL_debug_renderer_info]; otherwise the unmasked vendor and
      renderer as the template literal prints them *)
  webglDebugInfo : option (option (jsstring * jsstring));
  (** the bytes [analyser.getByteFrequencyData] writes *)
  frequencyData : list Z;
  (** [offsetWidth] and [offsetHeight] of the test span under a
      [fontFamily] *)
  spanSize : jsstring -> Z * Z;
  (** [crypto.subtle.digest('SHA-256', data)] as octets *)
  subtleDigest : list Z -> list Z
}.

(** A browser whose Web Crypto is SHA-256. *)
Definition browser (url : option jsstring)
    (gl : option (option (jsstring * jsstring)))
    (freq : list Z) (span : jsstring -> Z * Z) : Env :=
  {| canvasDataURL := url; webglDebugInfo := gl; frequencyData := freq;
     spanSize := span; subtleDigest := Platform.SHA256 |}.

(** ** [createHash] (lines 1-13) *)

(** The arrow function [byte => byte.toString(16).padStart(2, '0')]. *)
Definition hexPair (byte : Z) : jsstring := padStart 2 48 (toString16 byte).

Definition createHash (digest : list Z -> list Z) (message : jsstring) : jsstring :=
  let data := Platform.TextEncoder_encode message in
  let hashArray := digest data in
  let hashHex := join [] (map hexPair hashArray) in
  hashHex.

(** [hashData] (lines 201-203) *)
Definition hashData (env : Env) (data : jsstring) : jsstring :=
  createHash (subtleDigest env) data.

(** ** The signal providers (lines 24-128) *)

Definition getCanvasFingerprint (env : Env) : jsstring :=
  match canvasDataURL env with
  | None => []
  | Some url => hashData env url
  end.

Definition getWebGLFingerprint (env : Env) : jsstring :=
  match webglDebugInfo env with
  | None => []
  | Some None => []
  | Some (Some (vendor, renderer)) => hashData env (vendor ++ js "~" ++ renderer)
  end.

Definition getAudioFingerprint (env : Env) : jsstring :=
  hashData env (join (js ",") (map toStringDec (frequencyData env))).

Definition baseFonts : list jsstring :=
  [js "monospace"; js "sans-serif"; js "serif"].

Definition fontList : list jsstring :=
  [js "Arial"; js "Helvetica"; js "Times New Roman"; js "Courier";
   js "Verdana"; js "Georgia"; js "Palatino"; js "Garamond";
   js "Bookman"; js "Comic Sans MS"; js "Trebuchet MS"; js "Arial Black";
   js "Impact"].

(** One probe of the inner loop: the span under ['font',baseFont]
    against the default size recorded for [baseFont]. *)
Definition matched (env : Env) (font baseFont : jsstring) : bool :=
  let size := spanSize env (js "'" ++ font ++ js "'," ++ baseFont) in
  let default := spanSize env baseFont in
  negb (fst size =? fst default)%Z || negb (snd size =? snd default)%Z.

Definition getFontList (env : Env) : list jsstring :=
  filter (fun font => existsb (matched env font) baseFonts) fontList.

(** ** The weight table (lines 130-136) *)

Record Weights : Type := {
  canvas : number;
  webGL : number;
  audio : number;
  fonts : number
}.

(** The state of an instance the methods read and write. *)
Record FingerprintSDK : Type := { weights : Weights }.

Definition initialWeights : Weights :=
  {| canvas := Fin (3 / 10); webGL := Fin (25 / 100);
     audio := Fin (25 / 100); fonts := Fin (2 / 10) |}.

Definition newFingerprintSDK : FingerprintSDK := {| weights := initialWeights |}.

(** A method runs on the instance, ends normally or by throwing, and
    leaves the instance in a new state. *)
Definition method (A : Type) : Type :=
  FingerprintSDK -> completion A * FingerprintSDK.

Definition ret {A} (a : A) : method A := fun this => (Normal a, this).

Definition bind {A B} (m : method A) (k : A -> method B) : method B :=
  fun this =>
    match m this with
    | (Normal a, this') => k a this'
    | (Throw e, this') => (Throw e, this')
    end.

Definition lift {A} (c : completion A) : method A := fun this => (c, this).

Definition readWeights : method Weights := fun this => (Normal (weights this), this).

Definition writeWeights (w : Weights) : method unit :=
  fun _ => (Normal tt, {| weights := w |}).

Notation "x <- m ;; k" := (bind m (fun x => k))
  (at level 61, m at next level, right associativity).

(** ** [generateVisitorId] (lines 139-154) *)

(** [fingerprint.repeat(Math.floor(weight * 100))] *)
Definition weightedComponent (fingerprint : jsstring) (weight : number)
  : completion jsstring :=
  String_repeat fingerprint (Math_floor (nmul weight (Fin 100))).

Definition generateVisitorId (env : Env) : method jsstring :=
  let canvasFingerprint := getCanvasFingerprint env in
  let webGLFingerprint := getWebGLFingerprint env in
  let audioFingerprint := getAudioFingerprint env in
  let fontFingerprint := hashData env (join (js ",") (getFontList env)) in
  w <- readWeights ;;
  c1 <- lift (weightedComponent canvasFingerprint (canvas w)) ;;
  c2 <- lift (weightedComponent webGLFingerprint (webGL w)) ;;
  c3 <- lift (weightedComponent audioFingerprint (audio w)) ;;
  c4 <- lift (weightedComponent fontFingerprint (fonts w)) ;;
  let weightedComponents := [c1; c2; c3; c4] in
  let combinedFingerprint := join [] weightedComponents in
  ret (hashData env combinedFingerprint).

(** ** [getEntropy] (lines 157-167) *)

(** The object [frequencies]: its keys are one-unit strings, kept here
    in the order in which they were created. *)
Definition frequencyTable := list (Z * number).

Fixpoint lookup (key : Z) (o : frequencyTable) : option number :=
  match o with
  | [] => None
  | (k, v) :: rest => if (k =? key)%Z then Some v else lookup key rest
  end.

(** [o[key] = v]: an existing property keeps its place, a new one is
    created last. *)
Fixpoint assign (key : Z) (v : number) (o : frequencyTable) : frequencyTable :=
  match o with
  | [] => [(key, v)]
  | (k, old) :: rest =>
      if (k =? key)%Z then (k, v) :: rest else (k, old) :: assign key v rest
  end.

(** Whether a one-unit key is an array index, that is, a digit. *)
Definition isArrayIndex (key : Z) : bool := (48 <=? key)%Z && (key <=? 57)%Z.

(** [Object.values(o)]: array-index keys first, in ascending numeric
    order, then the other keys in creation order. *)
Definition Object_values (o : frequencyTable) : list number :=
  flat_map (fun d => match lookup d o with Some v => [v] | None => [] end)
           (map (fun i => (48 + Z.of_nat i)%Z) (seq 0 10))
  ++ map snd (filter (fun kv => negb (isArrayIndex (fst kv))) o).

(** The loop of lines 160-162. *)
Definition countFrequencies (str : jsstring) : frequencyTable :=
  fold_left
    (fun frequencies c => assign c (nadd (orZero (lookup c frequencies)) (Fin 1)) frequencies)
    str [].

Definition getEntropy (str : jsstring) : number :=
  let len := Fin (INR (length str)) in
  let frequencies := countFrequencies str in
  fold_left
    (fun entropy freq =>
       let p := ndiv freq len in
       nsub entropy (nmul p (Math_log2 p)))
    (Object_values frequencies) (Fin 0).

(** ** [adjustWeights] (lines 170-184) *)
Definition adjustWeights (env : Env) : method unit :=
  let canvasEntropy := getEntropy (getCanvasFingerprint env) in
  let webGLEntropy := getEntropy (getWebGLFingerprint env) in
  let audioEntropy := getEntropy (getAudioFingerprint env) in
  let fontEntropy := getEntropy (hashData env (join (js ",") (getFontList env))) in
  let totalEntropy :=
    nadd (nadd (nadd canvasEntropy webGLEntropy) audioEntropy) fontEntropy in
  writeWeights
    {| canvas := ndiv canvasEntropy totalEntropy;
       webGL := ndiv webGLEntropy totalEntropy;
       audio := ndiv audioEntropy totalEntropy;
       fonts := ndiv fontEntropy totalEntropy |}.

(** ** [getWeights] (lines 187-189) *)
Definition getWeights : method Weights := readWeights.

(** ** [setWeights] (lines 192-199) *)

(** [Partial<typeof this.weights>]: each key present or absent.  (A key
    present with the value [undefined] behaves in [setWeights] as one
    present with [NaN].) *)
Record PartialWeights : Type := {
  canvas' : option number;
  webGL' : option number;
  audio' : option number;
  fonts' : option number
}.

Definition override (old : number) (new : option number) : number :=
  match new with
  | Some v => v
  | None => old
  end.

(** [{ ...this.weights, ...newWeights }] *)
Definition spread (w : Weights) (newWeights : PartialWeights) : Weights :=
  {| canvas := override (canvas w) (canvas' newWeights);
     webGL := override (webGL w) (webGL' newWeights);
     audio := override (audio w) (audio' newWeights);
     fonts := override (fonts w) (fonts' newWeights) |}.

(** [Object.values(this.weights)], in key order. *)
Definition values (w : Weights) : list number :=
  [canvas w; webGL w; audio w; fonts w].

(** The [for (const key in this.weights)] loop: every entry is divided
    by the same [sum]. *)
Definition divideAll (w : Weights) (sum : number) : Weights :=
  {| canvas := ndiv (canvas w) sum;
     webGL := ndiv (webGL w) sum;
     audio := ndiv (audio w) sum;
     fonts := ndiv (fonts w) sum |}.

Definition setWeights (newWeights : PartialWeights) : method unit :=
  old <- readWeights ;;
  _ <- writeWeights (spread old newWeights) ;;
  merged <- readWeights ;;
  let sum := fold_left (fun a b => nadd a b) (values merged) (Fin 0) in
  writeWeights (divideAll merged sum).

End Sdk.

(* ================================================================== *)
(** * Vocabulary of the statements *)
(* ================================================================== *)

Module Table.

Import JS Num Sdk.
Local Open Scope R_scope.

(** The four signals, in the order of the table. *)
Inductive key : Set := Canvas | WebGL | Audio | Fonts.

Definition key_eq_dec (a b : key) : {a = b} + {a <> b}.
Proof. decide equality. Defined.

Definition get (w : Weights) (k : key) : number :=
  match k with
  | Canvas => canvas w
  | WebGL => webGL w
  | Audio => audio w
  | Fonts => fonts w
  end.

(** The object literal [{ k: v }]. *)
Definition only (k : key) (v : number) : PartialWeights :=
  {| canvas' := match k with Canvas => Some v | _ => None end;
     webGL' := match k with WebGL => Some v | _ => None end;
     audio' := match k with Audio => Some v | _ => None end;
     fonts' := match k with Fonts => Some v | _ => None end |}.

Definition supplied (p : PartialWeights) (k : key) : option number :=
  match k with
  | Canvas => canvas' p
  | WebGL => webGL' p
  | Audio => audio' p
  | Fonts => fonts' p
  end.

(** The sum of all weights, added as [setWeights] adds them. *)
Definition total (w : Weights) : number :=
  fold_left (fun a b => nadd a b) (values w) (Fin 0).

Definition isFinite (a : number) : Prop := exists r, a = Fin r.

Definition nonNegative (a : number) : Prop := exists r, a = Fin r /\ 0 <= r.

(** A table as the data model describes it: every weight is a finite
    number, none below zero. *)
Definition wellFormed (w : Weights) : Prop := forall k, nonNegative (get w k).

Definition allNaN : Weights :=
  {| canvas := NaN; webGL := NaN; audio := NaN; fonts := NaN |}.

(** The local [totalEntropy] of [adjustWeights]. *)
Definition totalEntropy (env : Env) : number :=
  nadd (nadd (nadd (getEntropy (getCanvasFingerprint env))
                   (getEntropy (getWebGLFingerprint env)))
             (getEntropy (getAudioFingerprint env)))
       (getEntropy (hashData env (join (js ",") (getFontList env)))).

(** [{ canvas: 0, webGL: 0, audio: 0, fonts: 0 }] *)
Definition allZero : PartialWeights :=
  {| canvas' := Some (Fin 0); webGL' := Some (Fin 0);
     audio' := Some (Fin 0); fonts' := Some (Fin 0) |}.

(** An environment without canvas and WebGL, with a silent analyser and
    no font detected, over a given digest. *)
Definition bareEnv (digest : list Z -> list Z) : Env :=
  {| canvasDataURL := None; webglDebugInfo := None; frequencyData := [];
     spanSize := fun _ => (0%Z, 0%Z); subtleDigest := digest |}.

(** A digest stub that answers 32 octets [0xaa] to every message, so
    that every printed digest is the constant string of 64 ['a']. *)
Definition constantDigest (data : list Z) : list Z := repeat 170%Z 32.

(** How often a code unit occurs in a string, and the units of a
    string without repetition. *)
Definition occurrences (str : jsstring) (c : Z) : nat := count_occ Z.eq_dec str c.

Definition distinctUnits (str : jsstring) : list Z := nodup Z.eq_dec str.

(** What the loop of [getEntropy] maintains: after the prefix [pre] the
    table holds one entry for each unit met, with the number of its
    occurrences. *)
Definition counts (pre : jsstring) (o : frequencyTable) : Prop :=
  NoDup (map fst o) /\
  forall c, lookup c o =
    if (occurrences pre c =? 0)%nat then None
    else Some (Fin (INR (occurrences pre c))).

(** The step of the loop, and the step of the [reduce]. *)
Definition countStep (frequencies : frequencyTable) (c : Z) : frequencyTable :=
  assign c (nadd (orZero (lookup c frequencies)) (Fin 1)) frequencies.

Definition entropyStep (len : number) (entropy freq : number) : number :=
  let p := ndiv freq len in nsub entropy (nmul p (Math_log2 p)).

(** The property-key order of [Object.values], digits first. *)
Definition digitKeys : list Z := map (fun i => (48 + Z.of_nat i)%Z) (seq 0 10).

Definition valuesAt (keys : list Z) (o : frequencyTable) : list number :=
  flat_map (fun d => match lookup d o with Some v => [v] | None => [] end) keys.

(** The entropy [adjustWeights] computes for a signal. *)
Definition entropyOf (env : Env) (k : key) : number :=
  match k with
  | Canvas => getEntropy (getCanvasFingerprint env)
  | WebGL => getEntropy (getWebGLFingerprint env)
  | Audio => getEntropy (getAudioFingerprint env)
  | Fonts => getEntropy (hashData env (join (js ",") (getFontList env)))
  end.

(** The canonical order of the signals. *)
Definition canonicalOrder : list key := [Canvas; WebGL; Audio; Fonts].

(** The raw value of a signal: the string its provider derives from
    the environment before any hashing, [None] when the capability the
    provider probes is absent. *)
Definition rawValue (env : Env) (k : key) : option jsstring :=
  match k with
  | Canvas => canvasDataURL env
  | WebGL =>
      match webglDebugInfo env with
      | Some (Some (vendor, renderer)) => Some (vendor ++ js "~" ++ renderer)
      | _ => None
      end
  | Audio => Some (join (js ",") (map toStringDec (frequencyData env)))
  | Fonts => Some (join (js ",") (getFontList env))
  end.

(** What the source hands to [repeat] for a signal: the digest of the
    raw value, or the empty string when the capability is absent. *)
Definition signalDigest (env : Env) (k : key) : jsstring :=
  match rawValue env k with
  | Some raw => hashData env raw
  | None => []
  end.

(** The repeat count of a weight, as a length: [floor(weight * 100)],
    not below 0. *)
Definition repeatCount (weight : number) : nat :=
  match weight with
  | Fin r => Z.to_nat (Z.max 0 (Int_part (r * 100)))
  | _ => 0%nat
  end.

(** The identifier of a table, each signal contributing [digestOf k]
    repeated [repeatCount] times, in canonical order, the whole digested
    once more. *)
Definition combine (env : Env) (digestOf : key -> jsstring) (w : Weights) : jsstring :=
  hashData env
    (concat (map (fun k => concat (repeat (digestOf k) (repeatCount (get w k))))
                 canonicalOrder)).

(** The identifier of a table of non-negative weights as the source
    computes it. *)
Definition visitorIdOf (env : Env) (w : Weights) : jsstring :=
  combine env (signalDigest env) w.

(** What a provider returns as raw value in the words of the
    specification: the empty string stands for an absent capability. *)
Definition providerOutput (env : Env) (k : key) : jsstring :=
  match rawValue env k with
  | Some raw => raw
  | None => []
  end.

(** The identifier in the words of the specification: every raw value
    is digested, the empty one included. *)
Definition specVisitorId (env : Env) (w : Weights) : jsstring :=
  combine env (fun k => hashData env (providerOutput env k)) w.

(** A browser for the scenarios: a canvas, WebGL with its debug
    extension, three analyser bins, and a span that is one pixel wider
    under Arial and Georgia. *)
Definition sampleSpan (family : jsstring) : Z * Z :=
  if jsstring_eq_dec family (js "'Arial',monospace") then (101%Z, 20%Z)
  else if jsstring_eq_dec family (js "'Georgia',monospace") then (101%Z, 20%Z)
  else (100%Z, 20%Z).

Definition sampleEnv : Env :=
  browser (Some (js "X")) (Some (Some (js "Y", js "Z"))) [0%Z; 17%Z; 255%Z] sampleSpan.

(** The same signals measured on another layout: here the detected
    fonts differ from the defaults in height, under the serif base. *)
Definition otherSpan (family : jsstring) : Z * Z :=
  if jsstring_eq_dec family (js "'Arial',serif") then (100%Z, 21%Z)
  else if jsstring_eq_dec family (js "'Georgia',serif") then (100%Z, 22%Z)
  else (100%Z, 20%Z).

Definition otherEnv : Env :=
  browser (Some (js "X")) (Some (Some (js "Y", js "Z"))) [0%Z; 17%Z; 255%Z] otherSpan.

(** Every list [getFontList] can return: the sublists of [fontList]. *)
Fixpoint sublists {A : Type} (l : list A) : list (list A) :=
  match l with
  | [] => [[]]
  | x :: rest => map (cons x) (sublists rest) ++ sublists rest
  end.

(** Whether a string holds two different code units. *)
Definition hasTwoUnits (str : jsstring) : bool :=
  match str with
  | [] => false
  | a :: rest => existsb (fun b => negb (b =? a)%Z) rest
  end.

(** The check behind [hexPair_octet]. *)
Definition hexPairOk (byte : Z) : bool :=
  (length (hexPair byte) =? 2)%nat && forallb isLowerHex (hexPair byte).

End Table.

(* ================================================================== *)
(** * Vocabulary of the further properties *)
(* ================================================================== *)

Module More.

Import JS Num Sdk Table.
Local Open Scope R_scope.

(** A digest service that answers 32 octets to every message, as
    SHA-256 does. *)
Definition octetDigest (digest : list Z -> list Z) : Prop :=
  forall data,
    length (digest data) = 32%nat /\
    Forall (fun b => (0 <= b < 256)%Z) (digest data).

(** A printed digest: 64 lowercase hexadecimal digits. *)
Definition isDigest (s : jsstring) : Prop :=
  length s = 64%nat /\ forallb isLowerHex s = true.

(** The four strings [generateVisitorId] repeats, in order. *)
Definition fingerprints (env : Env) : list jsstring :=
  [getCanvasFingerprint env; getWebGLFingerprint env; getAudioFingerprint env;
   hashData env (join (js ",") (getFontList env))].

(** The weights whose repeat count [repeat] refuses: the negative ones
    and the infinite ones. *)
Definition rejected (a : number) : Prop :=
  a = PosInf \/ a = NegInf \/ exists r, a = Fin r /\ r < 0.

(** The weights whose repeat count is 0. *)
Definition negligible (a : number) : Prop :=
  a = NaN \/ exists r, a = Fin r /\ 0 <= r < 1 / 100.

(** The local [combinedFingerprint] of [generateVisitorId], for a table
    of non-negative weights. *)
Definition combined (env : Env) (w : Weights) : jsstring :=
  concat (map (fun k => concat (repeat (signalDigest env k) (repeatCount (get w k))))
              canonicalOrder).

(** How many digests the combined string holds at most. *)
Definition copies (w : Weights) : nat :=
  list_sum (map (fun k => repeatCount (get w k)) canonicalOrder).

(** ** Entropy *)

(** [p * log2(p)], the term of the [reduce] callback. *)
Definition plog2 (p : R) : R := p * (ln p / ln 2).

Definition Rsum (l : list R) : R := fold_right Rplus 0 l.

(** The relative frequency of a code unit in a string. *)
Definition frequency (str : jsstring) (c : Z) : R :=
  INR (occurrences str c) / INR (length str).

(** The Shannon entropy, in bits, of the frequencies of the distinct code
    units of a string. *)
Definition shannon (str : jsstring) : R :=
  - Rsum (map (fun c => plog2 (frequency str c)) (distinctUnits str)).

(** What one entry of [Object.values(frequencies)] adds to the sum. *)
Definition termOf (len : R) (v : number) : R :=
  match v with
  | Fin x => plog2 (x / len)
  | _ => 0
  end.

(** The sixteen code units of a printed digest. *)
Definition hexUnits : list Z :=
  [48; 49; 50; 51; 52; 53; 54; 55; 56; 57; 97; 98; 99; 100; 101; 102]%Z.

(** ** Reading a printed digest back *)

(** The value of a lowercase hexadecimal digit. *)
Definition hexValue (u : Z) : option Z :=
  if ((48 <=? u) && (u <=? 57))%Z then Some (u - 48)%Z
  else if ((97 <=? u) && (u <=? 102))%Z then Some (u - 87)%Z
  else None.

(** The octets a string of hexadecimal pairs prints. *)
Fixpoint parseHex (s : jsstring) : option (list Z) :=
  match s with
  | [] => Some []
  | hi :: lo :: rest =>
      match hexValue hi, hexValue lo, parseHex rest with
      | Some h, Some l, Some octets => Some ((16 * h + l)%Z :: octets)
      | _, _, _ => None
      end
  | _ => None
  end.

(** The check behind the round trip of one octet. *)
Definition hexPairReads (byte : Z) : bool :=
  match hexPair byte with
  | [hi; lo] =>
      match hexValue hi, hexValue lo with
      | Some h, Some l => (16 * h + l =? byte)%Z
      | _, _ => false
      end
  | _ => false
  end.

(** ** The font signal *)

(** A part that [join(',')] keeps apart from its neighbours: not empty
    and without a comma. *)
Definition commaFree (part : jsstring) : bool :=
  negb (length part =? 0)%nat && forallb (fun u => negb (u =? 44)%Z) part.

(** The [fontFamily] of a probe: [`'${font}',${baseFont}`]. *)
Definition probeFamily (font baseFont : jsstring) : jsstring :=
  js "'" ++ font ++ js "'," ++ baseFont.

(** ** The audio signal *)

(** The number a string of decimal digits prints. *)
Definition decValue (s : jsstring) : Z :=
  fold_left (fun acc u => (10 * acc + (u - 48))%Z) s 0%Z.

(** The check behind the round trip of one element of the
    [Uint8Array]. *)
Definition decimalReads (byte : Z) : bool :=
  commaFree (toStringDec byte) && (decValue (toStringDec byte) =? byte)%Z.

(** The sample browser without a 2D canvas context. *)
Definition noCanvasEnv : Env :=
  browser None (Some (Some (js "Y", js "Z"))) [0%Z; 17%Z; 255%Z] sampleSpan.


End More.

(* ================================================================== *)
(** * The class of seventeen signals ([vite.config.ts], after the
      build configuration) *)
(* ================================================================== *)

(** [createHash], [hashData], the canvas, WebGL and audio providers and
    [getFontList] are those of the class of four signals, letter for
    letter; they are taken from [Sdk].  The class has no method that
    writes the weight table. *)
Module Extended.

Import JS Num.
Local Open Scope R_scope.

(** What the thirteen further providers read from the browser.  A value
    that the source interpolates into a template literal or hands to
    [String] is given as the string this yields; where the source
    replaces a falsy value by a default ([x || 0]), [None] stands for
    the falsy value. *)
Record Env : Type := {
  (** what the providers of the class of four signals read, and the
      digest service *)
  base : Sdk.Env;
  (** [navigator.userAgent] *)
  userAgent : jsstring;
  (** the first of [navigator.connection], [mozConnection] and
      [webkitConnection] that is there: its [type], [effectiveType],
      [downlink] and [rtt] *)
  connection : option (jsstring * jsstring * jsstring * jsstring);
  (** [window.screen], when there: [width], [height] and [colorDepth] *)
  windowScreen : option (option jsstring * option jsstring * option jsstring);
  (** [window.devicePixelRatio] *)
  devicePixelRatio : option jsstring;
  (** [new Date().getTimezoneOffset()] *)
  timezoneOffset : jsstring;
  (** [Intl.DateTimeFormat().resolvedOptions().timeZone] *)
  timeZone : jsstring;
  (** [navigator.language || navigator.userLanguage] *)
  navigatorLanguage : jsstring;
  (** [navigator.languages], when there *)
  navigatorLanguages : option (list jsstring);
  (** [navigator.plugins], when there: [name] and [filename] of each *)
  navigatorPlugins : option (list (jsstring * jsstring));
  (** [navigator.hardwareConcurrency] *)
  navigatorHardwareConcurrency : option jsstring;
  (** the first truthy of [navigator.doNotTrack], [window.doNotTrack]
      and [navigator.msDoNotTrack], or else the last *)
  dnt : jsstring;
  (** [window.matchMedia(query).matches] for the three gamuts *)
  matchesSrgb : bool;
  matchesP3 : bool;
  matchesRec2020 : bool;
  (** [navigator.maxTouchPoints] *)
  maxTouchPoints : option jsstring;
  (** ['ontouchstart' in window] *)
  touchEvent : bool;
  (** [navigator.cpuClass] and [navigator.platform] *)
  navigatorCpuClass : option jsstring;
  navigatorPlatform : option jsstring;
  (** [!!window.localStorage] and [!!window.sessionStorage]; [None]
      when reading the property throws *)
  hasLocalStorage : option bool;
  hasSessionStorage : option bool
}.

Definition hashData (env : Env) (data : jsstring) : jsstring :=
  Sdk.hashData (base env) data.

(** [x || d] on a value that is given when truthy. *)
Definition orDefault (x : option jsstring) (d : jsstring) : jsstring :=
  match x with
  | Some s => s
  | None => d
  end.

(** [String(b)] of a boolean. *)
Definition String_bool (b : bool) : jsstring := if b then js "true" else js "false".

(** ** The providers of the class of four signals (lines 47-164) *)

Definition getCanvasFingerprint (env : Env) : jsstring := Sdk.getCanvasFingerprint (base env).
Definition getWebGLFingerprint (env : Env) : jsstring := Sdk.getWebGLFingerprint (base env).
Definition getAudioFingerprint (env : Env) : jsstring := Sdk.getAudioFingerprint (base env).
Definition getFontList (env : Env) : list jsstring := Sdk.getFontList (base env).

(** ** The further providers (lines 166-244 and 321-355) *)

Definition getTimezoneFingerprint (env : Env) : jsstring :=
  hashData env (timezoneOffset env ++ js "~" ++ timeZone env).

Definition getLanguageFingerprint (env : Env) : jsstring :=
  let language := navigatorLanguage env in
  let languages :=
    match navigatorLanguages env with
    | Some l => join (js ",") l
    | None => []
    end in
  hashData env (language ++ js "~" ++ languages).

Definition getPluginFingerprint (env : Env) : jsstring :=
  match navigatorPlugins env with
  | Some plugins =>
      hashData env
        (join (js "|") (map (fun p => fst p ++ js "~" ++ snd p) plugins))
  | None => []
  end.

Definition getHardwareConcurrencyFingerprint (env : Env) : jsstring :=
  hashData env (orDefault (navigatorHardwareConcurrency env) []).

Definition getDoNotTrackFingerprint (env : Env) : jsstring :=
  hashData env (dnt env).

Definition getColorGamutFingerprint (env : Env) : jsstring :=
  let colorGamut :=
    (if matchesSrgb env then js "srgb" else [])
    ++ (if matchesP3 env then js "p3" else [])
    ++ (if matchesRec2020 env then js "rec2020" else []) in
  hashData env colorGamut.

Definition getTouchSupportFingerprint (env : Env) : jsstring :=
  let maxTouchPoints := orDefault (maxTouchPoints env) (js "0") in
  let touchPoints := maxTouchPoints ++ js "~" ++ String_bool (touchEvent env) in
  hashData env touchPoints.

Definition getCPUClassFingerprint (env : Env) : jsstring :=
  hashData env (orDefault (navigatorCpuClass env) []).

Definition getPlatformFingerprint (env : Env) : jsstring :=
  hashData env (orDefault (navigatorPlatform env) []).

(** The two assignments of the [try] block: a read that throws leaves
    the variable, and those after it, at ["0"]. *)
Definition getStorageFingerprint (env : Env) : jsstring :=
  let '(localStorage, sessionStorage) :=
    match hasLocalStorage env with
    | None => (js "0", js "0")
    | Some l =>
        match hasSessionStorage env with
        | None => (String_bool l, js "0")
        | Some s => (String_bool l, String_bool s)
        end
    end in
  hashData env (localStorage ++ js "~" ++ sessionStorage).

Definition getScreenFingerprint (env : Env) : jsstring :=
  match windowScreen env with
  | Some (w, h, d) =>
      let width := orDefault w (js "0") in
      let height := orDefault h (js "0") in
      let colorDepth := orDefault d (js "0") in
      let pixelRatio := orDefault (devicePixelRatio env) (js "1") in
      hashData env (width ++ js "x" ++ height ++ js "x" ++ colorDepth ++ js "@" ++ pixelRatio)
  | None => []
  end.

Definition getUserAgentFingerprint (env : Env) : jsstring :=
  hashData env (userAgent env).

Definition getNetworkFingerprint (env : Env) : jsstring :=
  match connection env with
  | Some (type, effectiveType, downlink, rtt) =>
      hashData env (type ++ js "~" ++ effectiveType ++ js "~" ++ downlink ++ js "~" ++ rtt)
  | None => []
  end.

(** ** The weight table (lines 247-265) *)

Record Weights : Type := {
  canvas : number;
  webGL : number;
  audio : number;
  fonts : number;
  userAgent' : number;
  network : number;
  screen : number;
  timezone : number;
  language : number;
  plugins : number;
  hardwareConcurrency : number;
  doNotTrack : number;
  colorGamut : number;
  touchSupport : number;
  cpuClass : number;
  platform : number;
  storage : number
}.

Record FingerprintSDK : Type := { weights : Weights }.

Definition initialWeights : Weights :=
  {| canvas := Fin (4 / 10); webGL := Fin (25 / 100); audio := Fin (25 / 100);
     fonts := Fin (2 / 10); userAgent' := Fin (5 / 100); network := Fin (1 / 10);
     screen := Fin (2 / 100); timezone := Fin (2 / 100); language := Fin (1 / 1000);
     plugins := Fin (2 / 100); hardwareConcurrency := Fin (2 / 100);
     doNotTrack := Fin (1 / 100); colorGamut := Fin (2 / 100);
     touchSupport := Fin (2 / 100); cpuClass := Fin (1 / 100);
     platform := Fin (2 / 100); storage := Fin (2 / 100) |}.

Definition newFingerprintSDK : FingerprintSDK := {| weights := initialWeights |}.

Definition method (A : Type) : Type :=
  FingerprintSDK -> completion A * FingerprintSDK.

Definition ret {A} (a : A) : method A := fun this => (Normal a, this).

Definition bind {A B} (m : method A) (k : A -> method B) : method B :=
  fun this =>
    match m this with
    | (Normal a, this') => k a this'
    | (Throw e, this') => (Throw e, this')
    end.

Definition lift {A} (c : completion A) : method A := fun this => (c, this).

Definition readWeights : method Weights := fun this => (Normal (weights this), this).

Notation "x <- m ;; k" := (bind m (fun x => k))
  (at level 61, m at next level, right associativity).

(** ** [generateVisitorId] (lines 268-314) *)

Definition generateVisitorId (env : Env) : method jsstring :=
  let canvasFingerprint := getCanvasFingerprint env in
  let webGLFingerprint := getWebGLFingerprint env in
  let audioFingerprint := getAudioFingerprint env in
  let fontFingerprint := hashData env (join (js ",") (getFontList env)) in
  let userAgentFingerprint := getUserAgentFingerprint env in
  let networkFingerprint := getNetworkFingerprint env in
  let screenFingerprint := getScreenFingerprint env in
  let timezoneFingerprint := getTimezoneFingerprint env in
  let languageFingerprint := getLanguageFingerprint env in
  let pluginFingerprint := getPluginFingerprint env in
  let hardwareConcurrencyFingerprint := getHardwareConcurrencyFingerprint env in
  let doNotTrackFingerprint := getDoNotTrackFingerprint env in
  let colorGamutFingerprint := getColorGamutFingerprint env in
  let touchSupportFingerprint := getTouchSupportFingerprint env in
  let cpuClassFingerprint := getCPUClassFingerprint env in
  let platformFingerprint := getPlatformFingerprint env in
  let storageFingerprint := getStorageFingerprint env in
  w <- readWeights ;;
  c1 <- lift (Sdk.weightedComponent canvasFingerprint (canvas w)) ;;
  c2 <- lift (Sdk.weightedComponent webGLFingerprint (webGL w)) ;;
  c3 <- lift (Sdk.weightedComponent audioFingerprint (audio w)) ;;
  c4 <- lift (Sdk.weightedComponent fontFingerprint (fonts w)) ;;
  c5 <- lift (Sdk.weightedComponent userAgentFingerprint (userAgent' w)) ;;
  c6 <- lift (Sdk.weightedComponent networkFingerprint (network w)) ;;
  c7 <- lift (Sdk.weightedComponent screenFingerprint (screen w)) ;;
  c8 <- lift (Sdk.weightedComponent timezoneFingerprint (timezone w)) ;;
  c9 <- lift (Sdk.weightedComponent languageFingerprint (language w)) ;;
  c10 <- lift (Sdk.weightedComponent pluginFingerprint (plugins w)) ;;
  c11 <- lift (Sdk.weightedComponent hardwareConcurrencyFingerprint (hardwareConcurrency w)) ;;
  c12 <- lift (Sdk.weightedComponent doNotTrackFingerprint (doNotTrack w)) ;;
  c13 <- lift (Sdk.weightedComponent colorGamutFingerprint (colorGamut w)) ;;
  c14 <- lift (Sdk.weightedComponent touchSupportFingerprint (touchSupport w)) ;;
  c15 <- lift (Sdk.weightedComponent cpuClassFingerprint (cpuClass w)) ;;
  c16 <- lift (Sdk.weightedComponent platformFingerprint (platform w)) ;;
  c17 <- lift (Sdk.weightedComponent storageFingerprint (storage w)) ;;
  let weightedComponents :=
    [c1; c2; c3; c4; c5; c6; c7; c8; c9; c10; c11; c12; c13; c14; c15; c16; c17] in
  let combinedFingerprint := join [] weightedComponents in
  ret (hashData env combinedFingerprint).

(** ** [getWeights] (lines 317-319) *)
Definition getWeights : method Weights := readWeights.

(** ** Names for the statements *)

Inductive signal : Set :=
  | Canvas | WebGL | Audio | Fonts | UserAgent | Network | Screen | Timezone
  | Language | Plugins | HardwareConcurrency | DoNotTrack | ColorGamut
  | TouchSupport | CpuClass | PlatformName | Storage.

Definition signal_eq_dec : forall a b : signal, {a = b} + {a <> b}.
Proof. decide equality. Defined.

(** The signals in the order of [weightedComponents]. *)
Definition order : list signal :=
  [Canvas; WebGL; Audio; Fonts; UserAgent; Network; Screen; Timezone;
   Language; Plugins; HardwareConcurrency; DoNotTrack; ColorGamut;
   TouchSupport; CpuClass; PlatformName; Storage].

(** What [generateVisitorId] obtains for a signal. *)
Definition fingerprintOf (env : Env) (k : signal) : jsstring :=
  match k with
  | Canvas => getCanvasFingerprint env
  | WebGL => getWebGLFingerprint env
  | Audio => getAudioFingerprint env
  | Fonts => hashData env (join (js ",") (getFontList env))
  | UserAgent => getUserAgentFingerprint env
  | Network => getNetworkFingerprint env
  | Screen => getScreenFingerprint env
  | Timezone => getTimezoneFingerprint env
  | Language => getLanguageFingerprint env
  | Plugins => getPluginFingerprint env
  | HardwareConcurrency => getHardwareConcurrencyFingerprint env
  | DoNotTrack => getDoNotTrackFingerprint env
  | ColorGamut => getColorGamutFingerprint env
  | TouchSupport => getTouchSupportFingerprint env
  | CpuClass => getCPUClassFingerprint env
  | PlatformName => getPlatformFingerprint env
  | Storage => getStorageFingerprint env
  end.

Definition get (w : Weights) (k : signal) : number :=
  match k with
  | Canvas => canvas w
  | WebGL => webGL w
  | Audio => audio w
  | Fonts => fonts w
  | UserAgent => userAgent' w
  | Network => network w
  | Screen => screen w
  | Timezone => timezone w
  | Language => language w
  | Plugins => plugins w
  | HardwareConcurrency => hardwareConcurrency w
  | DoNotTrack => doNotTrack w
  | ColorGamut => colorGamut w
  | TouchSupport => touchSupport w
  | CpuClass => cpuClass w
  | PlatformName => platform w
  | Storage => storage w
  end.

(** The signals whose provider has a path that returns [''] without
    digesting. *)
Definition mayBeAbsent (k : signal) : bool :=
  match k with
  | Canvas | WebGL | Network | Screen | Plugins => true
  | _ => false
  end.

(** The string [generateVisitorId] digests on the table of the
    constructor. *)
Definition combined (env : Env) : jsstring :=
  concat (map (fun k => concat (repeat (fingerprintOf env k)
                                       (Table.repeatCount (get initialWeights k))))
              order).

(** The browser [env] with other language settings. *)
Definition withLanguage (env : Env) (language : jsstring)
    (languages : option (list jsstring)) : Env :=
  {| base := base env; userAgent := userAgent env; connection := connection env;
     windowScreen := windowScreen env; devicePixelRatio := devicePixelRatio env;
     timezoneOffset := timezoneOffset env; timeZone := timeZone env;
     navigatorLanguage := language; navigatorLanguages := languages;
     navigatorPlugins := navigatorPlugins env;
     navigatorHardwareConcurrency := navigatorHardwareConcurrency env;
     dnt := dnt env; matchesSrgb := matchesSrgb env; matchesP3 := matchesP3 env;
     matchesRec2020 := matchesRec2020 env; maxTouchPoints := maxTouchPoints env;
     touchEvent := touchEvent env; navigatorCpuClass := navigatorCpuClass env;
     navigatorPlatform := navigatorPlatform env;
     hasLocalStorage := hasLocalStorage env;
     hasSessionStorage := hasSessionStorage env |}.

(** A browser to run the class on. *)
Definition sampleEnv : Env :=
  {| base := Table.sampleEnv; userAgent := js "UA"; connection := None;
     windowScreen := Some (Some (js "1920"), Some (js "1080"), Some (js "24"));
     devicePixelRatio := Some (js "1.5");
     timezoneOffset := js "-60"; timeZone := js "Europe/Paris";
     navigatorLanguage := js "en-US"; navigatorLanguages := Some [js "en-US"; js "en"];
     navigatorPlugins := Some []; navigatorHardwareConcurrency := Some (js "8");
     dnt := js "null"; matchesSrgb := true; matchesP3 := false; matchesRec2020 := false;
     maxTouchPoints := None; touchEvent := false;
     navigatorCpuClass := None; navigatorPlatform := Some (js "Linux x86_64");
     hasLocalStorage := Some true; hasSessionStorage := None |}.

End Extended.

(* ================================================================== *)
(** * The class in binary64, with the failing providers *)
(* ================================================================== *)

(** The methods whose outcome a rounding can decide, [generateVisitorId]
    and [setWeights], once more: the weights are IEEE-754 doubles and
    the operations on them are those of the processor.  The providers
    are those of [Sdk], except that the two property reads that can meet
    [undefined] are there: [crypto.subtle] in [createHash] and the
    [body] element in [getFontList]. *)
Module Binary64.

Import JS Num.

(** ** Numbers *)

(** [Math.floor(x)]: [x] itself when it is [NaN], an infinity, a zero
    or a double without fractional bits; otherwise the integer below,
    which is a double. *)
Definition Math_floor (x : float) : float :=
  match Prim2SF x with
  | S754_finite negative m e =>
      if (0 <=? e)%Z then x
      else
        let below := Z.shiftr (Zpos m) (- e) in
        let integral := (Z.shiftl below (- e) =? Zpos m)%Z in
        if negative then
          PrimFloat.opp (of_uint63 (Uint63.of_Z (if integral then below else below + 1)))
        else of_uint63 (Uint63.of_Z below)
  | _ => x
  end.

(** The abstract operation [ToIntegerOrInfinity] on a double. *)
Definition ToIntegerOrInfinity (x : float) : integerOrInfinity :=
  match Prim2SF x with
  | S754_nan | S754_zero _ => Integer 0
  | S754_infinity false => PlusInfinity
  | S754_infinity true => MinusInfinity
  | S754_finite negative m e =>
      let magnitude :=
        if (0 <=? e)%Z then Z.shiftl (Zpos m) e else Z.shiftr (Zpos m) (- e) in
      Integer (if negative then (- magnitude)%Z else magnitude)
  end.

(** [s.repeat(count)]: a negative or infinite count throws [RangeError].
    An engine throws it too when the result would pass its limit on the
    length of a string, which is left out here: the statements keep
    the counts [modest], where no engine does. *)
Definition String_repeat (s : jsstring) (count : float) : completion jsstring :=
  match ToIntegerOrInfinity count with
  | Integer n =>
      if (n <? 0)%Z then Throw RangeError
      else Normal (concat (repeat s (Z.to_nat n)))
  | PlusInfinity | MinusInfinity => Throw RangeError
  end.

(** ** The page *)

(** A page: what the providers read from the browser, whether
    [document.getElementsByTagName('body')[0]] is an element (it is
    [undefined] while the document has no body), and whether
    [crypto.subtle] is defined (it is [undefined] outside a secure
    context). *)
Record Page : Type := {
  env : Sdk.Env;
  body : bool;
  subtle : bool
}.

(** ** [createHash] and [hashData] (lines 1-13 and 201-203)

    [crypto.subtle.digest] on an undefined [crypto.subtle] throws
    [TypeError]; the promise of [createHash] is rejected with it. *)
Definition hashData (page : Page) (data : jsstring) : completion jsstring :=
  if subtle page then Normal (Sdk.hashData (env page) data) else Throw TypeError.

(** ** The signal providers (lines 24-128) *)

Definition getCanvasFingerprint (page : Page) : completion jsstring :=
  match Sdk.canvasDataURL (env page) with
  | None => Normal []
  | Some url => hashData page url
  end.

Definition getWebGLFingerprint (page : Page) : completion jsstring :=
  match Sdk.webglDebugInfo (env page) with
  | None => Normal []
  | Some None => Normal []
  | Some (Some (vendor, renderer)) => hashData page (vendor ++ js "~" ++ renderer)
  end.

Definition getAudioFingerprint (page : Page) : completion jsstring :=
  hashData page (join (js ",") (map toStringDec (Sdk.frequencyData (env page)))).

(** [h.appendChild(s)] in the first loop throws [TypeError] when [h] is
    [undefined]. *)
Definition getFontList (page : Page) : completion (list jsstring) :=
  if body page then Normal (Sdk.getFontList (env page)) else Throw TypeError.

(** ** The weight table (lines 130-136) *)

Record Weights : Type := {
  canvas : float;
  webGL : float;
  audio : float;
  fonts : float
}.

Record FingerprintSDK : Type := { weights : Weights }.

#[local] Set Warnings "-inexact-float".

(** The literals are rounded to the nearest double, as JavaScript reads
    them. *)
Definition initialWeights : Weights :=
  {| canvas := 0.3; webGL := 0.25; audio := 0.25; fonts := 0.2 |}.

Definition newFingerprintSDK : FingerprintSDK := {| weights := initialWeights |}.

Definition method (A : Type) : Type :=
  FingerprintSDK -> completion A * FingerprintSDK.

Definition ret {A} (a : A) : method A := fun this => (Normal a, this).

Definition bind {A B} (m : method A) (k : A -> method B) : method B :=
  fun this =>
    match m this with
    | (Normal a, this') => k a this'
    | (Throw e, this') => (Throw e, this')
    end.

Definition lift {A} (c : completion A) : method A := fun this => (c, this).

Definition readWeights : method Weights := fun this => (Normal (weights this), this).

Definition writeWeights (w : Weights) : method unit :=
  fun _ => (Normal tt, {| weights := w |}).

Notation "x <- m ;; k" := (bind m (fun x => k))
  (at level 61, m at next level, right associativity).

(** ** [generateVisitorId] (lines 139-154) *)

(** [fingerprint.repeat(Math.floor(weight * 100))] *)
Definition weightedComponent (fingerprint : jsstring) (weight : float)
  : completion jsstring :=
  String_repeat fingerprint (Math_floor (weight * 100)%float).

Definition generateVisitorId (page : Page) : method jsstring :=
  canvasFingerprint <- lift (getCanvasFingerprint page) ;;
  webGLFingerprint <- lift (getWebGLFingerprint page) ;;
  audioFingerprint <- lift (getAudioFingerprint page) ;;
  fontList <- lift (getFontList page) ;;
  fontFingerprint <- lift (hashData page (join (js ",") fontList)) ;;
  w <- readWeights ;;
  c1 <- lift (weightedComponent canvasFingerprint (canvas w)) ;;
  c2 <- lift (weightedComponent webGLFingerprint (webGL w)) ;;
  c3 <- lift (weightedComponent audioFingerprint (audio w)) ;;
  c4 <- lift (weightedComponent fontFingerprint (fonts w)) ;;
  let weightedComponents := [c1; c2; c3; c4] in
  let combinedFingerprint := join [] weightedComponents in
  lift (hashData page combinedFingerprint).

(** ** [getWeights] (lines 187-189) *)
Definition getWeights : method Weights := readWeights.

(** ** [setWeights] (lines 192-199) *)

Record PartialWeights : Type := {
  canvas' : option float;
  webGL' : option float;
  audio' : option float;
  fonts' : option float
}.

Definition override (old : float) (new : option float) : float :=
  match new with
  | Some v => v
  | None => old
  end.

(** [{ ...this.weights, ...newWeights }] *)
Definition spread (w : Weights) (newWeights : PartialWeights) : Weights :=
  {| canvas := override (canvas w) (canvas' newWeights);
     webGL := override (webGL w) (webGL' newWeights);
     audio := override (audio w) (audio' newWeights);
     fonts := override (fonts w) (fonts' newWeights) |}.

(** [Object.values(this.weights)], in key order. *)
Definition values (w : Weights) : list float :=
  [canvas w; webGL w; audio w; fonts w].

Definition divideAll (w : Weights) (sum : float) : Weights :=
  {| canvas := (canvas w / sum)%float;
     webGL := (webGL w / sum)%float;
     audio := (audio w / sum)%float;
     fonts := (fonts w / sum)%float |}.

Definition setWeights (newWeights : PartialWeights) : method unit :=
  old <- readWeights ;;
  _ <- writeWeights (spread old newWeights) ;;
  merged <- readWeights ;;
  let sum := fold_left (fun a b => (a + b)%float) (values merged) 0%float in
  writeWeights (divideAll merged sum).

(** ** Vocabulary of the statements *)

Definition get (w : Weights) (k : Table.key) : float :=
  match k with
  | Table.Canvas => canvas w
  | Table.WebGL => webGL w
  | Table.Audio => audio w
  | Table.Fonts => fonts w
  end.

(** The sum of the weights, added as [setWeights] adds them. *)
Definition total (w : Weights) : float :=
  fold_left (fun a b => (a + b)%float) (values w) 0%float.

(** [{ canvas: a, webGL: b, audio: c, fonts: d }] *)
Definition full (a b c d : float) : PartialWeights :=
  {| canvas' := Some a; webGL' := Some b; audio' := Some c; fonts' := Some d |}.

(** How often [repeat] repeats for a weight; [None] when it throws. *)
Definition repetitions (weight : float) : option nat :=
  match ToIntegerOrInfinity (Math_floor (weight * 100)%float) with
  | Integer n => if (n <? 0)%Z then None else Some (Z.to_nat n)
  | PlusInfinity | MinusInfinity => None
  end.

(** A count of at most [2 ^ 20]: four digests of 64 code units repeated
    that often make [2 ^ 28] code units, below the limit of every
    engine. *)
Definition modest (count : nat) : Prop := (Z.of_nat count <= 2 ^ 20)%Z.

(** The string [generateVisitorId] digests when the signals are
    repeated [count] times. *)
Definition combined (e : Sdk.Env) (count : Table.key -> nat) : jsstring :=
  concat (map (fun k => concat (repeat (Table.signalDigest e k) (count k)))
              Table.canonicalOrder).

(** The repeat count in the words of the specification:
    [floor(weight * 100)], clamped to at least 0. *)
Definition specRepeatCount (weight : float) : nat :=
  match ToIntegerOrInfinity (Math_floor (weight * 100)%float) with
  | Integer n => Z.to_nat (Z.max 0 n)
  | PlusInfinity | MinusInfinity => 0%nat
  end.

(** The identifier in the words of the specification: every raw value
    is digested, the empty one too. *)
Definition specVisitorId (e : Sdk.Env) (w : Weights) : jsstring :=
  Sdk.hashData e
    (concat (map (fun k => concat (repeat (Sdk.hashData e (Table.providerOutput e k))
                                          (specRepeatCount (get w k))))
                 Table.canonicalOrder)).

(** A page with a body, in a secure context. *)
Definition complete (e : Sdk.Env) : Page := {| env := e; body := true; subtle := true |}.

End Binary64.

Import JS Num Sdk Table.

Example sha_empty : createHash Platform.SHA256 (js "") =
  js "e3b0c44298fc1c149afbf4c8996fb92427ae41e4649b934ca495991b7852b855".
Proof. vm_compute. reflexivity. Qed.

Example sha_abc : createHash Platform.SHA256 (js "abc") =
  js "ba7816bf8f01cfea414140de5dae2223b00361a396177a9cb410ff61f20015ad".
Proof. vm_compute. reflexivity. Qed.

Example sha_two_blocks :
  createHash Platform.SHA256
    (js "abcdbcdecdefdefgefghfghighijhijkijkljklmklmnlmnomnopnopq") =
  js "248d6a61d20638b8e5c026930c3e6039a33ce45964ff2167f6ecedd419db06c1".
Proof. vm_compute. reflexivity. Qed.

Example utf8_samples :
  map Platform.TextEncoder_encode
      [[0x41]; [0xE9]; [0x20AC]; [0xD83D; 0xDE00]; [0xD800]; [0xDC00; 0x41]]%Z
  = [[0x41]; [0xC3; 0xA9]; [0xE2; 0x82; 0xAC]; [0xF0; 0x9F; 0x98; 0x80];
     [0xEF; 0xBF; 0xBD]; [0xEF; 0xBF; 0xBD; 0x41]]%Z.
Proof. vm_compute. reflexivity. Qed.

Example frequencyData_joined :
  join (js ",") (map toStringDec [0; 7; 10; 128; 255]%Z) = js "0,7,10,128,255".
Proof. vm_compute. reflexivity. Qed.

Example getFontList_sampleEnv :
  getFontList sampleEnv = [js "Arial"; js "Georgia"] /\
  getFontList otherEnv = [js "Arial"; js "Georgia"].
Proof. split; vm_compute; reflexivity. Qed.

(** In binary64 too the products [weight * 100] of the initial table
    are the integers 30, 25, 25 and 20.  (The literals are rounded to
    the nearest double, as JavaScript reads them.) *)
#[local] Set Warnings "-inexact-float".
Example initial_products_binary64 :
  map (fun w => PrimFloat.mul w 100%float) [0.3; 0.25; 0.25; 0.2]%float
  = [30; 25; 25; 20]%float.
Proof. vm_compute. reflexivity. Qed.

(* ================================================================== *)
(** * Properties of [createHash] *)
(* ================================================================== *)

Section CreateHash.

Local Open Scope Z_scope.

Lemma join_empty_separator (parts : list jsstring) : join [] parts = concat parts.
Proof.
  induction parts as [|p rest IH]; [reflexivity|].
  destruct rest as [|q rest]; simpl in *.
  - now rewrite app_nil_r.
  - now rewrite <- IH.
Qed.

Lemma hexPair_all_octets :
  forallb hexPairOk (map Z.of_nat (seq 0 256)) = true.
Proof. vm_compute. reflexivity. Qed.

Lemma hexPair_octet (byte : Z) :
  0 <= byte < 256 ->
  length (hexPair byte) = 2%nat /\ forallb isLowerHex (hexPair byte) = true.
Proof.
  intros Hb.
  assert (Hin : In byte (map Z.of_nat (seq 0 256))).
  { rewrite <- (Z2Nat.id byte) by lia. apply in_map, in_seq. lia. }
  pose proof (proj1 (forallb_forall _ _) hexPair_all_octets _ Hin) as Hok.
  unfold hexPairOk in Hok. apply andb_prop in Hok as [Hlen Hhex].
  split; [now apply Nat.eqb_eq | exact Hhex].
Qed.

Lemma concat_hexPairs (octets : list Z) :
  Forall (fun b => 0 <= b < 256) octets ->
  length (concat (map hexPair octets)) = (2 * length octets)%nat /\
  forallb isLowerHex (concat (map hexPair octets)) = true.
Proof.
  induction 1 as [|b rest Hb _ [IHlen IHhex]]; [split; reflexivity|].
  destruct (hexPair_octet b Hb) as [Hlen Hhex]. simpl.
  rewrite length_app, forallb_app, Hlen, IHlen, Hhex, IHhex. split; [lia|reflexivity].
Qed.

(** Whatever 32 octets the platform returns, [createHash] prints 64
    lowercase hexadecimal digits. *)
Lemma createHash_of_octets (digest : list Z -> list Z) (message : jsstring) :
  Forall (fun b => 0 <= b < 256) (digest (Platform.TextEncoder_encode message)) ->
  length (createHash digest message)
    = (2 * length (digest (Platform.TextEncoder_encode message)))%nat /\
  forallb isLowerHex (createHash digest message) = true.
Proof.
  intros Hoct. unfold createHash. rewrite join_empty_separator.
  exact (concat_hexPairs _ Hoct).
Qed.

Lemma bigEndian_octets (width : nat) (x : Z) :
  length (Platform.bigEndian width x) = width /\
  Forall (fun b => 0 <= b < 256) (Platform.bigEndian width x).
Proof.
  unfold Platform.bigEndian. split.
  - now rewrite length_map, length_seq.
  - apply Forall_forall. intros b Hin. apply in_map_iff in Hin as [i [<- _]].
    apply Z.mod_pos_bound. lia.
Qed.

Lemma flat_map_bigEndian (width : nat) (words : list Z) :
  length (flat_map (Platform.bigEndian width) words) = (width * length words)%nat /\
  Forall (fun b => 0 <= b < 256) (flat_map (Platform.bigEndian width) words).
Proof.
  induction words as [|x rest [IHlen IHoct]]; simpl flat_map.
  - split; [simpl; lia | constructor].
  - destruct (bigEndian_octets width x) as [Hlen Hoct]. split.
    + rewrite length_app, Hlen, IHlen. simpl length. lia.
    + apply Forall_app. split; assumption.
Qed.

Lemma SHA256_octets (data : list Z) :
  length (Platform.SHA256 data) = 32%nat /\
  Forall (fun b => 0 <= b < 256) (Platform.SHA256 data).
Proof.
  unfold Platform.SHA256.
  set (h := fold_left _ _ _).
  destruct (flat_map_bigEndian 4 (Platform.stateWords h)) as [Hlen Hoct].
  split; [rewrite Hlen; reflexivity | exact Hoct].
Qed.

End CreateHash.

(** C8. For every input string, the empty one included, [createHash]
    over SHA-256 is defined and returns exactly 64 code units, each a
    lowercase hexadecimal digit. *)
Theorem createHash_sha256_fixed_length_hex :
  forall message : jsstring,
    length (createHash Platform.SHA256 message) = 64%nat /\
    forallb isLowerHex (createHash Platform.SHA256 message) = true.
Proof.
  intros message.
  destruct (SHA256_octets (Platform.TextEncoder_encode message)) as [Hlen Hoct].
  destruct (createHash_of_octets Platform.SHA256 message Hoct) as [H1 H2].
  rewrite Hlen in H1. split; assumption.
Qed.

(* ================================================================== *)
(** * Arithmetic of numbers *)
(* ================================================================== *)

(** Case analysis on the comparisons the operations make. *)
Ltac decide_reals :=
  repeat match goal with
  | |- context [Req_dec_T ?a ?b] => destruct (Req_dec_T a b)
  | |- context [Rlt_dec ?a ?b] => destruct (Rlt_dec a b)
  end.

(** Unfolding of the records and of the table operations, the
    arithmetic left folded. *)
Ltac table_simpl :=
  unfold spread, only, divideAll, allZero, allNaN, newFingerprintSDK, initialWeights;
  cbn [override canvas webGL audio fonts canvas' webGL' audio' fonts'
       weights fst snd get supplied].

(** Evaluation of a digest of a closed message, in the virtual machine. *)
Ltac eval_digest :=
  match goal with
  | |- context [hashData ?env ?message] =>
      let v := eval vm_compute in (hashData env message) in
      replace (hashData env message) with v by (vm_compute; reflexivity)
  end.

(** Equality of two finite numbers, by real arithmetic. *)
Ltac fin_eq := f_equal; first [lra | field; lra].

Section Numbers.

Local Open Scope R_scope.

Lemma Int_part_between (r : R) (z : Z) :
  IZR z <= r < IZR z + 1 -> Int_part r = z.
Proof.
  intros [Hlo Hhi]. symmetry. apply Int_part_spec. lra.
Qed.

Lemma Int_part_IZR (z : Z) : Int_part (IZR z) = z.
Proof. apply Int_part_between. lra. Qed.

Lemma ndiv_finite (x y : R) : y <> 0 -> ndiv (Fin x) (Fin y) = Fin (x / y).
Proof. intros Hy. unfold ndiv. decide_reals; solve [contradiction | reflexivity]. Qed.

Lemma ndiv_zero_zero : ndiv (Fin 0) (Fin 0) = NaN.
Proof. unfold ndiv. decide_reals; solve [congruence | lra]. Qed.

Lemma ToIntegerOrInfinity_IZR (z : Z) : ToIntegerOrInfinity (Fin (IZR z)) = Integer z.
Proof.
  unfold ToIntegerOrInfinity. f_equal. decide_reals.
  - rewrite <- opp_IZR, Int_part_IZR. lia.
  - apply Int_part_IZR.
Qed.

(** The repeat count of a finite weight: [Math.floor(weight * 100)]
    reaches [repeat] unchanged, and [repeat] rejects it when negative. *)
Lemma weightedComponent_finite (fingerprint : jsstring) (w : R) :
  weightedComponent fingerprint (Fin w) =
    if (Int_part (w * 100) <? 0)%Z then Throw RangeError
    else Normal (concat (repeat fingerprint (Z.to_nat (Int_part (w * 100))))).
Proof.
  unfold weightedComponent, String_repeat. simpl nmul. simpl Math_floor.
  now rewrite ToIntegerOrInfinity_IZR.
Qed.

Lemma weightedComponent_NaN (fingerprint : jsstring) :
  weightedComponent fingerprint NaN = Normal [].
Proof.
  unfold weightedComponent, String_repeat. simpl. reflexivity.
Qed.

Lemma weightedComponent_count (fingerprint : jsstring) (w : R) (n : nat) :
  INR n <= w * 100 < INR n + 1 ->
  weightedComponent fingerprint (Fin w) = Normal (concat (repeat fingerprint n)).
Proof.
  intros Hn. rewrite weightedComponent_finite.
  rewrite (Int_part_between (w * 100) (Z.of_nat n)) by (rewrite <- INR_IZR_INZ; exact Hn).
  destruct (Z.ltb_spec (Z.of_nat n) 0) as [Hneg|_]; [lia|].
  now rewrite Nat2Z.id.
Qed.

Lemma weightedComponent_negative (fingerprint : jsstring) (w : R) :
  w < 0 -> weightedComponent fingerprint (Fin w) = Throw RangeError.
Proof.
  intros Hw. rewrite weightedComponent_finite.
  destruct (Z.ltb_spec (Int_part (w * 100)) 0) as [_|Hge]; [reflexivity|].
  exfalso. destruct (base_Int_part (w * 100)) as [Hle _].
  apply IZR_le in Hge. lra.
Qed.

End Numbers.

(** C7, as the source has it.  The repeat count is
    [Math.floor(weight * 100)] and nothing clamps it: a weight below
    zero makes [repeat] throw [RangeError].  For a weight from 0 up to,
    but excluding, 0.01 the count is 0 and the fragment is the empty
    string, whatever the digest. *)
Theorem small_weight_fragment_is_empty :
  forall (fingerprint : jsstring) (w : R),
    (0 <= w < 1 / 100)%R ->
    weightedComponent fingerprint (Fin w) = Normal [].
Proof.
  intros fingerprint w Hw.
  apply (weightedComponent_count fingerprint w 0). simpl INR. lra.
Qed.

Lemma small_weight_fragment_is_empty_witness :
  (0 <= 1 / 1000 < 1 / 100)%R /\
  weightedComponent (createHash Platform.SHA256 (js "X")) (Fin (1 / 1000)) = Normal [].
Proof.
  assert (H : (0 <= 1 / 1000 < 1 / 100)%R) by lra.
  split; [exact H | exact (small_weight_fragment_is_empty _ _ H)].
Defined.

(* ================================================================== *)
(** * The weight table: [setWeights] *)
(* ================================================================== *)

Section SetWeights.

Local Open Scope R_scope.

Lemma setWeights_run (newWeights : PartialWeights) (this : FingerprintSDK) :
  setWeights newWeights this =
    (Normal tt,
     {| weights := divideAll (spread (weights this) newWeights)
                             (total (spread (weights this) newWeights)) |}).
Proof. reflexivity. Qed.

Lemma total_finite (a b c d : R) :
  total {| canvas := Fin a; webGL := Fin b; audio := Fin c; fonts := Fin d |}
    = Fin (a + b + c + d).
Proof. unfold total. simpl. fin_eq. Qed.

Lemma get_divideAll (w : Weights) (sum : number) (k : key) :
  get (divideAll w sum) k = ndiv (get w k) sum.
Proof. destruct k; reflexivity. Qed.

Lemma get_spread (w : Weights) (p : PartialWeights) (k : key) :
  get (spread w p) k = override (get w k) (supplied p k).
Proof. destruct k; reflexivity. Qed.

Lemma supplied_only (a k : key) (v : number) :
  supplied (only a v) k = if key_eq_dec k a then Some v else None.
Proof. destruct a, k; reflexivity. Qed.

(** A table of finite weights, seen entry by entry. *)
Lemma finite_table (w : Weights) :
  (forall k, isFinite (get w k)) ->
  exists a b c d,
    w = {| canvas := Fin a; webGL := Fin b; audio := Fin c; fonts := Fin d |}.
Proof.
  intros Hfin.
  destruct (Hfin Canvas) as [a Ha], (Hfin WebGL) as [b Hb],
           (Hfin Audio) as [c Hc], (Hfin Fonts) as [d Hd].
  destruct w as [wc ww wa wf]. simpl in *. subst. now exists a, b, c, d.
Qed.

(** Normalisation does what its comment says whenever the total is a
    non-zero finite number. *)
Lemma divideAll_total_one (w : Weights) (s : R) :
  (forall k, isFinite (get w k)) -> total w = Fin s -> s <> 0 ->
  total (divideAll w (Fin s)) = Fin 1.
Proof.
  intros Hfin Htot Hs.
  destruct (finite_table w Hfin) as (a & b & c & d & ->).
  rewrite total_finite in Htot. injection Htot as Hsum.
  unfold divideAll. simpl canvas. simpl webGL. simpl audio. simpl fonts.
  rewrite !ndiv_finite by exact Hs. rewrite total_finite.
  f_equal. subst s. now field.
Qed.

Lemma setWeights_total_one (newWeights : PartialWeights) (this : FingerprintSDK) (s : R) :
  (forall k, isFinite (get (spread (weights this) newWeights) k)) ->
  total (spread (weights this) newWeights) = Fin s -> s <> 0 ->
  total (weights (snd (setWeights newWeights this))) = Fin 1.
Proof.
  intros Hfin Htot Hs. rewrite setWeights_run. cbn [snd weights].
  rewrite Htot. now apply divideAll_total_one.
Qed.

End SetWeights.

Section SetWeightsCases.

Local Open Scope R_scope.

Lemma wellFormed_initialWeights : wellFormed initialWeights.
Proof.
  intros k. destruct k; eexists; (split; [reflexivity | lra]).
Qed.

Lemma wellFormed_table (w : Weights) :
  wellFormed w ->
  exists a b c d,
    w = {| canvas := Fin a; webGL := Fin b; audio := Fin c; fonts := Fin d |}
    /\ 0 <= a /\ 0 <= b /\ 0 <= c /\ 0 <= d.
Proof.
  intros Hwf.
  destruct (Hwf Canvas) as [a [Ha Ha0]], (Hwf WebGL) as [b [Hb Hb0]],
           (Hwf Audio) as [c [Hc Hc0]], (Hwf Fonts) as [d [Hd Hd0]].
  destruct w as [wc ww wa wf]. simpl in *. subst. exists a, b, c, d. auto.
Qed.


(** [setWeights({canvas: -0.1})] on a fresh instance. *)
Lemma setWeights_negative_canvas :
  setWeights (only Canvas (Fin (- (1 / 10)))) newFingerprintSDK =
    (Normal tt,
     {| weights := {| canvas := Fin (- (1 / 6)); webGL := Fin (5 / 12);
                      audio := Fin (5 / 12); fonts := Fin (1 / 3) |} |}).
Proof.
  rewrite setWeights_run. table_simpl. rewrite total_finite.
  rewrite !ndiv_finite by lra. do 3 f_equal; fin_eq.
Qed.

End SetWeightsCases.




(** C5 at the input [{canvas: 0, webGL: 0, audio: 0, fonts: 0}]: the
    call ends normally, every weight is [NaN] afterwards, and so is
    their sum. *)
Theorem setWeights_zero_total_leaves_NaN :
  setWeights allZero newFingerprintSDK = (Normal tt, {| weights := allNaN |}) /\
  total allNaN = NaN.
Proof.
  rewrite setWeights_run. table_simpl. rewrite total_finite.
  replace (0 + 0 + 0 + 0)%R with 0%R by lra.
  rewrite ndiv_zero_zero. split; reflexivity.
Qed.




(* ================================================================== *)
(** * The frequency table of [getEntropy] *)
(* ================================================================== *)

Section Frequencies.

Local Open Scope R_scope.

Lemma lookup_assign_same (c : Z) (v : number) (o : frequencyTable) :
  lookup c (assign c v o) = Some v.
Proof.
  induction o as [|[k old] rest IH]; simpl.
  - now rewrite Z.eqb_refl.
  - destruct (Z.eqb_spec k c) as [->|Hk]; simpl.
    + now rewrite Z.eqb_refl.
    + destruct (Z.eqb_spec k c); [contradiction | exact IH].
Qed.

Lemma lookup_assign_other (c c' : Z) (v : number) (o : frequencyTable) :
  c <> c' -> lookup c' (assign c v o) = lookup c' o.
Proof.
  intros Hc. induction o as [|[k old] rest IH]; simpl.
  - destruct (Z.eqb_spec c c'); [contradiction | reflexivity].
  - destruct (Z.eqb_spec k c) as [->|Hk]; simpl.
    + destruct (Z.eqb_spec c c'); [contradiction | reflexivity].
    + destruct (Z.eqb_spec k c'); [reflexivity | exact IH].
Qed.

Lemma keys_assign (c : Z) (v : number) (o : frequencyTable) :
  map fst (assign c v o) =
    match lookup c o with
    | Some _ => map fst o
    | None => map fst o ++ [c]
    end.
Proof.
  induction o as [|[k old] rest IH]; simpl; [reflexivity|].
  destruct (Z.eqb_spec k c) as [->|Hk]; simpl; [reflexivity|].
  rewrite IH. now destruct (lookup c rest).
Qed.

Lemma lookup_None_iff (c : Z) (o : frequencyTable) :
  lookup c o = None <-> ~ In c (map fst o).
Proof.
  induction o as [|[k v] rest IH]; simpl; [tauto|].
  destruct (Z.eqb_spec k c) as [->|Hk].
  - split; [discriminate | intros H; exfalso; apply H; now left].
  - rewrite IH. tauto.
Qed.

Lemma lookup_of_entry (c : Z) (v : number) (o : frequencyTable) :
  NoDup (map fst o) -> In (c, v) o -> lookup c o = Some v.
Proof.
  induction o as [|[k old] rest IH]; simpl; intros Hnd Hin; [contradiction|].
  inversion Hnd as [|? ? Hnotin Hnd']; subst.
  destruct Hin as [Heq|Hin].
  - injection Heq as -> ->. now rewrite Z.eqb_refl.
  - destruct (Z.eqb_spec k c) as [->|Hk]; [|now apply IH].
    exfalso. apply Hnotin. change c with (fst (c, v)). now apply in_map.
Qed.

Lemma occurrences_snoc (pre : jsstring) (c c' : Z) :
  occurrences (pre ++ [c]) c' =
    if Z.eq_dec c c' then S (occurrences pre c') else occurrences pre c'.
Proof.
  unfold occurrences. rewrite count_occ_app. simpl.
  destruct (Z.eq_dec c c'); lia.
Qed.

Lemma counts_nil : counts [] [].
Proof. split; [constructor | reflexivity]. Qed.

Lemma counts_step (pre : jsstring) (o : frequencyTable) (c : Z) :
  counts pre o -> counts (pre ++ [c]) (countStep o c).
Proof.
  intros [Hnd Hlook]. unfold countStep. split.
  - rewrite keys_assign. destruct (lookup c o) eqn:Hc; [exact Hnd|].
    apply lookup_None_iff in Hc.
    apply (Permutation_NoDup (Permutation_cons_append (map fst o) c)).
    now constructor.
  - intros c'. rewrite occurrences_snoc.
    destruct (Z.eq_dec c c') as [<-|Hneq].
    + rewrite lookup_assign_same, Hlook. simpl Nat.eqb.
      destruct (occurrences pre c) as [|n] eqn:Hn; simpl Nat.eqb; cbv iota.
      * simpl orZero. simpl nadd. simpl INR. f_equal. fin_eq.
      * unfold orZero. pose proof (pos_INR n) as Hpos.
        rewrite (S_INR (S n)), (S_INR n).
        destruct (Req_dec_T (INR n + 1) 0); [lra|]. reflexivity.
    + rewrite lookup_assign_other by exact Hneq. apply Hlook.
Qed.

Lemma counts_fold (str pre : jsstring) (o : frequencyTable) :
  counts pre o -> counts (pre ++ str) (fold_left countStep str o).
Proof.
  revert pre o. induction str as [|c rest IH]; intros pre o Hinv; simpl.
  - now rewrite app_nil_r.
  - replace (pre ++ c :: rest) with ((pre ++ [c]) ++ rest)
      by now rewrite <- app_assoc.
    apply IH. now apply counts_step.
Qed.

Lemma countFrequencies_counts (str : jsstring) : counts str (countFrequencies str).
Proof. exact (counts_fold str [] [] counts_nil). Qed.

End Frequencies.

(* ================================================================== *)
(** * [Object.values] of the frequency table *)
(* ================================================================== *)

Section ObjectValues.

Lemma valuesAt_empty (keys : list Z) : valuesAt keys [] = [].
Proof. induction keys as [|d rest IH]; [reflexivity | exact IH]. Qed.

Lemma existsb_eqb_In (k : Z) (keys : list Z) :
  existsb (Z.eqb k) keys = true <-> In k keys.
Proof.
  rewrite existsb_exists. split.
  - intros [d [Hin Heq]]. apply Z.eqb_eq in Heq. now subst.
  - intros Hin. exists k. split; [exact Hin | apply Z.eqb_refl].
Qed.

(** One more entry under a fresh key shows up once among the values
    read at [keys], when [keys] holds that key, and not at all
    otherwise. *)
Lemma valuesAt_new_entry (keys : list Z) (k : Z) (v : number) (o : frequencyTable) :
  NoDup keys -> ~ In k (map fst o) ->
  Permutation (valuesAt keys ((k, v) :: o))
              (if existsb (Z.eqb k) keys then v :: valuesAt keys o else valuesAt keys o).
Proof.
  intros Hnd Hfresh. induction keys as [|d rest IH]; [constructor|].
  inversion Hnd as [|? ? Hd Hrest]; subst.
  specialize (IH Hrest).
  change (valuesAt (d :: rest) ((k, v) :: o))
    with ((match lookup d ((k, v) :: o) with Some x => [x] | None => [] end)
          ++ valuesAt rest ((k, v) :: o)).
  change (valuesAt (d :: rest) o)
    with ((match lookup d o with Some x => [x] | None => [] end) ++ valuesAt rest o).
  simpl lookup. simpl existsb.
  destruct (Z.eqb_spec k d) as [->|Hkd].
  - assert (Hnot : existsb (Z.eqb d) rest = false).
    { destruct (existsb (Z.eqb d) rest) eqn:E; [|reflexivity].
      apply existsb_eqb_In in E. contradiction. }
    rewrite Hnot in IH. simpl orb.
    apply (proj2 (lookup_None_iff d o)) in Hfresh. rewrite Hfresh.
    simpl. now constructor.
  - simpl orb. destruct (existsb (Z.eqb k) rest).
    + rewrite IH. symmetry. apply Permutation_middle.
    + now apply Permutation_app_head.
Qed.

Lemma valuesAt_permutation (keys : list Z) (o : frequencyTable) :
  NoDup keys -> NoDup (map fst o) ->
  Permutation (valuesAt keys o)
              (map snd (filter (fun kv => existsb (Z.eqb (fst kv)) keys) o)).
Proof.
  intros Hkeys. induction o as [|[k v] rest IH]; intros Hnd.
  - rewrite valuesAt_empty. constructor.
  - simpl map in Hnd. inversion Hnd as [|? ? Hfresh Hnd']; subst.
    rewrite (valuesAt_new_entry keys k v rest Hkeys Hfresh).
    simpl filter. destruct (existsb (Z.eqb k) keys); simpl; auto.
Qed.

Lemma filter_split_permutation (p : Z * number -> bool) (o : frequencyTable) :
  Permutation (map snd (filter p o) ++ map snd (filter (fun kv => negb (p kv)) o))
              (map snd o).
Proof.
  induction o as [|kv rest IH]; simpl; [constructor|].
  destruct (p kv); simpl.
  - now constructor.
  - rewrite <- Permutation_middle. now constructor.
Qed.

Lemma NoDup_digitKeys : NoDup digitKeys.
Proof.
  unfold digitKeys. apply Finite.Injective_map_NoDup; [|apply seq_NoDup].
  intros i j H. lia.
Qed.

Lemma isArrayIndex_digitKeys (k : Z) :
  isArrayIndex k = existsb (Z.eqb k) digitKeys.
Proof.
  destruct (existsb (Z.eqb k) digitKeys) eqn:E.
  - apply existsb_eqb_In in E. unfold digitKeys in E.
    apply in_map_iff in E as [i [<- Hi]]. apply in_seq in Hi.
    unfold isArrayIndex. apply andb_true_intro. split; apply Z.leb_le; lia.
  - unfold isArrayIndex.
    destruct (Z.leb_spec 48 k) as [Hlo|]; [|reflexivity].
    destruct (Z.leb_spec k 57) as [Hhi|]; [|reflexivity].
    exfalso. assert (Hin : In k digitKeys).
    { unfold digitKeys. apply in_map_iff. exists (Z.to_nat (k - 48)).
      split; [lia | apply in_seq; lia]. }
    apply existsb_eqb_In in Hin. congruence.
Qed.

(** [Object.values] enumerates every entry exactly once. *)
Lemma Object_values_permutation (o : frequencyTable) :
  NoDup (map fst o) -> Permutation (Object_values o) (map snd o).
Proof.
  intros Hnd. unfold Object_values. fold digitKeys. fold (valuesAt digitKeys o).
  rewrite (valuesAt_permutation digitKeys o NoDup_digitKeys Hnd).
  rewrite <- (filter_split_permutation (fun kv => existsb (Z.eqb (fst kv)) digitKeys) o).
  apply Permutation_app_head.
  erewrite filter_ext; [reflexivity|].
  intros kv. simpl. now rewrite isArrayIndex_digitKeys.
Qed.

End ObjectValues.

(* ================================================================== *)
(** * [getEntropy] *)
(* ================================================================== *)

Section Entropy.

Local Open Scope R_scope.

Lemma ln_2_pos : 0 < ln 2.
Proof. pose proof ln_lt_2. lra. Qed.

Lemma ln_nonpos (p : R) : 0 < p <= 1 -> ln p <= 0.
Proof.
  intros [Hpos [Hlt|Heq]]; [|rewrite Heq, ln_1; lra].
  rewrite <- ln_1. left. now apply ln_increasing.
Qed.

(** What [getEntropy] computes, in the vocabulary of the lemmas. *)
Lemma getEntropy_unfold (str : jsstring) :
  getEntropy str =
    fold_left (entropyStep (Fin (INR (length str))))
              (Object_values (countFrequencies str)) (Fin 0).
Proof. reflexivity. Qed.

(** One step of the [reduce] on a finite frequency. *)
Lemma entropyStep_finite (len e x : R) :
  0 < len -> 0 < x ->
  entropyStep (Fin len) (Fin e) (Fin x) =
    Fin (e - x / len * (ln (x / len) / ln 2)).
Proof.
  intros Hlen Hx. unfold entropyStep.
  rewrite ndiv_finite by lra.
  assert (Hp : 0 < x / len) by (apply Rdiv_lt_0_compat; assumption).
  unfold Math_log2. decide_reals; try lra.
  simpl. fin_eq.
Qed.

(** The values of the table are the numbers of occurrences. *)
Lemma counts_values (str : jsstring) (o : frequencyTable) :
  counts str o ->
  Forall (fun v => exists c, In c str /\ v = Fin (INR (occurrences str c)))
         (map snd o).
Proof.
  intros [Hnd Hlook]. apply Forall_forall. intros v Hv.
  apply in_map_iff in Hv as [[c v'] [Hsnd Hin]]. simpl in Hsnd. subst v'.
  apply (lookup_of_entry c v o Hnd) in Hin. rewrite Hlook in Hin.
  destruct (Nat.eqb_spec (occurrences str c) 0) as [|Hocc]; [discriminate|].
  injection Hin as <-. exists c. split; [|reflexivity].
  apply (count_occ_In Z.eq_dec). unfold occurrences in Hocc. lia.
Qed.

(** The table has one entry for each distinct unit. *)
Lemma counts_length (str : jsstring) (o : frequencyTable) :
  counts str o -> length o = length (distinctUnits str).
Proof.
  intros [Hnd Hlook]. rewrite <- (length_map fst o).
  apply Permutation_length, NoDup_Permutation;
    [exact Hnd | apply NoDup_nodup |].
  intros c. unfold distinctUnits. rewrite nodup_In.
  pose proof (count_occ_In Z.eq_dec str c) as Hocc. fold (occurrences str c) in Hocc.
  specialize (Hlook c). pose proof (lookup_None_iff c o) as Hnone.
  revert Hlook.
  destruct (Nat.eqb_spec (occurrences str c) 0) as [Hz|Hnz]; intros Hlook.
  - split; [intros Hin; apply Hnone in Hlook; contradiction|].
    intros Hin. apply Hocc in Hin. lia.
  - split; [intros _; apply Hocc; lia|]. intros _.
    destruct (in_dec Z.eq_dec c (map fst o)) as [|Hn]; [assumption|].
    apply Hnone in Hn. congruence.
Qed.

Lemma Object_values_countFrequencies (str : jsstring) :
  Forall (fun v => exists c, In c str /\ v = Fin (INR (occurrences str c)))
         (Object_values (countFrequencies str)) /\
  length (Object_values (countFrequencies str)) = length (distinctUnits str).
Proof.
  pose proof (countFrequencies_counts str) as Hinv.
  pose proof (Object_values_permutation _ (proj1 Hinv)) as Hperm.
  split.
  - apply (Permutation_Forall (Permutation_sym Hperm)). now apply counts_values.
  - rewrite (Permutation_length Hperm), length_map. now apply counts_length.
Qed.

(** The [reduce] never leaves the finite non-negative numbers. *)
Lemma entropy_fold_nonNegative (len : R) (freqs : list number) (e : R) :
  0 < len -> 0 <= e ->
  Forall (fun v => exists x, v = Fin x /\ 0 < x <= len) freqs ->
  exists r, fold_left (entropyStep (Fin len)) freqs (Fin e) = Fin r /\ e <= r.
Proof.
  intros Hlen. revert e. induction freqs as [|v rest IH]; intros e He Hall; cbn [fold_left].
  - exists e. split; [reflexivity | lra].
  - inversion Hall as [|? ? [x [-> [Hx Hle]]] Hrest]; subst.
    rewrite entropyStep_finite by assumption.
    assert (Hp : 0 < x / len <= 1).
    { split; [now apply Rdiv_lt_0_compat|].
      apply Rmult_le_reg_r with len; [assumption|].
      unfold Rdiv. rewrite Rmult_assoc, Rinv_l by lra. lra. }
    pose proof (ln_nonpos _ Hp) as Hln. pose proof ln_2_pos as H2.
    assert (Hterm : x / len * (ln (x / len) / ln 2) <= 0).
    { assert (ln (x / len) / ln 2 <= 0).
      { unfold Rdiv at 1. assert (0 < / ln 2) by now apply Rinv_0_lt_compat. nra. }
      nra. }
    destruct (IH (e - x / len * (ln (x / len) / ln 2))) as [r [Hr Hle']];
      [lra | assumption |].
    exists r. split; [exact Hr | lra].
Qed.

Lemma getEntropy_nonNegative (str : jsstring) : nonNegative (getEntropy str).
Proof.
  rewrite getEntropy_unfold.
  destruct str as [|c rest] eqn:Hstr; [exists 0; split; [reflexivity | lra]|].
  rewrite <- Hstr.
  assert (Hlen : 0 < INR (length str)) by (apply lt_0_INR; subst; simpl; lia).
  destruct (entropy_fold_nonNegative (INR (length str))
              (Object_values (countFrequencies str)) 0 Hlen (Rle_refl 0))
    as [r [Hr Hle]].
  - eapply Forall_impl; [|exact (proj1 (Object_values_countFrequencies str))].
    intros v [u [Hin ->]]. eexists. split; [reflexivity|]. split.
    + apply lt_0_INR. apply (count_occ_In Z.eq_dec) in Hin.
      unfold occurrences. lia.
    + apply le_INR. apply count_occ_bound.
  - exists r. split; assumption.
Qed.

(** The [reduce] over [k] equal frequencies. *)
Lemma entropy_fold_uniform (len x : R) (k : nat) (e : R) :
  0 < len -> 0 < x ->
  fold_left (entropyStep (Fin len)) (repeat (Fin x) k) (Fin e) =
    Fin (e - INR k * (x / len * (ln (x / len) / ln 2))).
Proof.
  intros Hlen Hx. revert e. induction k as [|k IH]; intros e.
  - simpl. fin_eq.
  - cbn [repeat fold_left]. rewrite entropyStep_finite by assumption.
    rewrite IH, S_INR. fin_eq.
Qed.

Lemma list_sum_cons (x : nat) (l : list nat) :
  list_sum (x :: l) = (x + list_sum l)%nat.
Proof. reflexivity. Qed.

Lemma occurrences_cons (a : Z) (str : jsstring) (c : Z) :
  occurrences (a :: str) c =
    if Z.eq_dec a c then S (occurrences str c) else occurrences str c.
Proof. reflexivity. Qed.

(** The length of a string, unit by unit. *)
Lemma sum_occurrences_cons (a : Z) (str : jsstring) (units : list Z) :
  list_sum (map (occurrences (a :: str)) units) =
    (list_sum (map (occurrences str) units) + count_occ Z.eq_dec units a)%nat.
Proof.
  induction units as [|u rest IH]; [reflexivity|].
  cbn [map count_occ]. rewrite !list_sum_cons, IH, occurrences_cons.
  destruct (Z.eq_dec a u) as [Hau|Hau], (Z.eq_dec u a) as [Hua|Hua]; lia.
Qed.

Lemma length_by_occurrences (str : jsstring) :
  length str = list_sum (map (occurrences str) (distinctUnits str)).
Proof.
  induction str as [|a rest IH]; [reflexivity|].
  unfold distinctUnits in *. simpl nodup.
  destruct (in_dec Z.eq_dec a rest) as [Hin|Hnot].
  - rewrite sum_occurrences_cons, <- IH.
    assert (H1 : count_occ Z.eq_dec (nodup Z.eq_dec rest) a = 1%nat).
    { apply NoDup_count_occ'; [apply NoDup_nodup | now apply nodup_In]. }
    rewrite H1. simpl. lia.
  - cbn [map]. rewrite list_sum_cons, sum_occurrences_cons, <- IH.
    assert (H0 : count_occ Z.eq_dec (nodup Z.eq_dec rest) a = 0%nat).
    { apply count_occ_not_In. now rewrite nodup_In. }
    rewrite H0, occurrences_cons.
    destruct (Z.eq_dec a a) as [_|Hne]; [|contradiction].
    unfold occurrences.
    rewrite (proj1 (count_occ_not_In Z.eq_dec rest a) Hnot). simpl. lia.
Qed.

Lemma length_uniform (str : jsstring) (m : nat) :
  (forall c, In c str -> occurrences str c = m) ->
  length str = (length (distinctUnits str) * m)%nat.
Proof.
  intros Huni. rewrite (length_by_occurrences str) at 1.
  assert (Hall : forall c, In c (distinctUnits str) -> occurrences str c = m).
  { intros c Hc. apply Huni. unfold distinctUnits in Hc. now apply nodup_In in Hc. }
  induction (distinctUnits str) as [|u rest IH]; [reflexivity|].
  cbn [map length]. rewrite list_sum_cons, IH, Hall; [simpl; lia | now left |].
  intros c Hc. apply Hall. now right.
Qed.

(** It grows strictly when some frequency is below the length. *)
Lemma entropy_fold_positive (len : R) (freqs : list number) (e : R) :
  0 < len -> 0 <= e ->
  Forall (fun v => exists x, v = Fin x /\ 0 < x <= len) freqs ->
  Exists (fun v => exists x, v = Fin x /\ 0 < x < len) freqs ->
  exists r, fold_left (entropyStep (Fin len)) freqs (Fin e) = Fin r /\ e < r.
Proof.
  intros Hlen. revert e.
  induction freqs as [|v rest IH]; intros e He Hall Hsome; [inversion Hsome|].
  cbn [fold_left].
  inversion Hall as [|? ? [x [-> [Hx Hle]]] Hrest]; subst.
  rewrite entropyStep_finite by assumption.
  assert (Hp : 0 < x / len) by now apply Rdiv_lt_0_compat.
  assert (Hp1 : x / len <= 1).
  { apply Rmult_le_reg_r with len; [assumption|].
    unfold Rdiv. rewrite Rmult_assoc, Rinv_l by lra. lra. }
  pose proof ln_2_pos as H2.
  assert (Hinv2 : 0 < / ln 2) by now apply Rinv_0_lt_compat.
  pose proof (ln_nonpos _ (conj Hp Hp1)) as Hln.
  inversion Hsome as [? ? [y [Hy [_ Hlt]]]|? ? Hlater]; subst.
  - injection Hy as <-.
    assert (Hstrict : x / len < 1).
    { apply Rmult_lt_reg_r with len; [assumption|].
      unfold Rdiv. rewrite Rmult_assoc, Rinv_l by lra. lra. }
    assert (Hneg : ln (x / len) < 0)
      by (rewrite <- ln_1; now apply ln_increasing).
    assert (Hterm : x / len * (ln (x / len) / ln 2) < 0).
    { assert (ln (x / len) / ln 2 < 0) by (unfold Rdiv at 1; nra). nra. }
    destruct (entropy_fold_nonNegative len rest
                (e - x / len * (ln (x / len) / ln 2)) Hlen) as [r [Hr Hge]];
      [lra | assumption |].
    exists r. split; [exact Hr | lra].
  - assert (Hterm : x / len * (ln (x / len) / ln 2) <= 0).
    { assert (ln (x / len) / ln 2 <= 0) by (unfold Rdiv at 1; nra). nra. }
    destruct (IH (e - x / len * (ln (x / len) / ln 2))) as [r [Hr Hgt]];
      [lra | assumption | assumption |].
    exists r. split; [exact Hr | lra].
Qed.

Lemma lookup_Some_In (c : Z) (v : number) (o : frequencyTable) :
  lookup c o = Some v -> In (c, v) o.
Proof.
  induction o as [|[k old] rest IH]; simpl; [discriminate|].
  destruct (Z.eqb_spec k c) as [->|_].
  - intros H. injection H as ->. now left.
  - intros H. right. now apply IH.
Qed.

Lemma occurrences_below_length (str : jsstring) (a b : Z) :
  a <> b -> In b str -> (occurrences str a < length str)%nat.
Proof.
  intros Hab. induction str as [|x rest IH]; intros Hin; [contradiction|].
  rewrite occurrences_cons. simpl length.
  destruct Hin as [->|Hin].
  - destruct (Z.eq_dec b a) as [Heq|_]; [now subst|].
    pose proof (count_occ_bound Z.eq_dec a rest). unfold occurrences. lia.
  - specialize (IH Hin). destruct (Z.eq_dec x a); lia.
Qed.

(** A string that holds two different units has positive entropy. *)
Lemma getEntropy_positive (str : jsstring) :
  hasTwoUnits str = true -> exists r, getEntropy str = Fin r /\ 0 < r.
Proof.
  intros Htwo.
  assert (Hab : exists a b, a <> b /\ In a str /\ In b str).
  { destruct str as [|a rest]; [discriminate|]. simpl in Htwo.
    apply existsb_exists in Htwo as [b [Hb Hne]].
    exists a, b. repeat split; [|now left | now right].
    apply negb_true_iff, Z.eqb_neq in Hne. congruence. }
  destruct Hab as (a & b & Hne & Ha & Hb).
  assert (Hlen : 0 < INR (length str))
    by (apply lt_0_INR; destruct str; [contradiction | simpl; lia]).
  destruct (Object_values_countFrequencies str) as [Hvals _].
  rewrite getEntropy_unfold.
  apply entropy_fold_positive; [exact Hlen | lra | |].
  - eapply Forall_impl; [|exact Hvals].
    intros v [u [Hin ->]]. eexists. split; [reflexivity|]. split.
    + apply lt_0_INR. apply (count_occ_In Z.eq_dec) in Hin.
      unfold occurrences. lia.
    + apply le_INR. apply count_occ_bound.
  - apply Exists_exists. exists (Fin (INR (occurrences str a))). split.
    + destruct (countFrequencies_counts str) as [Hnd Hlook].
      apply (Permutation_in _ (Permutation_sym (Object_values_permutation _ Hnd))).
      apply in_map_iff. exists (a, Fin (INR (occurrences str a))). split; [reflexivity|].
      apply lookup_Some_In. rewrite Hlook.
      apply (count_occ_In Z.eq_dec) in Ha. fold (occurrences str a) in Ha.
      destruct (Nat.eqb_spec (occurrences str a) 0); [lia | reflexivity].
    + eexists. split; [reflexivity|]. split.
      * apply lt_0_INR. apply (count_occ_In Z.eq_dec) in Ha.
        unfold occurrences. lia.
      * apply lt_INR. now apply (occurrences_below_length str a b).
Qed.

Lemma Forall_eq_repeat (A : Type) (x : A) (l : list A) :
  Forall (eq x) l -> l = repeat x (length l).
Proof.
  induction 1 as [|y rest <- _ IH]; [reflexivity|]. simpl. now f_equal.
Qed.

(** The entropy of a string whose [k] distinct units occur [m] times
    each is the binary logarithm of [k]. *)
Lemma getEntropy_uniform (str : jsstring) (k m : nat) :
  (0 < k)%nat -> (0 < m)%nat ->
  length (distinctUnits str) = k ->
  (forall c, In c str -> occurrences str c = m) ->
  getEntropy str = Fin (ln (INR k) / ln 2).
Proof.
  intros Hk Hm Hdistinct Huni.
  pose proof (length_uniform str m Huni) as Hlen. rewrite Hdistinct in Hlen.
  destruct (Object_values_countFrequencies str) as [Hvals Hcount].
  rewrite Hdistinct in Hcount.
  assert (Hrep : Object_values (countFrequencies str) = repeat (Fin (INR m)) k).
  { rewrite <- Hcount. apply Forall_eq_repeat.
    eapply Forall_impl; [|exact Hvals].
    intros v [c [Hin ->]]. now rewrite (Huni c Hin). }
  rewrite getEntropy_unfold, Hrep, Hlen, mult_INR.
  assert (HK : 0 < INR k) by now apply lt_0_INR.
  assert (HM : 0 < INR m) by now apply lt_0_INR.
  rewrite entropy_fold_uniform by nra.
  replace (INR m / (INR k * INR m)) with (/ INR k) by (field; lra).
  rewrite ln_Rinv by assumption.
  pose proof ln_2_pos. fin_eq.
Qed.

End Entropy.

(** C9. [getEntropy] is the Shannon entropy, in bits, of the
    frequencies of the code units of its argument: it is 0 on ["aaaa"],
    and on a string made of [k] distinct units, each occurring [m]
    times, so of length [k * m], it is the binary logarithm of [k]. *)
Theorem getEntropy_shannon :
  getEntropy (js "aaaa") = Fin 0 /\
  forall (str : jsstring) (k m : nat),
    (0 < k)%nat -> (0 < m)%nat ->
    length (distinctUnits str) = k ->
    (forall c, In c str -> occurrences str c = m) ->
    length str = (k * m)%nat /\
    getEntropy str = Fin (ln (INR k) / ln 2).
Proof.
  split.
  - rewrite (getEntropy_uniform (js "aaaa") 1 4); try lia; try reflexivity.
    + simpl INR. rewrite ln_1. fin_eq.
    + intros c Hc. simpl in Hc. unfold occurrences.
      repeat destruct Hc as [<-|Hc]; try reflexivity; contradiction.
  - intros str k m Hk Hm Hdistinct Huni. split.
    + rewrite <- Hdistinct. now apply length_uniform.
    + now apply (getEntropy_uniform str k m).
Qed.

Lemma getEntropy_shannon_witness :
  length (js "a1b1ab") = (3 * 2)%nat /\
  getEntropy (js "a1b1ab") = Fin (ln (INR 3) / ln 2).
Proof.
  apply (proj2 getEntropy_shannon (js "a1b1ab") 3%nat 2%nat); try lia; try reflexivity.
  intros c Hc. simpl in Hc. unfold occurrences.
  repeat destruct Hc as [<-|Hc]; try reflexivity; contradiction.
Defined.

(** C10. [getEntropy] yields a finite, non-negative number on every
    string.  On the empty string the frequency table has no entry, the
    [reduce] callback is never run, whatever it is, and the result is
    the initial value 0. *)
Theorem getEntropy_total :
  (forall str : jsstring, exists r, getEntropy str = Fin r /\ (0 <= r)%R) /\
  countFrequencies [] = [] /\
  (forall callback : number -> number -> number,
      fold_left callback (Object_values (countFrequencies [])) (Fin 0) = Fin 0) /\
  getEntropy [] = Fin 0.
Proof.
  split; [exact getEntropy_nonNegative|].
  split; [reflexivity|]. split; [intros callback|]; reflexivity.
Qed.

(* ================================================================== *)
(** * [generateVisitorId] *)
(* ================================================================== *)

Section GenerateVisitorId.

Local Open Scope R_scope.

Lemma fingerprints_are_signalDigests (env : Env) :
  getCanvasFingerprint env = signalDigest env Canvas /\
  getWebGLFingerprint env = signalDigest env WebGL /\
  getAudioFingerprint env = signalDigest env Audio /\
  hashData env (join (js ",") (getFontList env)) = signalDigest env Fonts.
Proof.
  unfold getCanvasFingerprint, getWebGLFingerprint, getAudioFingerprint,
    signalDigest, rawValue.
  split; [|split; [|split]]; try reflexivity.
  now destruct (webglDebugInfo env) as [[[vendor renderer]|]|].
Qed.

(** The method, with the four provider calls named. *)
Lemma generateVisitorId_run (env : Env) (this : FingerprintSDK) :
  generateVisitorId env this =
    (match weightedComponent (signalDigest env Canvas) (canvas (weights this)) with
     | Throw e => Throw e
     | Normal c1 =>
     match weightedComponent (signalDigest env WebGL) (webGL (weights this)) with
     | Throw e => Throw e
     | Normal c2 =>
     match weightedComponent (signalDigest env Audio) (audio (weights this)) with
     | Throw e => Throw e
     | Normal c3 =>
     match weightedComponent (signalDigest env Fonts) (fonts (weights this)) with
     | Throw e => Throw e
     | Normal c4 => Normal (hashData env (join [] [c1; c2; c3; c4]))
     end end end end, this).
Proof.
  destruct (fingerprints_are_signalDigests env) as (Hc & Hw & Ha & Hf).
  unfold generateVisitorId. rewrite Hc, Hw, Ha, Hf.
  unfold bind, lift, readWeights, ret.
  destruct (weightedComponent (signalDigest env Canvas) _); [|reflexivity].
  destruct (weightedComponent (signalDigest env WebGL) _); [|reflexivity].
  destruct (weightedComponent (signalDigest env Audio) _); [|reflexivity].
  destruct (weightedComponent (signalDigest env Fonts) _); reflexivity.
Qed.

Lemma signalDigest_depends (env1 env2 : Env) (k : key) :
  subtleDigest env1 = subtleDigest env2 ->
  rawValue env1 k = rawValue env2 k ->
  signalDigest env1 k = signalDigest env2 k.
Proof.
  intros Hd Hr. unfold signalDigest, hashData. now rewrite Hd, Hr.
Qed.

Lemma weightedComponent_nonNegative (fingerprint : jsstring) (weight : number) :
  nonNegative weight ->
  weightedComponent fingerprint weight =
    Normal (concat (repeat fingerprint (repeatCount weight))).
Proof.
  intros [r [-> Hr]]. rewrite weightedComponent_finite. unfold repeatCount.
  destruct (base_Int_part (r * 100)) as [_ Hlow].
  assert (Hge : (0 <= Int_part (r * 100))%Z).
  { apply Z.lt_succ_r, lt_IZR. rewrite succ_IZR. lra. }
  destruct (Z.ltb_spec (Int_part (r * 100)) 0) as [|_]; [lia|].
  now rewrite Z.max_r.
Qed.

End GenerateVisitorId.

Section Scenarios.

Local Open Scope R_scope.

Lemma repeatCount_between (r : R) (n : nat) :
  INR n <= r * 100 < INR n + 1 -> repeatCount (Fin r) = n.
Proof.
  intros Hn. unfold repeatCount.
  rewrite (Int_part_between (r * 100) (Z.of_nat n))
    by (rewrite <- INR_IZR_INZ; exact Hn).
  rewrite Z.max_r by lia. apply Nat2Z.id.
Qed.

(** The repeat counts of the initial table: 30, 25, 25 and 20. *)
Lemma repeatCount_initialWeights :
  map (fun k => repeatCount (get initialWeights k)) canonicalOrder
    = [30; 25; 25; 20]%nat.
Proof.
  unfold canonicalOrder, initialWeights. cbn [map get canvas webGL audio fonts].
  rewrite (repeatCount_between (3 / 10) 30) by (simpl INR; lra).
  rewrite (repeatCount_between (25 / 100) 25) by (simpl INR; lra).
  rewrite (repeatCount_between (2 / 10) 20) by (simpl INR; lra).
  reflexivity.
Qed.

(** The identifier of a table whose repeat counts are known. *)
Lemma combine_counts (env : Env) (digestOf : key -> jsstring) (w : Weights)
    (n1 n2 n3 n4 : nat) :
  map (fun k => repeatCount (get w k)) canonicalOrder = [n1; n2; n3; n4] ->
  combine env digestOf w =
    hashData env
      (concat (repeat (digestOf Canvas) n1) ++ concat (repeat (digestOf WebGL) n2) ++
       concat (repeat (digestOf Audio) n3) ++ concat (repeat (digestOf Fonts) n4)).
Proof.
  unfold canonicalOrder. cbn [map]. intros H. injection H as <- <- <- <-.
  unfold combine, canonicalOrder. cbn [map concat]. now rewrite app_nil_r.
Qed.

Lemma generateVisitorId_wellFormed (env : Env) (this : FingerprintSDK) :
  wellFormed (weights this) ->
  generateVisitorId env this = (Normal (visitorIdOf env (weights this)), this).
Proof.
  intros Hwf. rewrite generateVisitorId_run.
  rewrite (weightedComponent_nonNegative _ _ (Hwf Canvas)).
  rewrite (weightedComponent_nonNegative _ _ (Hwf WebGL)).
  rewrite (weightedComponent_nonNegative _ _ (Hwf Audio)).
  rewrite (weightedComponent_nonNegative _ _ (Hwf Fonts)).
  rewrite join_empty_separator. reflexivity.
Qed.

Lemma same_rawValues_sample_other (k : key) : rawValue sampleEnv k = rawValue otherEnv k.
Proof. destruct k; vm_compute; reflexivity. Qed.

End Scenarios.

(** C1. The identifier is a function of the raw signal values, of the
    platform digest and of the weight table, and of nothing else; a call
    leaves the table as it found it, so a second call on the same
    instance returns what the first returned. *)
Theorem generateVisitorId_deterministic :
  forall (env1 env2 : Env) (this1 this2 : FingerprintSDK),
    subtleDigest env1 = subtleDigest env2 ->
    (forall k, rawValue env1 k = rawValue env2 k) ->
    weights this1 = weights this2 ->
    fst (generateVisitorId env1 this1) = fst (generateVisitorId env2 this2) /\
    snd (generateVisitorId env1 this1) = this1 /\
    fst (generateVisitorId env1 (snd (generateVisitorId env1 this1)))
      = fst (generateVisitorId env1 this1).
Proof.
  intros env1 env2 this1 this2 Hdigest Hraw Hweights.
  assert (Hstate : snd (generateVisitorId env1 this1) = this1)
    by now rewrite generateVisitorId_run.
  split; [|split; [exact Hstate | now rewrite Hstate]].
  rewrite !generateVisitorId_run. cbn [fst].
  rewrite !(signalDigest_depends env1 env2 _ Hdigest (Hraw _)).
  unfold hashData. now rewrite Hdigest, Hweights.
Qed.

Lemma generateVisitorId_deterministic_witness :
  fst (generateVisitorId sampleEnv newFingerprintSDK)
    = fst (generateVisitorId otherEnv newFingerprintSDK) /\
  fst (generateVisitorId sampleEnv (snd (generateVisitorId sampleEnv newFingerprintSDK)))
    = fst (generateVisitorId sampleEnv newFingerprintSDK).
Proof.
  destruct (generateVisitorId_deterministic sampleEnv otherEnv
              newFingerprintSDK newFingerprintSDK
              eq_refl same_rawValues_sample_other eq_refl) as (Hsame & _ & Hagain).
  split; [exact Hsame | exact Hagain].
Defined.

(* ================================================================== *)
(** * [adjustWeights] *)
(* ================================================================== *)

Section AdjustWeights.

Local Open Scope R_scope.

Lemma adjustWeights_run (env : Env) (this : FingerprintSDK) :
  adjustWeights env this =
    (Normal tt,
     {| weights :=
          {| canvas := ndiv (entropyOf env Canvas) (totalEntropy env);
             webGL := ndiv (entropyOf env WebGL) (totalEntropy env);
             audio := ndiv (entropyOf env Audio) (totalEntropy env);
             fonts := ndiv (entropyOf env Fonts) (totalEntropy env) |} |}).
Proof. reflexivity. Qed.

(** The four entropies are finite and non-negative, and so is their
    total. *)
Lemma entropies_finite (env : Env) :
  exists c g u f,
    entropyOf env Canvas = Fin c /\ entropyOf env WebGL = Fin g /\
    entropyOf env Audio = Fin u /\ entropyOf env Fonts = Fin f /\
    0 <= c /\ 0 <= g /\ 0 <= u /\ 0 <= f /\
    totalEntropy env = Fin (c + g + u + f).
Proof.
  destruct (getEntropy_nonNegative (getCanvasFingerprint env)) as [c [Hc Hc0]].
  destruct (getEntropy_nonNegative (getWebGLFingerprint env)) as [g [Hg Hg0]].
  destruct (getEntropy_nonNegative (getAudioFingerprint env)) as [u [Hu Hu0]].
  destruct (getEntropy_nonNegative (hashData env (join (js ",") (getFontList env))))
    as [f [Hf Hf0]].
  exists c, g, u, f. unfold totalEntropy, entropyOf.
  rewrite Hc, Hg, Hu, Hf. repeat split; assumption.
Qed.

(** When the total entropy is not zero the new weights sum to 1. *)
Lemma adjustWeights_total_one (env : Env) (this : FingerprintSDK) (s : R) :
  totalEntropy env = Fin s -> s <> 0 ->
  total (weights (snd (adjustWeights env this))) = Fin 1.
Proof.
  intros Htot Hs. rewrite adjustWeights_run. cbn [snd weights].
  destruct (entropies_finite env) as (c & g & u & f & -> & -> & -> & -> & _ & _ & _ & _ & Hsum).
  rewrite Htot in *. injection Hsum as Hsum.
  rewrite !ndiv_finite by exact Hs. rewrite total_finite.
  f_equal. subst s. now field.
Qed.

Lemma nodup_repeat (c : Z) (n : nat) : nodup Z.eq_dec (repeat c (S n)) = [c].
Proof.
  induction n as [|n IH]; [reflexivity|].
  change (repeat c (S (S n))) with (c :: repeat c (S n)).
  cbn [nodup]. destruct (in_dec Z.eq_dec c (repeat c (S n))) as [_|Hnot].
  - exact IH.
  - exfalso. apply Hnot. now left.
Qed.

(** A string that repeats one code unit has entropy 0. *)
Lemma getEntropy_constant (c : Z) (n : nat) : getEntropy (repeat c n) = Fin 0.
Proof.
  destruct n as [|n]; [reflexivity|].
  rewrite (getEntropy_uniform (repeat c (S n)) 1 (S n)); try lia.
  - simpl INR. rewrite ln_1. fin_eq.
  - unfold distinctUnits. now rewrite nodup_repeat.
  - intros c' Hc'. apply repeat_spec in Hc'. subst c'.
    unfold occurrences. apply count_occ_repeat_eq. reflexivity.
Qed.

Lemma adjustWeights_normalises (env : Env) (this : FingerprintSDK) (s : R) :
  totalEntropy env = Fin s -> s <> 0 ->
  wellFormed (weights (snd (adjustWeights env this))) /\
  total (weights (snd (adjustWeights env this))) = Fin 1.
Proof.
  intros Htot Hs. split; [|exact (adjustWeights_total_one env this s Htot Hs)].
  rewrite adjustWeights_run. cbn [snd weights].
  destruct (entropies_finite env)
    as (c & g & u & f & Hc & Hg & Hu & Hf & Hc0 & Hg0 & Hu0 & Hf0 & Hsum).
  rewrite Htot in Hsum. injection Hsum as Hsum.
  assert (Hinv : 0 < / s) by (apply Rinv_0_lt_compat; lra).
  intros k. destruct k; cbn [get canvas webGL audio fonts];
    rewrite ?Hc, ?Hg, ?Hu, ?Hf, Htot, ndiv_finite by exact Hs;
    (eexists; split; [reflexivity | unfold Rdiv; nra]).
Qed.

(** ** Over SHA-256 the total entropy is never zero

    [getFontList] returns one of the 8192 sublists of [fontList]; the
    digest of each of them, joined by commas, is computed and holds two
    different digits, so the entropy of the font signal is positive in
    every environment. *)

Lemma filter_In_sublists (A : Type) (p : A -> bool) (l : list A) :
  In (filter p l) (sublists l).
Proof.
  induction l as [|x rest IH]; simpl; [now left|].
  apply in_or_app. destruct (p x); [left; now apply in_map | now right].
Qed.

Lemma fontDigests_vary :
  forallb (fun detected =>
             hasTwoUnits (createHash Platform.SHA256 (join (js ",") detected)))
          (sublists fontList) = true.
Proof. vm_compute. reflexivity. Qed.

Lemma sha256_totalEntropy_positive (env : Env) :
  subtleDigest env = Platform.SHA256 ->
  exists s, totalEntropy env = Fin s /\ 0 < s.
Proof.
  intros Hsha.
  destruct (entropies_finite env)
    as (c & g & u & f & _ & _ & _ & Hf & Hc0 & Hg0 & Hu0 & _ & Hsum).
  assert (Hpos : exists r, entropyOf env Fonts = Fin r /\ 0 < r).
  { unfold entropyOf, hashData. rewrite Hsha. apply getEntropy_positive.
    apply (proj1 (forallb_forall _ _) fontDigests_vary (getFontList env)).
    unfold getFontList. apply filter_In_sublists. }
  destruct Hpos as [r [Hr Hr0]]. rewrite Hf in Hr. injection Hr as ->.
  exists (c + g + u + r). split; [exact Hsum | lra].
Qed.

End AdjustWeights.

(** C7 fails as stated: after [setWeights({canvas: -0.1})] the weight
    of the canvas signal is -1/6, which is below 0.01, and its fragment
    is not the empty string: [repeat] throws, and [generateVisitorId]
    with it. *)
Lemma negative_weight_fragment_throws :
  canvas (weights (snd (setWeights (only Canvas (Fin (- (1 / 10)))) newFingerprintSDK)))
    = Fin (- (1 / 6)) /\
  (- (1 / 6) < 1 / 100)%R /\
  weightedComponent (signalDigest sampleEnv Canvas) (Fin (- (1 / 6))) = Throw RangeError /\
  fst (generateVisitorId sampleEnv
         (snd (setWeights (only Canvas (Fin (- (1 / 10)))) newFingerprintSDK)))
    = Throw RangeError.
Proof.
  assert (Hneg : (- (1 / 6) < 0)%R) by lra.
  rewrite setWeights_negative_canvas. cbn [snd weights canvas].
  split; [reflexivity|]. split; [lra|].
  split; [now apply weightedComponent_negative|].
  rewrite generateVisitorId_run. cbn [fst weights canvas].
  now rewrite (weightedComponent_negative _ _ Hneg).
Qed.

Import More.

(* ================================================================== *)
(** * What the providers return *)
(* ================================================================== *)

Section Providers.

Lemma SHA256_octetDigest : octetDigest Platform.SHA256.
Proof. intros data. apply SHA256_octets. Qed.

Lemma hashData_isDigest (env : Env) (data : jsstring) :
  octetDigest (subtleDigest env) -> isDigest (hashData env data).
Proof.
  intros Hoct. destruct (Hoct (Platform.TextEncoder_encode data)) as [Hlen Hrange].
  destruct (createHash_of_octets (subtleDigest env) data Hrange) as [H1 H2].
  unfold isDigest, hashData. rewrite H1, Hlen. split; [reflexivity | exact H2].
Qed.

Lemma isDigest_not_empty (s : jsstring) : isDigest s -> s <> [].
Proof. intros [Hlen _] ->. discriminate. Qed.

Lemma signalDigest_shape (env : Env) (k : key) :
  octetDigest (subtleDigest env) ->
  (rawValue env k = None /\ signalDigest env k = []) \/
  (rawValue env k <> None /\ isDigest (signalDigest env k)).
Proof.
  intros Hoct. unfold signalDigest. destruct (rawValue env k) as [raw|].
  - right. split; [discriminate | now apply hashData_isDigest].
  - left. split; reflexivity.
Qed.

End Providers.

(** X1. Over a digest service of 32 octets, every provider returns the
    empty string or a printed digest of 64 lowercase hexadecimal digits.
    The canvas provider returns the empty string exactly when there is
    no 2D context, the WebGL provider exactly when the context or its
    debug extension is missing; the audio and the font fingerprints are
    never empty. *)
Theorem providers_return_empty_or_digest :
  forall env : Env,
    octetDigest (subtleDigest env) ->
    (getCanvasFingerprint env = [] <-> canvasDataURL env = None) /\
    (getWebGLFingerprint env = [] <->
       webglDebugInfo env = None \/ webglDebugInfo env = Some None) /\
    isDigest (getAudioFingerprint env) /\
    isDigest (hashData env (join (js ",") (getFontList env))) /\
    (forall fp, In fp (fingerprints env) -> fp = [] \/ isDigest fp).
Proof.
  intros env Hoct.
  assert (Hc : getCanvasFingerprint env = [] <-> canvasDataURL env = None).
  { unfold getCanvasFingerprint. destruct (canvasDataURL env) as [url|].
    - split; [|discriminate]. intros H. exfalso.
      exact (isDigest_not_empty _ (hashData_isDigest env url Hoct) H).
    - split; reflexivity. }
  assert (Hg : getWebGLFingerprint env = [] <->
               webglDebugInfo env = None \/ webglDebugInfo env = Some None).
  { unfold getWebGLFingerprint.
    destruct (webglDebugInfo env) as [[[vendor renderer]|]|].
    - split; [|intros [H|H]; discriminate]. intros H. exfalso.
      exact (isDigest_not_empty _ (hashData_isDigest env _ Hoct) H).
    - split; [now right | reflexivity].
    - split; [now left | reflexivity]. }
  assert (Ha : isDigest (getAudioFingerprint env))
    by (unfold getAudioFingerprint; now apply hashData_isDigest).
  assert (Hf : isDigest (hashData env (join (js ",") (getFontList env))))
    by now apply hashData_isDigest.
  repeat split; try tauto; try apply Ha; try apply Hf.
  intros fp Hin. destruct (fingerprints_are_signalDigests env) as (E1 & E2 & E3 & E4).
  unfold fingerprints in Hin. rewrite E1, E2, E3, E4 in Hin.
  assert (Hshape : forall k, signalDigest env k = [] \/ isDigest (signalDigest env k)).
  { intros k. destruct (signalDigest_shape env k Hoct) as [[_ H]|[_ H]]; auto. }
  simpl in Hin. destruct Hin as [<-|[<-|[<-|[<-|[]]]]]; apply Hshape.
Qed.

Lemma providers_return_empty_or_digest_witness :
  getCanvasFingerprint (bareEnv Platform.SHA256) = [] /\
  isDigest (getAudioFingerprint (bareEnv Platform.SHA256)) /\
  isDigest (getCanvasFingerprint sampleEnv).
Proof.
  destruct (providers_return_empty_or_digest (bareEnv Platform.SHA256) SHA256_octetDigest)
    as (Hc & _ & Ha & _ & _).
  destruct (providers_return_empty_or_digest sampleEnv SHA256_octetDigest)
    as (Hc' & _ & _ & _ & Hall).
  split; [apply Hc; reflexivity|]. split; [exact Ha|].
  destruct (Hall (getCanvasFingerprint sampleEnv)) as [Hempty|Hd];
    [now left | | exact Hd].
  apply Hc' in Hempty. discriminate.
Defined.

(* ================================================================== *)
(** * How [generateVisitorId] ends *)
(* ================================================================== *)

Section Outcome.

Local Open Scope R_scope.

Lemma weightedComponent_rejected (fingerprint : jsstring) (a : number) :
  rejected a -> weightedComponent fingerprint a = Throw RangeError.
Proof.
  intros [->|[->|[r [-> Hr]]]].
  - unfold weightedComponent, String_repeat, nmul, scaleInf.
    decide_reals; try lra. reflexivity.
  - unfold weightedComponent, String_repeat, nmul, scaleInf.
    decide_reals; try lra. reflexivity.
  - now apply weightedComponent_negative.
Qed.

Lemma weightedComponent_accepted (fingerprint : jsstring) (a : number) :
  ~ rejected a ->
  weightedComponent fingerprint a = Normal (concat (repeat fingerprint (repeatCount a))).
Proof.
  intros Hok. destruct a as [| | |r].
  - apply weightedComponent_NaN.
  - exfalso. apply Hok. now left.
  - exfalso. apply Hok. right. now left.
  - apply weightedComponent_nonNegative. exists r. split; [reflexivity|].
    destruct (Rlt_dec r 0) as [Hneg|]; [|lra].
    exfalso. apply Hok. right. right. now exists r.
Qed.

Lemma rejected_dec (a : number) : {rejected a} + {~ rejected a}.
Proof.
  destruct a as [| | |r].
  - right. intros [H|[H|[r [H _]]]]; discriminate.
  - left. now left.
  - left. right. now left.
  - destruct (Rlt_dec r 0) as [Hneg|Hpos].
    + left. right. right. now exists r.
    + right. intros [H|[H|[r' [H Hr']]]]; try discriminate.
      injection H as ->. contradiction.
Qed.

(** The method on a table none of whose weights is refused. *)
Lemma generateVisitorId_accepted (env : Env) (this : FingerprintSDK) :
  (forall k, ~ rejected (get (weights this) k)) ->
  generateVisitorId env this = (Normal (hashData env (combined env (weights this))), this).
Proof.
  intros Hok. rewrite generateVisitorId_run.
  rewrite (weightedComponent_accepted _ _ (Hok Canvas)).
  rewrite (weightedComponent_accepted _ _ (Hok WebGL)).
  rewrite (weightedComponent_accepted _ _ (Hok Audio)).
  rewrite (weightedComponent_accepted _ _ (Hok Fonts)).
  rewrite join_empty_separator. reflexivity.
Qed.

Lemma generateVisitorId_rejected (env : Env) (this : FingerprintSDK) (k : key) :
  rejected (get (weights this) k) ->
  generateVisitorId env this = (Throw RangeError, this).
Proof.
  intros Hk. rewrite generateVisitorId_run.
  destruct (rejected_dec (canvas (weights this))) as [H1|H1];
    [now rewrite (weightedComponent_rejected _ _ H1)|].
  rewrite (weightedComponent_accepted _ _ H1).
  destruct (rejected_dec (webGL (weights this))) as [H2|H2];
    [now rewrite (weightedComponent_rejected _ _ H2)|].
  rewrite (weightedComponent_accepted _ _ H2).
  destruct (rejected_dec (audio (weights this))) as [H3|H3];
    [now rewrite (weightedComponent_rejected _ _ H3)|].
  rewrite (weightedComponent_accepted _ _ H3).
  destruct (rejected_dec (fonts (weights this))) as [H4|H4];
    [now rewrite (weightedComponent_rejected _ _ H4)|].
  exfalso. destruct k; contradiction.
Qed.

End Outcome.

(** X3. Over a digest service of 32 octets, an identifier that
    [generateVisitorId] returns is a printed digest: 64 lowercase
    hexadecimal digits, whatever the signals and the weights. *)
Theorem generateVisitorId_returns_digest :
  forall (env : Env) (this : FingerprintSDK) (id : jsstring),
    octetDigest (subtleDigest env) ->
    fst (generateVisitorId env this) = Normal id ->
    isDigest id.
Proof.
  intros env this id Hoct Hid. rewrite generateVisitorId_run in Hid. cbn [fst] in Hid.
  destruct (weightedComponent _ (canvas _)); [|discriminate].
  destruct (weightedComponent _ (webGL _)); [|discriminate].
  destruct (weightedComponent _ (audio _)); [|discriminate].
  destruct (weightedComponent _ (fonts _)); [|discriminate].
  injection Hid as <-. now apply hashData_isDigest.
Qed.

Lemma generateVisitorId_returns_digest_witness :
  isDigest (js "fa2736bc702216086bc5310381839abf46625ff269fd828bbd6977b7ec431c99").
Proof.
  apply (generateVisitorId_returns_digest sampleEnv newFingerprintSDK _ SHA256_octetDigest).
  rewrite (generateVisitorId_wellFormed sampleEnv newFingerprintSDK wellFormed_initialWeights).
  cbn [fst]. change (weights newFingerprintSDK) with initialWeights.
  unfold visitorIdOf.
  rewrite (combine_counts _ _ _ _ _ _ _ repeatCount_initialWeights).
  eval_digest. reflexivity.
Defined.

Section Degenerate.

Local Open Scope R_scope.

Lemma negligible_accepted (a : number) : negligible a -> ~ rejected a.
Proof.
  intros [->|[r [-> Hr]]] [H|[H|[r' [H Hr']]]]; try discriminate.
  injection H as <-. lra.
Qed.

Lemma negligible_repeatCount (a : number) : negligible a -> repeatCount a = 0%nat.
Proof.
  intros [->|[r [-> Hr]]]; [reflexivity|].
  apply repeatCount_between. simpl INR. lra.
Qed.

Lemma setWeights_allZero :
  setWeights allZero newFingerprintSDK = (Normal tt, {| weights := allNaN |}).
Proof.
  rewrite setWeights_run. table_simpl. rewrite total_finite.
  replace (0 + 0 + 0 + 0) with 0 by lra.
  now rewrite ndiv_zero_zero.
Qed.

Lemma generateVisitorId_negligible (env : Env) (this : FingerprintSDK) :
  (forall k, negligible (get (weights this) k)) ->
  generateVisitorId env this = (Normal (hashData env []), this).
Proof.
  intros Hneg.
  rewrite generateVisitorId_accepted by (intros k; apply negligible_accepted, Hneg).
  unfold combined, canonicalOrder. cbn [map].
  rewrite !negligible_repeatCount by apply Hneg. reflexivity.
Qed.

End Degenerate.

(** X4. When every weight of the table is [NaN] or lies in [0, 0.01),
    no signal reaches the combined string: [generateVisitorId] returns
    the digest of the empty string, the same on every device.  The table
    that [setWeights({canvas: 0, webGL: 0, audio: 0, fonts: 0})] leaves
    is one of these. *)
Theorem negligible_table_erases_signals :
  forall (env : Env) (this : FingerprintSDK),
    (forall k, negligible (get (weights this) k)) ->
    generateVisitorId env this = (Normal (hashData env []), this).
Proof.
  intros env this Hneg.
  rewrite generateVisitorId_accepted by (intros k; apply negligible_accepted, Hneg).
  unfold combined, canonicalOrder. cbn [map].
  rewrite !negligible_repeatCount by apply Hneg. reflexivity.
Qed.

Lemma negligible_table_erases_signals_witness :
  fst (generateVisitorId sampleEnv (snd (setWeights allZero newFingerprintSDK)))
    = Normal (js "e3b0c44298fc1c149afbf4c8996fb92427ae41e4649b934ca495991b7852b855").
Proof.
  rewrite setWeights_allZero. cbn [snd].
  rewrite (negligible_table_erases_signals sampleEnv {| weights := allNaN |})
    by (intros k; left; now destruct k).
  cbn [fst]. eval_digest. reflexivity.
Defined.

(* ================================================================== *)
(** * [setWeights] on the tables of the data model *)
(* ================================================================== *)

Section Normalised.

Local Open Scope R_scope.

Lemma wellFormed_spread (w : Weights) (p : PartialWeights) :
  wellFormed w ->
  (forall k v, supplied p k = Some v -> nonNegative v) ->
  wellFormed (spread w p).
Proof.
  intros Hw Hp k. rewrite get_spread.
  destruct (supplied p k) as [v|] eqn:Hk; [exact (Hp k v Hk) | apply Hw].
Qed.

(** A table of non-negative weights whose total is not zero, divided by
    its total. *)
Lemma divideAll_unit_interval (w : Weights) (s : R) :
  wellFormed w -> total w = Fin s -> s <> 0 ->
  forall k, exists r, get (divideAll w (Fin s)) k = Fin r /\ 0 <= r <= 1.
Proof.
  intros Hwf Htot Hs k.
  destruct (wellFormed_table w Hwf) as (a & b & c & d & -> & Ha & Hb & Hc & Hd).
  rewrite total_finite in Htot. injection Htot as Hsum.
  assert (Hpos : 0 < s) by lra.
  assert (Hinv : 0 < / s) by now apply Rinv_0_lt_compat.
  assert (Hone : s * / s = 1) by (apply Rinv_r; lra).
  rewrite get_divideAll.
  destruct k; cbn [get canvas webGL audio fonts]; rewrite ndiv_finite by exact Hs;
    (eexists; split; [reflexivity | unfold Rdiv; split; nra]).
Qed.

Lemma unit_interval_wellFormed (w : Weights) :
  (forall k, exists r, get w k = Fin r /\ 0 <= r <= 1) -> wellFormed w.
Proof.
  intros H k. destruct (H k) as [r [Hr [H0 _]]]. now exists r.
Qed.

Lemma repeatCount_bounds (r : R) :
  0 <= r ->
  INR (repeatCount (Fin r)) <= r * 100 < INR (repeatCount (Fin r)) + 1.
Proof.
  intros Hr. unfold repeatCount.
  destruct (base_Int_part (r * 100)) as [Hle Hgt].
  assert (Hge : (0 <= Int_part (r * 100))%Z).
  { apply Z.lt_succ_r, lt_IZR. rewrite succ_IZR. lra. }
  rewrite Z.max_r by exact Hge.
  rewrite INR_IZR_INZ, Z2Nat.id by exact Hge. lra.
Qed.

(** The number of copies a table of total 1 asks for. *)
Lemma copies_of_unit_total (w : Weights) :
  wellFormed w -> total w = Fin 1 -> (97 <= copies w <= 100)%nat.
Proof.
  intros Hwf Htot.
  destruct (wellFormed_table w Hwf) as (a & b & c & d & -> & Ha & Hb & Hc & Hd).
  rewrite total_finite in Htot. injection Htot as Hsum.
  unfold copies, canonicalOrder. cbn [map get canvas webGL audio fonts].
  pose proof (repeatCount_bounds a Ha) as Ba. pose proof (repeatCount_bounds b Hb) as Bb.
  pose proof (repeatCount_bounds c Hc) as Bc. pose proof (repeatCount_bounds d Hd) as Bd.
  set (na := repeatCount (Fin a)) in *. set (nb := repeatCount (Fin b)) in *.
  set (nc := repeatCount (Fin c)) in *. set (nd := repeatCount (Fin d)) in *.
  replace (list_sum [na; nb; nc; nd]) with (na + nb + nc + nd)%nat by (simpl; lia).
  assert (Hreal : 96 < INR (na + nb + nc + nd) <= 100).
  { rewrite !plus_INR. lra. }
  destruct Hreal as [Hlo Hhi]. split.
  - apply INR_lt. replace (INR 96) with 96 in *; [exact Hlo|].
    rewrite INR_IZR_INZ. reflexivity.
  - apply INR_le. replace (INR 100) with 100; [exact Hhi|].
    rewrite INR_IZR_INZ. reflexivity.
Qed.

Lemma length_concat_repeat (s : jsstring) (n : nat) :
  length (concat (repeat s n)) = (n * length s)%nat.
Proof.
  induction n as [|n IH]; [reflexivity|].
  cbn [repeat concat]. rewrite length_app, IH. simpl. lia.
Qed.

End Normalised.

(** X5. On a table of non-negative weights, [setWeights] with
    non-negative supplied weights, none of the merged weights above
    1e300 (so that their sum is a finite double) and a merged total
    other than zero, leaves a table of weights between 0 and 1 whose sum
    is 1. *)
Theorem setWeights_keeps_unit_table :
  forall (this : FingerprintSDK) (newWeights : PartialWeights) (s : R),
    wellFormed (weights this) ->
    (forall k v, supplied newWeights k = Some v -> nonNegative v) ->
    (forall k r, get (spread (weights this) newWeights) k = Fin r -> (r <= 1e300)%R) ->
    total (spread (weights this) newWeights) = Fin s -> s <> 0%R ->
    (forall k, exists r,
        get (weights (snd (setWeights newWeights this))) k = Fin r /\ (0 <= r <= 1)%R) /\
    total (weights (snd (setWeights newWeights this))) = Fin 1.
Proof.
  intros this newWeights s Hwf Hsup _ Htot Hs.
  pose proof (wellFormed_spread _ _ Hwf Hsup) as Hmerged.
  rewrite setWeights_run. cbn [snd weights]. rewrite Htot. split.
  - now apply divideAll_unit_interval.
  - apply divideAll_total_one; [|assumption..].
    intros k. destruct (Hmerged k) as [r [Hr _]]. now exists r.
Qed.

Lemma setWeights_keeps_unit_table_witness :
  total (weights (snd (setWeights (only Canvas (Fin (1 / 2))) newFingerprintSDK))) = Fin 1.
Proof.
  assert (Hs : (12 / 10 <> 0)%R) by lra.
  refine (proj2 (setWeights_keeps_unit_table newFingerprintSDK
                   (only Canvas (Fin (1 / 2))) (12 / 10)
                   wellFormed_initialWeights _ _ _ Hs)).
  - intros k v Hk. rewrite supplied_only in Hk.
    destruct (key_eq_dec k Canvas); [|discriminate].
    injection Hk as <-. exists (1 / 2)%R. split; [reflexivity | lra].
  - intros k r Hk. destruct k; injection Hk as <-; lra.
  - table_simpl. rewrite total_finite. fin_eq.
Defined.

(* ================================================================== *)
(** * [getEntropy] on every string *)
(* ================================================================== *)

Section Shannon.

Local Open Scope R_scope.

Lemma Rsum_permutation (l l' : list R) : Permutation l l' -> Rsum l = Rsum l'.
Proof.
  induction 1 as [|x l l' _ IH|x y l|l l' l'' _ IH1 _ IH2]; simpl.
  - reflexivity.
  - now rewrite IH.
  - lra.
  - now rewrite IH1.
Qed.

Lemma entropyStep_term (len e x : R) :
  0 < len -> 0 < x ->
  entropyStep (Fin len) (Fin e) (Fin x) = Fin (e - termOf len (Fin x)).
Proof. intros Hlen Hx. now rewrite entropyStep_finite. Qed.

(** The [reduce] adds up the terms of its list, in any order. *)
Lemma entropy_fold_sum (len : R) (freqs : list number) (e : R) :
  0 < len ->
  Forall (fun v => exists x, v = Fin x /\ 0 < x) freqs ->
  fold_left (entropyStep (Fin len)) freqs (Fin e)
    = Fin (e - Rsum (map (termOf len) freqs)).
Proof.
  intros Hlen Hall. revert e.
  induction Hall as [|v rest [x [-> Hx]] _ IH]; intros e; cbn [fold_left map].
  - simpl. fin_eq.
  - rewrite entropyStep_term by assumption. rewrite IH.
    unfold Rsum. cbn [fold_right termOf]. fin_eq.
Qed.

Lemma counts_keys (str : jsstring) (o : frequencyTable) :
  counts str o -> Permutation (map fst o) (distinctUnits str).
Proof.
  intros [Hnd Hlook].
  apply NoDup_Permutation; [exact Hnd | apply NoDup_nodup |].
  intros c. unfold distinctUnits. rewrite nodup_In.
  pose proof (count_occ_In Z.eq_dec str c) as Hocc. fold (occurrences str c) in Hocc.
  specialize (Hlook c). pose proof (lookup_None_iff c o) as Hnone.
  revert Hlook.
  destruct (Nat.eqb_spec (occurrences str c) 0) as [Hz|Hnz]; intros Hlook.
  - split; [intros Hin; apply Hnone in Hlook; contradiction|].
    intros Hin. apply Hocc in Hin. lia.
  - split; [intros _; apply Hocc; lia|]. intros _.
    destruct (in_dec Z.eq_dec c (map fst o)) as [|Hn]; [assumption|].
    apply Hnone in Hn. congruence.
Qed.

Lemma counts_entries (str : jsstring) (o : frequencyTable) :
  counts str o ->
  map snd o = map (fun c => Fin (INR (occurrences str c))) (map fst o).
Proof.
  intros [Hnd Hlook]. rewrite map_map. apply map_ext_in.
  intros [c v] Hin. cbn [fst snd].
  apply (lookup_of_entry c v o Hnd) in Hin. rewrite Hlook in Hin.
  destruct (Nat.eqb_spec (occurrences str c) 0); [discriminate|].
  now injection Hin as <-.
Qed.

(** The values [Object.values] enumerates are the occurrence counts of
    the distinct units, each once. *)
Lemma Object_values_counts (str : jsstring) :
  Permutation (Object_values (countFrequencies str))
              (map (fun c => Fin (INR (occurrences str c))) (distinctUnits str)).
Proof.
  pose proof (countFrequencies_counts str) as Hinv.
  rewrite (Object_values_permutation _ (proj1 Hinv)).
  rewrite (counts_entries _ _ Hinv).
  apply Permutation_map. now apply counts_keys.
Qed.

Lemma getEntropy_is_shannon (str : jsstring) : getEntropy str = Fin (shannon str).
Proof.
  destruct str as [|u rest] eqn:Hstr.
  - unfold shannon. simpl. change (getEntropy []) with (Fin 0). fin_eq.
  - rewrite <- Hstr.
    assert (Hlen : 0 < INR (length str)) by (apply lt_0_INR; subst; simpl; lia).
    rewrite getEntropy_unfold, entropy_fold_sum; [|exact Hlen|].
    + f_equal. unfold shannon.
      rewrite (Rsum_permutation _ _
                 (Permutation_map (termOf (INR (length str))) (Object_values_counts str))).
      rewrite map_map. unfold termOf, frequency. lra.
    + eapply Forall_impl; [|exact (proj1 (Object_values_countFrequencies str))].
      intros v [c [Hin ->]]. eexists. split; [reflexivity|].
      apply lt_0_INR. apply (count_occ_In Z.eq_dec) in Hin. unfold occurrences. lia.
Qed.

(** ** The bound of the entropy *)

Lemma ln_below_line (x : R) : 0 < x -> ln x <= x - 1.
Proof.
  intros Hx. pose proof (exp_ineq1_le (ln x)) as H.
  rewrite exp_ln in H by exact Hx. lra.
Qed.

Lemma ln_monotone (x y : R) : 0 < x -> x <= y -> ln x <= ln y.
Proof.
  intros Hx [Hlt|Heq]; [|rewrite Heq; lra]. left. now apply ln_increasing.
Qed.

(** Gibbs' inequality, term by term. *)
Lemma plog2_term_bound (p k : R) :
  0 < p -> 0 < k -> - (p * ln p) <= p * ln k + (/ k - p).
Proof.
  intros Hp Hk.
  assert (Hkp : 0 < / (k * p)) by (apply Rinv_0_lt_compat; nra).
  pose proof (ln_below_line (/ (k * p)) Hkp) as Hline.
  rewrite ln_Rinv, ln_mult in Hline by nra.
  assert (Heq : p * (/ (k * p) - 1) = / k - p) by (field; lra).
  nra.
Qed.

Lemma gibbs_sum (ps : list R) (k : R) :
  0 < k -> Forall (fun p => 0 < p) ps ->
  - Rsum (map (fun p => p * ln p) ps)
    <= Rsum ps * ln k + (INR (length ps) * / k - Rsum ps).
Proof.
  intros Hk Hall. induction Hall as [|p rest Hp _ IH].
  - simpl. lra.
  - cbn [map Rsum fold_right length]. fold (Rsum rest).
    fold (Rsum (map (fun p => p * ln p) rest)).
    rewrite S_INR. pose proof (plog2_term_bound p k Hp Hk). lra.
Qed.

Lemma INR_list_sum (l : list nat) : INR (list_sum l) = Rsum (map INR l).
Proof.
  induction l as [|n rest IH]; [reflexivity|].
  rewrite list_sum_cons, plus_INR, IH. reflexivity.
Qed.

Lemma Rsum_scaled (l : list R) (c : R) :
  Rsum (map (fun x => x * c) l) = Rsum l * c.
Proof.
  induction l as [|x rest IH]; simpl; [lra|].
  fold (Rsum (map (fun x => x * c) rest)). fold (Rsum rest). rewrite IH. lra.
Qed.

(** The frequencies of the distinct units add up to 1. *)
Lemma frequencies_sum (str : jsstring) :
  str <> [] -> Rsum (map (frequency str) (distinctUnits str)) = 1.
Proof.
  intros Hne.
  assert (Hlen : 0 < INR (length str))
    by (apply lt_0_INR; destruct str; [contradiction | simpl; lia]).
  unfold frequency, Rdiv.
  rewrite <- (map_map (fun c => INR (occurrences str c)) (fun x => x * / INR (length str))).
  rewrite Rsum_scaled.
  rewrite <- (map_map (occurrences str) INR), <- INR_list_sum, <- length_by_occurrences.
  field. lra.
Qed.

Lemma frequency_positive (str : jsstring) (c : Z) :
  In c (distinctUnits str) -> 0 < frequency str c.
Proof.
  intros Hc. unfold distinctUnits in Hc. apply nodup_In in Hc.
  assert (Hlen : 0 < INR (length str))
    by (apply lt_0_INR; destruct str; [contradiction | simpl; lia]).
  apply Rdiv_lt_0_compat; [|exact Hlen].
  apply lt_0_INR. apply (count_occ_In Z.eq_dec) in Hc. unfold occurrences. lia.
Qed.

Lemma shannon_upper_bound (str : jsstring) :
  str <> [] -> shannon str <= ln (INR (length (distinctUnits str))) / ln 2.
Proof.
  intros Hne.
  assert (Hk : 0 < INR (length (distinctUnits str))).
  { apply lt_0_INR. destruct str as [|u rest]; [contradiction|].
    assert (Hin : In u (distinctUnits (u :: rest)))
      by (unfold distinctUnits; apply nodup_In; now left).
    destruct (distinctUnits (u :: rest)); [contradiction | simpl; lia]. }
  pose proof ln_2_pos as H2.
  assert (Hinv2 : 0 < / ln 2) by now apply Rinv_0_lt_compat.
  pose proof (gibbs_sum (map (frequency str) (distinctUnits str)) _ Hk) as Hg.
  rewrite length_map, (frequencies_sum str Hne), map_map in Hg.
  assert (Hall : Forall (fun p => 0 < p) (map (frequency str) (distinctUnits str))).
  { apply Forall_forall. intros p Hp. apply in_map_iff in Hp as [c [<- Hc]].
    now apply frequency_positive. }
  specialize (Hg Hall).
  rewrite Rinv_r in Hg by lra.
  unfold shannon, plog2.
  assert (Hsplit :
    Rsum (map (fun c => frequency str c * (ln (frequency str c) / ln 2)) (distinctUnits str))
    = Rsum (map (fun c => frequency str c * ln (frequency str c)) (distinctUnits str)) * / ln 2).
  { rewrite <- Rsum_scaled, map_map. f_equal. apply map_ext. intros c.
    unfold Rdiv. ring. }
  rewrite Hsplit. unfold Rdiv. nra.
Qed.

(** ** Strings of one unit *)

Lemma hasTwoUnits_false (str : jsstring) :
  hasTwoUnits str = false -> exists c n, str = repeat c n.
Proof.
  destruct str as [|a rest]; [now exists 0%Z, 0%nat|].
  simpl. intros H. exists a, (S (length rest)). simpl. f_equal.
  apply Forall_eq_repeat. apply Forall_forall. intros b Hb.
  destruct (Z.eq_dec b a) as [->|Hne]; [reflexivity|].
  exfalso. assert (Hex : existsb (fun b => negb (b =? a)%Z) rest = true).
  { apply existsb_exists. exists b. split; [exact Hb|].
    apply negb_true_iff, Z.eqb_neq. exact Hne. }
  congruence.
Qed.

(** ** Strings with the same units *)

Lemma shannon_permutation (s t : jsstring) :
  Permutation s t -> shannon s = shannon t.
Proof.
  intros Hperm. unfold shannon. f_equal.
  assert (Hunits : Permutation (distinctUnits s) (distinctUnits t)).
  { apply NoDup_Permutation; try apply NoDup_nodup.
    intros c. unfold distinctUnits. rewrite !nodup_In.
    split; apply Permutation_in; [exact Hperm | now apply Permutation_sym]. }
  rewrite (Rsum_permutation _ _ (Permutation_map _ Hunits)).
  f_equal. apply map_ext. intros c. unfold frequency, occurrences.
  now rewrite (proj1 (Permutation_count_occ Z.eq_dec s t) Hperm c),
              (Permutation_length Hperm).
Qed.

(** ** Printed digests *)

Lemma isLowerHex_hexUnits (u : Z) : isLowerHex u = true -> In u hexUnits.
Proof.
  unfold isLowerHex, hexUnits. intros H.
  apply orb_prop in H as [H|H]; apply andb_prop in H as [Hlo Hhi];
    apply Z.leb_le in Hlo; apply Z.leb_le in Hhi; simpl;
    assert (Hcases : (u = 48 \/ u = 49 \/ u = 50 \/ u = 51 \/ u = 52 \/ u = 53 \/
                      u = 54 \/ u = 55 \/ u = 56 \/ u = 57 \/ u = 97 \/ u = 98 \/
                      u = 99 \/ u = 100 \/ u = 101 \/ u = 102)%Z) by lia;
    intuition auto.
Qed.

Lemma digest_units (s : jsstring) :
  isDigest s -> (1 <= length (distinctUnits s) <= 16)%nat.
Proof.
  intros [Hlen Hhex]. split.
  - destruct s as [|u rest]; [discriminate|].
    assert (Hin : In u (distinctUnits (u :: rest)))
      by (unfold distinctUnits; apply nodup_In; now left).
    destruct (distinctUnits (u :: rest)); [contradiction | simpl; lia].
  - change 16%nat with (length hexUnits).
    apply NoDup_incl_length; [apply NoDup_nodup|].
    intros u Hu. unfold distinctUnits in Hu. apply nodup_In in Hu.
    apply isLowerHex_hexUnits. exact (proj1 (forallb_forall _ _) Hhex u Hu).
Qed.

Lemma log2_16 : ln 16 / ln 2 = 4.
Proof.
  pose proof ln_2_pos.
  replace 16 with (2 ^ 4) by lra. rewrite ln_pow by lra. simpl INR. field. lra.
Qed.

End Shannon.

(** X9. On every string [getEntropy] is the Shannon entropy in bits of
    the relative frequencies of the distinct code units: the sum of
    [-p * log2(p)] over them, in whatever order [Object.values]
    enumerates the table. *)
Theorem getEntropy_shannon_formula :
  forall str : jsstring,
    getEntropy str
      = Fin (- Rsum (map (fun c =>
                            INR (occurrences str c) / INR (length str)
                            * (ln (INR (occurrences str c) / INR (length str)) / ln 2))
                         (distinctUnits str)))%R.
Proof.
  intros str. rewrite getEntropy_is_shannon.
  unfold shannon, plog2, frequency. reflexivity.
Qed.

(** X10. The entropy of a non-empty string lies between 0 and the
    binary logarithm of the number of its distinct code units; that of a
    printed digest, 64 hexadecimal digits, lies between 0 and 4. *)
Theorem getEntropy_bounds :
  (forall str : jsstring,
      str <> [] ->
      exists r, getEntropy str = Fin r /\
                (0 <= r <= ln (INR (length (distinctUnits str))) / ln 2)%R) /\
  (forall s : jsstring,
      isDigest s -> exists r, getEntropy s = Fin r /\ (0 <= r <= 4)%R).
Proof.
  assert (Hgeneral : forall str : jsstring,
      str <> [] ->
      exists r, getEntropy str = Fin r /\
                (0 <= r <= ln (INR (length (distinctUnits str))) / ln 2)%R).
  { intros str Hne. exists (shannon str).
    split; [apply getEntropy_is_shannon|]. split.
    - destruct (getEntropy_nonNegative str) as [r [Hr Hr0]].
      rewrite getEntropy_is_shannon in Hr. injection Hr as ->. exact Hr0.
    - now apply shannon_upper_bound. }
  split; [exact Hgeneral|].
  intros s Hs. destruct (digest_units s Hs) as [Hlo Hhi].
  destruct (Hgeneral s (isDigest_not_empty s Hs)) as [r [Hr [Hr0 Hr1]]].
  exists r. split; [exact Hr|]. split; [exact Hr0|].
  pose proof ln_2_pos as H2.
  assert (Hinv2 : (0 < / ln 2)%R) by now apply Rinv_0_lt_compat.
  assert (Hk : (ln (INR (length (distinctUnits s))) <= ln 16)%R).
  { apply ln_monotone; [apply lt_0_INR; lia|].
    replace 16%R with (INR 16) by (rewrite INR_IZR_INZ; reflexivity).
    now apply le_INR. }
  rewrite <- log2_16. unfold Rdiv in *. nra.
Qed.

Lemma getEntropy_bounds_witness :
  exists r,
    getEntropy (createHash Platform.SHA256 (js "X")) = Fin r /\ (0 <= r <= 4)%R.
Proof.
  apply (proj2 getEntropy_bounds).
  exact (hashData_isDigest sampleEnv (js "X") SHA256_octetDigest).
Defined.

(** X11. The entropy is 0 exactly on the strings that hold at most one
    distinct code unit; on every other string it is positive. *)
Theorem getEntropy_zero_iff :
  forall str : jsstring,
    (getEntropy str = Fin 0 <-> hasTwoUnits str = false) /\
    (hasTwoUnits str = true -> exists r, getEntropy str = Fin r /\ (0 < r)%R).
Proof.
  intros str. split; [|apply getEntropy_positive].
  split.
  - intros Hzero. destruct (hasTwoUnits str) eqn:Htwo; [|reflexivity].
    destruct (getEntropy_positive str Htwo) as [r [Hr Hpos]].
    rewrite Hzero in Hr. injection Hr as <-. lra.
  - intros Hone. destruct (hasTwoUnits_false str Hone) as (c & n & ->).
    apply getEntropy_constant.
Qed.

Lemma getEntropy_zero_iff_witness :
  exists r, getEntropy (js "ab") = Fin r /\ (0 < r)%R.
Proof.
  apply (proj2 (getEntropy_zero_iff (js "ab"))). reflexivity.
Defined.

(** X12. The entropy of a string does not depend on the order of its
    code units: two strings that are permutations of each other have
    the same entropy, although their frequency tables are enumerated in
    different orders. *)
Theorem getEntropy_permutation :
  forall s t : jsstring, Permutation s t -> getEntropy s = getEntropy t.
Proof.
  intros s t Hperm. rewrite !getEntropy_is_shannon.
  f_equal. now apply shannon_permutation.
Qed.

Lemma getEntropy_permutation_witness :
  getEntropy (js "a1b") = getEntropy (js "1ba").
Proof.
  apply getEntropy_permutation.
  change (js "a1b") with ([97; 49] ++ [98])%Z.
  change (js "1ba") with ([49] ++ [98] ++ [97])%Z.
  apply perm_trans with ([97] ++ [49; 98])%Z; [reflexivity|].
  apply Permutation_cons_append.
Defined.

(* ================================================================== *)
(** * The frequency table of [getEntropy] *)
(* ================================================================== *)

Section Probabilities.

Local Open Scope R_scope.

(** The share of one entry of the table, as the callback computes it. *)
Lemma shares_fold (len : R) (freqs : list number) (e : R) :
  len <> 0 ->
  Forall (fun v => exists x, v = Fin x) freqs ->
  fold_left nadd (map (fun v => ndiv v (Fin len)) freqs) (Fin e)
    = Fin (e + Rsum (map (fun v => match v with Fin x => x / len | _ => 0 end) freqs)).
Proof.
  intros Hlen Hall. revert e.
  induction Hall as [|v rest [x ->] _ IH]; intros e; cbn [map fold_left].
  - unfold Rsum. simpl. fin_eq.
  - rewrite ndiv_finite by exact Hlen. cbn [nadd]. rewrite IH.
    unfold Rsum. cbn [fold_right]. fin_eq.
Qed.

Lemma occurrences_positive (str : jsstring) (c : Z) :
  In c str -> (0 < occurrences str c <= length str)%nat.
Proof.
  intros Hc. split.
  - apply (count_occ_In Z.eq_dec) in Hc. unfold occurrences. lia.
  - unfold occurrences. apply count_occ_bound.
Qed.

End Probabilities.

(** X13. The loop of [getEntropy] leaves a table with exactly one entry
    for each distinct code unit of the string, holding the number of its
    occurrences; [Object.values] enumerates these numbers, each once;
    and on a non-empty string the shares [freq / len] the callback
    computes lie in (0, 1] and add up to 1. *)
Theorem countFrequencies_table :
  forall str : jsstring,
    NoDup (map fst (countFrequencies str)) /\
    (forall c, In c str ->
               lookup c (countFrequencies str) = Some (Fin (INR (occurrences str c)))) /\
    (forall c, ~ In c str -> lookup c (countFrequencies str) = None) /\
    Permutation (Object_values (countFrequencies str))
                (map (fun c => Fin (INR (occurrences str c))) (distinctUnits str)) /\
    (str <> [] ->
     Forall (fun v => exists p, ndiv v (Fin (INR (length str))) = Fin p /\ (0 < p <= 1)%R)
            (Object_values (countFrequencies str)) /\
     fold_left nadd
               (map (fun v => ndiv v (Fin (INR (length str))))
                    (Object_values (countFrequencies str)))
               (Fin 0) = Fin 1).
Proof.
  intros str. pose proof (countFrequencies_counts str) as [Hnd Hlook].
  split; [exact Hnd|]. split; [|split; [|split]].
  - intros c Hc. rewrite Hlook.
    destruct (occurrences_positive str c Hc) as [Hpos _].
    destruct (Nat.eqb_spec (occurrences str c) 0); [lia | reflexivity].
  - intros c Hc. rewrite Hlook.
    apply (count_occ_not_In Z.eq_dec) in Hc. unfold occurrences. now rewrite Hc.
  - apply Object_values_counts.
  - intros Hne.
    assert (Hlen : (0 < INR (length str))%R)
      by (apply lt_0_INR; destruct str; [contradiction | simpl; lia]).
    assert (Hlen' : INR (length str) <> 0%R) by lra.
    pose proof (proj1 (Object_values_countFrequencies str)) as Hall.
    split.
    + eapply Forall_impl; [|exact Hall].
      intros v [c [Hc ->]]. rewrite ndiv_finite by exact Hlen'.
      eexists. split; [reflexivity|].
      destruct (occurrences_positive str c Hc) as [Hpos Hle].
      apply lt_INR in Hpos. apply le_INR in Hle. simpl INR in Hpos.
      split.
      * now apply Rdiv_lt_0_compat.
      * apply Rmult_le_reg_r with (INR (length str)); [exact Hlen|].
        unfold Rdiv. rewrite Rmult_assoc, Rinv_l by exact Hlen'. lra.
    + rewrite shares_fold; [|exact Hlen'|].
      * f_equal.
        rewrite (Rsum_permutation _ _
                   (Permutation_map (fun v => match v with
                                              | Fin x => (x / INR (length str))%R
                                              | _ => 0%R
                                              end)
                                    (Object_values_counts str))).
        rewrite map_map.
        pose proof (frequencies_sum str Hne) as Hsum. unfold frequency in Hsum.
        rewrite Hsum. lra.
      * eapply Forall_impl; [|exact Hall]. intros v [c [_ ->]]. now eexists.
Qed.

Lemma countFrequencies_table_witness :
  lookup 97%Z (countFrequencies (js "abca")) = Some (Fin (INR 2)) /\
  fold_left nadd
            (map (fun v => ndiv v (Fin (INR (length (js "abca")))))
                 (Object_values (countFrequencies (js "abca"))))
            (Fin 0) = Fin 1.
Proof.
  destruct (countFrequencies_table (js "abca")) as (_ & Hin & _ & _ & Hsum).
  split.
  - apply (Hin 97%Z). simpl. now left.
  - apply Hsum. discriminate.
Defined.

(* ================================================================== *)
(** * [adjustWeights] followed by [generateVisitorId] *)
(* ================================================================== *)

Section Adjusted.

Local Open Scope R_scope.

Lemma entropyOf_signalDigest (env : Env) (k : key) :
  entropyOf env k = getEntropy (signalDigest env k).
Proof.
  destruct (fingerprints_are_signalDigests env) as (H1 & H2 & H3 & H4).
  destruct k; unfold entropyOf; now rewrite ?H1, ?H2, ?H3, ?H4.
Qed.

Lemma adjusted_weight (env : Env) (this : FingerprintSDK) (k : key) :
  get (weights (snd (adjustWeights env this))) k
    = ndiv (entropyOf env k) (totalEntropy env).
Proof. now destruct k. Qed.

Lemma adjusted_unit_interval (env : Env) (this : FingerprintSDK) (s : R) :
  totalEntropy env = Fin s -> 0 < s ->
  forall k, exists r,
    get (weights (snd (adjustWeights env this))) k = Fin r /\ 0 <= r <= 1.
Proof.
  intros Htot Hs k. rewrite adjusted_weight, Htot.
  destruct (entropies_finite env)
    as (c & g & u & f & Hc & Hg & Hu & Hf & Hc0 & Hg0 & Hu0 & Hf0 & Hsum).
  rewrite Htot in Hsum. injection Hsum as Hsum.
  assert (Hinv : 0 < / s) by now apply Rinv_0_lt_compat.
  assert (Hone : s * / s = 1) by (apply Rinv_r; lra).
  destruct k; rewrite ?Hc, ?Hg, ?Hu, ?Hf, ndiv_finite by lra;
    (eexists; split; [reflexivity | unfold Rdiv; nra]).
Qed.

End Adjusted.

(** X14. In a browser whose digest service is SHA-256 the total
    entropy is positive, and [adjustWeights] leaves, whatever table it
    found, the four quotients entropy / total: weights between 0 and 1
    whose sum is 1, the weight of a signal whose capability is absent
    being exactly 0.  A following [generateVisitorId] meets no weight
    that [repeat] refuses: it returns a digest, of a string that holds
    at most 100 signal digests. *)
Theorem generateVisitorId_after_adjustWeights :
  forall (env : Env) (this : FingerprintSDK),
    subtleDigest env = Platform.SHA256 ->
    let this' := snd (adjustWeights env this) in
    (exists s, totalEntropy env = Fin s /\ (0 < s)%R) /\
    (forall k, get (weights this') k = ndiv (entropyOf env k) (totalEntropy env)) /\
    (forall k, exists r, get (weights this') k = Fin r /\ (0 <= r <= 1)%R) /\
    total (weights this') = Fin 1 /\
    (forall k, rawValue env k = None -> get (weights this') k = Fin 0) /\
    (exists id, generateVisitorId env this' = (Normal id, this') /\ isDigest id) /\
    (copies (weights this') <= 100)%nat.
Proof.
  intros env this Hsha this'.
  destruct (sha256_totalEntropy_positive env Hsha) as [s [Htot Hs]].
  assert (Hs' : s <> 0%R) by lra.
  destruct (adjustWeights_normalises env this s Htot Hs') as [Hwf Hone].
  assert (Hoct : octetDigest (subtleDigest env))
    by (rewrite Hsha; exact SHA256_octetDigest).
  split; [now exists s|].
  split; [exact (adjusted_weight env this)|].
  split; [exact (adjusted_unit_interval env this s Htot Hs)|].
  split; [exact Hone|].
  split; [|split].
  - intros k Hk. unfold this'. rewrite adjusted_weight, entropyOf_signalDigest.
    unfold signalDigest. rewrite Hk, Htot.
    change (getEntropy []) with (Fin 0). rewrite ndiv_finite by exact Hs'.
    f_equal. unfold Rdiv. lra.
  - exists (hashData env (combined env (weights this'))).
    split; [|now apply hashData_isDigest].
    apply generateVisitorId_accepted. intros k [H|[H|[r [H Hr]]]];
      destruct (Hwf k) as [r' [Hr' Hr0]]; fold this' in Hr'; rewrite Hr' in H;
      try discriminate.
    injection H as Heq. lra.
  - exact (proj2 (copies_of_unit_total _ Hwf Hone)).
Qed.

Lemma generateVisitorId_after_adjustWeights_witness :
  get (weights (snd (adjustWeights (bareEnv Platform.SHA256) newFingerprintSDK))) Canvas
    = Fin 0 /\
  total (weights (snd (adjustWeights (bareEnv Platform.SHA256) newFingerprintSDK))) = Fin 1 /\
  (copies (weights (snd (adjustWeights (bareEnv Platform.SHA256) newFingerprintSDK)))
     <= 100)%nat.
Proof.
  destruct (generateVisitorId_after_adjustWeights
              (bareEnv Platform.SHA256) newFingerprintSDK eq_refl)
    as (_ & _ & _ & Hone & Habsent & _ & Hcopies).
  split; [apply Habsent; reflexivity | split; [exact Hone | exact Hcopies]].
Defined.

(* ================================================================== *)
(** * Reading a printed digest back *)
(* ================================================================== *)

Section RoundTrip.

Lemma hexPair_reads_all :
  forallb hexPairReads (map Z.of_nat (seq 0 256)) = true.
Proof. vm_compute. reflexivity. Qed.

Lemma hexPair_reads (byte : Z) :
  (0 <= byte < 256)%Z ->
  exists hi lo h l,
    hexPair byte = [hi; lo] /\ hexValue hi = Some h /\ hexValue lo = Some l /\
    (16 * h + l)%Z = byte.
Proof.
  intros Hb.
  assert (Hin : In byte (map Z.of_nat (seq 0 256))).
  { rewrite <- (Z2Nat.id byte) by lia. apply in_map, in_seq. lia. }
  pose proof (proj1 (forallb_forall _ _) hexPair_reads_all _ Hin) as Hok.
  unfold hexPairReads in Hok.
  destruct (hexPair byte) as [|hi [|lo [|]]]; try discriminate.
  destruct (hexValue hi) as [h|] eqn:Hh; [|discriminate].
  destruct (hexValue lo) as [l|] eqn:Hl; [|discriminate].
  exists hi, lo, h, l. apply Z.eqb_eq in Hok. now repeat split.
Qed.

Lemma parseHex_hexPairs (octets : list Z) :
  Forall (fun b => (0 <= b < 256)%Z) octets ->
  parseHex (concat (map hexPair octets)) = Some octets.
Proof.
  induction 1 as [|b rest Hb _ IH]; [reflexivity|].
  destruct (hexPair_reads b Hb) as (hi & lo & h & l & Hpair & Hh & Hl & Hval).
  cbn [map concat]. rewrite Hpair. cbn [app parseHex].
  now rewrite Hh, Hl, IH, Hval.
Qed.

End RoundTrip.

(** X15. The hexadecimal printing of [createHash] loses nothing: read
    back pair by pair, the string gives the octets the digest service
    returned.  Two calls that print the same string therefore received
    the same octets. *)
Theorem createHash_hex_round_trip :
  forall (digest : list Z -> list Z) (message : jsstring),
    Forall (fun b => (0 <= b < 256)%Z) (digest (Platform.TextEncoder_encode message)) ->
    parseHex (createHash digest message)
      = Some (digest (Platform.TextEncoder_encode message)) /\
    (forall (digest' : list Z -> list Z) (message' : jsstring),
        Forall (fun b => (0 <= b < 256)%Z) (digest' (Platform.TextEncoder_encode message')) ->
        createHash digest message = createHash digest' message' ->
        digest (Platform.TextEncoder_encode message)
          = digest' (Platform.TextEncoder_encode message')).
Proof.
  intros digest message Hoct.
  assert (Hread : forall d m,
             Forall (fun b => (0 <= b < 256)%Z) (d (Platform.TextEncoder_encode m)) ->
             parseHex (createHash d m) = Some (d (Platform.TextEncoder_encode m))).
  { intros d m H. unfold createHash. rewrite join_empty_separator.
    now apply parseHex_hexPairs. }
  split; [now apply Hread|].
  intros digest' message' Hoct' Heq.
  pose proof (Hread digest message Hoct) as H1.
  pose proof (Hread digest' message' Hoct') as H2.
  rewrite Heq, H2 in H1. now injection H1.
Qed.

Lemma createHash_hex_round_trip_witness :
  parseHex (createHash constantDigest (js "X")) = Some (repeat 170%Z 32).
Proof.
  refine (proj1 (createHash_hex_round_trip constantDigest (js "X") _)).
  unfold constantDigest. apply Forall_forall. intros b Hb.
  apply repeat_spec in Hb. subst b. lia.
Defined.

(* ================================================================== *)
(** * The font signal *)
(* ================================================================== *)

Section Fonts.

Lemma commaFree_spec (part : jsstring) :
  commaFree part = true -> part <> [] /\ ~ In 44%Z part.
Proof.
  unfold commaFree. intros H. apply andb_prop in H as [Hlen Hall]. split.
  - intros ->. discriminate.
  - intros Hin. apply (proj1 (forallb_forall _ _) Hall) in Hin.
    now rewrite Z.eqb_refl in Hin.
Qed.

(** Two strings that agree up to their first comma. *)
Lemma split_at_comma (p q x y : jsstring) :
  ~ In 44%Z p -> ~ In 44%Z q ->
  p ++ 44%Z :: x = q ++ 44%Z :: y -> p = q /\ x = y.
Proof.
  revert q. induction p as [|a p IH]; intros [|b q] Hp Hq Heq; simpl in *.
  - injection Heq as ->. now split.
  - injection Heq as <- _. exfalso. apply Hq. now left.
  - injection Heq as -> _. exfalso. apply Hp. now left.
  - injection Heq as -> Heq.
    assert (Hp' : ~ In 44%Z p) by tauto.
    assert (Hq' : ~ In 44%Z q) by tauto.
    destruct (IH q Hp' Hq' Heq) as [-> ->]. now split.
Qed.

Lemma no_comma_inside (p q y : jsstring) :
  ~ In 44%Z p -> p <> q ++ 44%Z :: y.
Proof.
  intros Hp ->. apply Hp, in_or_app. right. now left.
Qed.

Lemma join_cons (p q : jsstring) (rest : list jsstring) :
  join (js ",") (p :: q :: rest) = p ++ 44%Z :: join (js ",") (q :: rest).
Proof. reflexivity. Qed.

Lemma join_comma_injective (l1 l2 : list jsstring) :
  forallb commaFree l1 = true -> forallb commaFree l2 = true ->
  join (js ",") l1 = join (js ",") l2 -> l1 = l2.
Proof.
  revert l2. induction l1 as [|p r1 IH]; intros l2 H1 H2 Heq.
  - destruct l2 as [|q r2]; [reflexivity|]. exfalso.
    cbn [forallb] in H2. apply andb_prop in H2 as [Hq _].
    apply commaFree_spec in Hq as [Hq _].
    destruct r2 as [|q' r2]; [now simpl in Heq; subst q|].
    rewrite join_cons in Heq. simpl in Heq. now destruct q.
  - cbn [forallb] in H1. apply andb_prop in H1 as [Hp Hr1].
    apply commaFree_spec in Hp as [Hp Hpc].
    destruct l2 as [|q r2].
    + exfalso. destruct r1 as [|p' r1]; [now simpl in Heq; subst p|].
      rewrite join_cons in Heq. simpl in Heq. now destruct p.
    + cbn [forallb] in H2. apply andb_prop in H2 as [Hq Hr2].
      apply commaFree_spec in Hq as [Hq Hqc].
      destruct r1 as [|p' r1], r2 as [|q' r2].
      * simpl in Heq. now subst q.
      * rewrite join_cons in Heq. simpl join in Heq at 1.
        exfalso. exact (no_comma_inside p q _ Hpc Heq).
      * rewrite join_cons in Heq. simpl join in Heq at 2.
        exfalso. exact (no_comma_inside q p _ Hqc (eq_sym Heq)).
      * rewrite !join_cons in Heq.
        destruct (split_at_comma _ _ _ _ Hpc Hqc Heq) as [-> Hrest].
        f_equal. now apply IH.
Qed.

Lemma fontList_commaFree : forallb commaFree fontList = true.
Proof. reflexivity. Qed.

Lemma forallb_filter (A : Type) (p f : A -> bool) (l : list A) :
  forallb p l = true -> forallb p (filter f l) = true.
Proof.
  intros H. apply forallb_forall. intros x Hx. apply filter_In in Hx as [Hx _].
  exact (proj1 (forallb_forall _ _) H x Hx).
Qed.

Lemma getFontList_commaFree (env : Env) : forallb commaFree (getFontList env) = true.
Proof. apply forallb_filter, fontList_commaFree. Qed.

Lemma matched_false (env : Env) (font baseFont : jsstring) :
  matched env font baseFont = false <->
  spanSize env (probeFamily font baseFont) = spanSize env baseFont.
Proof.
  unfold matched, probeFamily.
  destruct (spanSize env (js "'" ++ font ++ js "'," ++ baseFont)) as [w h].
  destruct (spanSize env baseFont) as [w0 h0]. cbn [fst snd].
  rewrite orb_false_iff, !negb_false_iff, !Z.eqb_eq.
  split; [intros [-> ->]; reflexivity | intros H; now injection H].
Qed.

Lemma filter_nil_iff (A : Type) (f : A -> bool) (l : list A) :
  filter f l = [] <-> forall x, In x l -> f x = false.
Proof.
  induction l as [|a l IH]; simpl; [tauto|].
  destruct (f a) eqn:Ha.
  - split; [discriminate|]. intros H. specialize (H a (or_introl eq_refl)). congruence.
  - rewrite IH. split.
    + intros H x [<-|Hx]; [exact Ha | now apply H].
    + intros H x Hx. apply H. now right.
Qed.

Lemma existsb_false_iff (A : Type) (f : A -> bool) (l : list A) :
  existsb f l = false <-> forall x, In x l -> f x = false.
Proof.
  induction l as [|a l IH]; simpl; [tauto|].
  rewrite orb_false_iff, IH. split.
  - intros [Ha H] x [<-|Hx]; [exact Ha | now apply H].
  - intros H. split; [apply H; now left | intros x Hx; apply H; now right].
Qed.

End Fonts.

(** X16. The string [getFontList().join(',')] identifies the detected
    fonts: no name of the font list is empty or holds a comma, so two
    browsers yield the same string exactly when they detect the same
    list.  The string is empty exactly when no font is detected, that
    is, when none of the 39 probes differs in width or height from the
    default of its base font. *)
Theorem font_signal_identifies_detected_fonts :
  forall env1 env2 : Env,
    (join (js ",") (getFontList env1) = join (js ",") (getFontList env2) <->
       getFontList env1 = getFontList env2) /\
    (join (js ",") (getFontList env1) = [] <-> getFontList env1 = []) /\
    (getFontList env1 = [] <->
       forall font baseFont,
         In font fontList -> In baseFont baseFonts ->
         spanSize env1 (probeFamily font baseFont) = spanSize env1 baseFont).
Proof.
  intros env1 env2. split; [|split].
  - split; [|now intros ->].
    apply join_comma_injective; apply getFontList_commaFree.
  - split; [|now intros ->].
    intros H. apply (join_comma_injective (getFontList env1) []);
      [apply getFontList_commaFree | reflexivity | exact H].
  - unfold getFontList. rewrite filter_nil_iff. split.
    + intros H font baseFont Hf Hb. apply matched_false.
      exact (proj1 (existsb_false_iff _ _ _) (H font Hf) baseFont Hb).
    + intros H font Hf. apply existsb_false_iff. intros baseFont Hb.
      apply matched_false. now apply H.
Qed.

(* ================================================================== *)
(** * The class of seventeen signals *)
(* ================================================================== *)

(** In binary64 too the products [weight * 100] of the table of
    seventeen weights are 40, 25, 25, 20, 5, 10, 2, 2, 0.1, 2, 2, 1, 2,
    2, 1, 2 and 2. *)
Example extended_products_binary64 :
  map (fun w => PrimFloat.mul w 100%float)
      [0.4; 0.25; 0.25; 0.2; 0.05; 0.1; 0.02; 0.02; 0.001; 0.02; 0.02; 0.01;
       0.02; 0.02; 0.01; 0.02; 0.02]%float
  = [40; 25; 25; 20; 5; 10; 2; 2; 0.1; 2; 2; 1; 2; 2; 1; 2; 2]%float.
Proof. vm_compute. reflexivity. Qed.

Section ExtendedClass.

Local Open Scope R_scope.

Ltac count_bounds := rewrite INR_IZR_INZ; simpl IZR; lra.

Lemma initial_counts :
  repeatCount (Fin (4 / 10)) = 40%nat /\ repeatCount (Fin (25 / 100)) = 25%nat /\
  repeatCount (Fin (2 / 10)) = 20%nat /\ repeatCount (Fin (5 / 100)) = 5%nat /\
  repeatCount (Fin (1 / 10)) = 10%nat /\ repeatCount (Fin (2 / 100)) = 2%nat /\
  repeatCount (Fin (1 / 1000)) = 0%nat /\ repeatCount (Fin (1 / 100)) = 1%nat.
Proof. repeat split; apply repeatCount_between; count_bounds. Qed.

Lemma extended_counts :
  map (fun k => repeatCount (Extended.get Extended.initialWeights k)) Extended.order
    = [40; 25; 25; 20; 5; 10; 2; 2; 0; 2; 2; 1; 2; 2; 1; 2; 2]%nat.
Proof.
  destruct initial_counts as (H40 & H25 & H20 & H5 & H10 & H2 & H0 & H1).
  unfold Extended.order, Extended.initialWeights. cbn [map Extended.get
    Extended.canvas Extended.webGL Extended.audio Extended.fonts Extended.userAgent'
    Extended.network Extended.screen Extended.timezone Extended.language
    Extended.plugins Extended.hardwareConcurrency Extended.doNotTrack
    Extended.colorGamut Extended.touchSupport Extended.cpuClass Extended.platform
    Extended.storage].
  now rewrite H40, H25, H20, H5, H10, H2, H0, H1.
Qed.

Lemma weightedComponent_repeatCount (fingerprint : jsstring) (r : R) :
  0 <= r ->
  weightedComponent fingerprint (Fin r)
    = Normal (concat (repeat fingerprint (repeatCount (Fin r)))).
Proof.
  intros Hr. apply weightedComponent_nonNegative. now exists r.
Qed.

Lemma extended_generateVisitorId_initial (env : Extended.Env) (this : Extended.FingerprintSDK) :
  Extended.weights this = Extended.initialWeights ->
  Extended.generateVisitorId env this
    = (Normal (Extended.hashData env (Extended.combined env)), this).
Proof.
  intros Hw. unfold Extended.generateVisitorId, Extended.bind, Extended.lift,
    Extended.readWeights, Extended.ret.
  rewrite Hw. unfold Extended.initialWeights.
  cbn [Extended.canvas Extended.webGL Extended.audio Extended.fonts Extended.userAgent'
    Extended.network Extended.screen Extended.timezone Extended.language
    Extended.plugins Extended.hardwareConcurrency Extended.doNotTrack
    Extended.colorGamut Extended.touchSupport Extended.cpuClass Extended.platform
    Extended.storage].
  rewrite !weightedComponent_repeatCount by lra.
  rewrite join_empty_separator. reflexivity.
Qed.

Lemma extended_fingerprint_shape (env : Extended.Env) (k : Extended.signal) :
  octetDigest (subtleDigest (Extended.base env)) ->
  (Extended.fingerprintOf env k = [] /\ Extended.mayBeAbsent k = true) \/
  isDigest (Extended.fingerprintOf env k).
Proof.
  intros Hoct.
  assert (Hhash : forall data, isDigest (Extended.hashData env data))
    by (intros data; now apply hashData_isDigest).
  destruct k; cbn [Extended.fingerprintOf Extended.mayBeAbsent];
    unfold Extended.getCanvasFingerprint, getCanvasFingerprint,
      Extended.getWebGLFingerprint, getWebGLFingerprint,
      Extended.getNetworkFingerprint, Extended.getScreenFingerprint,
      Extended.getPluginFingerprint, Extended.getStorageFingerprint;
    repeat match goal with
           | |- context [match ?x with _ => _ end] => destruct x
           end;
    first [ right; apply Hhash
          | right; now apply hashData_isDigest
          | left; now split ].
Qed.

Lemma extended_length_combined (env : Extended.Env) :
  octetDigest (subtleDigest (Extended.base env)) ->
  (length (Extended.combined env) <= 64 * 143)%nat.
Proof.
  intros Hoct.
  assert (Hlen : forall k, (length (Extended.fingerprintOf env k) <= 64)%nat).
  { intros k. destruct (extended_fingerprint_shape env k Hoct) as [[-> _]|[-> _]];
      simpl; lia. }
  assert (Hpart : forall k n,
             (length (concat (repeat (Extended.fingerprintOf env k) n)) <= 64 * n)%nat).
  { intros k n. rewrite length_concat_repeat. specialize (Hlen k). nia. }
  destruct initial_counts as (H40 & H25 & H20 & H5 & H10 & H2 & H0 & H1).
  unfold Extended.combined, Extended.order, Extended.initialWeights.
  cbn [map concat Extended.get
    Extended.canvas Extended.webGL Extended.audio Extended.fonts Extended.userAgent'
    Extended.network Extended.screen Extended.timezone Extended.language
    Extended.plugins Extended.hardwareConcurrency Extended.doNotTrack
    Extended.colorGamut Extended.touchSupport Extended.cpuClass Extended.platform
    Extended.storage].
  rewrite H40, H25, H20, H5, H10, H2, H0, H1.
  rewrite !length_app.
  pose proof (Hpart Extended.Canvas 40%nat). pose proof (Hpart Extended.WebGL 25%nat).
  pose proof (Hpart Extended.Audio 25%nat). pose proof (Hpart Extended.Fonts 20%nat).
  pose proof (Hpart Extended.UserAgent 5%nat). pose proof (Hpart Extended.Network 10%nat).
  pose proof (Hpart Extended.Screen 2%nat). pose proof (Hpart Extended.Timezone 2%nat).
  pose proof (Hpart Extended.Language 0%nat). pose proof (Hpart Extended.Plugins 2%nat).
  pose proof (Hpart Extended.HardwareConcurrency 2%nat).
  pose proof (Hpart Extended.DoNotTrack 1%nat). pose proof (Hpart Extended.ColorGamut 2%nat).
  pose proof (Hpart Extended.TouchSupport 2%nat). pose proof (Hpart Extended.CpuClass 1%nat).
  pose proof (Hpart Extended.PlatformName 2%nat). pose proof (Hpart Extended.Storage 2%nat).
  cbn [length]. lia.
Qed.

Lemma withLanguage_fingerprintOf (env : Extended.Env) (language : jsstring)
    (languages : option (list jsstring)) (k : Extended.signal) :
  k <> Extended.Language ->
  Extended.fingerprintOf (Extended.withLanguage env language languages) k
    = Extended.fingerprintOf env k.
Proof. intros Hk. destruct k; try reflexivity. contradiction. Qed.

End ExtendedClass.

(** X18. On the table of the constructor, which no method of the class
    of seventeen signals changes, [generateVisitorId] never throws: it
    returns the digest of the seventeen fingerprints repeated 40, 25,
    25, 20, 5, 10, 2, 2, 0, 2, 2, 1, 2, 2, 1, 2 and 2 times, in the
    order of the source, and leaves the instance as it is.  Over a
    digest service of 32 octets the result is a digest of 64
    hexadecimal digits, of a string of at most 143 digests. *)
Theorem extended_generateVisitorId_counts :
  forall (env : Extended.Env) (this : Extended.FingerprintSDK),
    Extended.weights this = Extended.initialWeights ->
    Extended.generateVisitorId env this
      = (Normal (Extended.hashData env (Extended.combined env)), this) /\
    map (fun k => repeatCount (Extended.get Extended.initialWeights k)) Extended.order
      = [40; 25; 25; 20; 5; 10; 2; 2; 0; 2; 2; 1; 2; 2; 1; 2; 2]%nat /\
    (octetDigest (subtleDigest (Extended.base env)) ->
       isDigest (Extended.hashData env (Extended.combined env)) /\
       (length (Extended.combined env) <= 64 * 143)%nat).
Proof.
  intros env this Hw. split; [now apply extended_generateVisitorId_initial|].
  split; [exact extended_counts|].
  intros Hoct. split; [now apply hashData_isDigest | now apply extended_length_combined].
Qed.

Lemma extended_generateVisitorId_counts_witness :
  Extended.generateVisitorId Extended.sampleEnv Extended.newFingerprintSDK
    = (Normal (Extended.hashData Extended.sampleEnv (Extended.combined Extended.sampleEnv)),
       Extended.newFingerprintSDK) /\
  isDigest (Extended.hashData Extended.sampleEnv (Extended.combined Extended.sampleEnv)).
Proof.
  destruct (extended_generateVisitorId_counts Extended.sampleEnv Extended.newFingerprintSDK
              eq_refl) as (Hrun & _ & Hdigest).
  split; [exact Hrun | exact (proj1 (Hdigest SHA256_octetDigest))].
Defined.

(** X19. In the class of seventeen signals the language signal never
    reaches the identifier: its weight 0.001 gives the repeat count
    [Math.floor(0.1) = 0].  Two browsers with the same digest service
    that agree on every fingerprint but that of the language get the
    same identifier. *)
Theorem extended_language_never_counts :
  forall (env1 env2 : Extended.Env) (this1 this2 : Extended.FingerprintSDK),
    Extended.weights this1 = Extended.initialWeights ->
    Extended.weights this2 = Extended.initialWeights ->
    subtleDigest (Extended.base env1) = subtleDigest (Extended.base env2) ->
    (forall k, k <> Extended.Language ->
               Extended.fingerprintOf env1 k = Extended.fingerprintOf env2 k) ->
    fst (Extended.generateVisitorId env1 this1)
      = fst (Extended.generateVisitorId env2 this2).
Proof.
  intros env1 env2 this1 this2 Hw1 Hw2 Hdigest Hsame.
  rewrite (extended_generateVisitorId_initial env1 this1 Hw1),
          (extended_generateVisitorId_initial env2 this2 Hw2).
  cbn [fst]. unfold Extended.hashData, hashData. rewrite Hdigest. do 2 f_equal.
  unfold Extended.combined. f_equal. apply map_ext_in. intros k _.
  destruct (Extended.signal_eq_dec k Extended.Language) as [->|Hk].
  - cbn [Extended.get Extended.initialWeights Extended.language].
    destruct initial_counts as (_ & _ & _ & _ & _ & _ & H0 & _). now rewrite H0.
  - now rewrite (Hsame k Hk).
Qed.

Lemma extended_language_never_counts_witness :
  fst (Extended.generateVisitorId
         (Extended.withLanguage Extended.sampleEnv (js "fr-FR") None)
         Extended.newFingerprintSDK)
    = fst (Extended.generateVisitorId Extended.sampleEnv Extended.newFingerprintSDK).
Proof.
  apply extended_language_never_counts; try reflexivity.
  intros k Hk. now apply withLanguage_fingerprintOf.
Defined.

(** X20. Of the seventeen fingerprints only those of the canvas, of
    WebGL, of the network, of the screen and of the plugins can be the
    empty string; each of the other twelve is a digest whatever the
    browser holds, a missing value being digested as its default. *)
Theorem extended_providers_return_empty_or_digest :
  forall (env : Extended.Env) (k : Extended.signal),
    octetDigest (subtleDigest (Extended.base env)) ->
    (Extended.fingerprintOf env k = [] \/ isDigest (Extended.fingerprintOf env k)) /\
    (Extended.mayBeAbsent k = false -> isDigest (Extended.fingerprintOf env k)) /\
    (Extended.fingerprintOf env k = [] -> Extended.mayBeAbsent k = true).
Proof.
  intros env k Hoct.
  destruct (extended_fingerprint_shape env k Hoct) as [[Hnil Habs]|Hdig].
  - split; [now left|]. split; [intros H; congruence | intros _; exact Habs].
  - split; [now right|]. split; [intros _; exact Hdig|].
    intros Hnil. exfalso. exact (isDigest_not_empty _ Hdig Hnil).
Qed.

Lemma extended_providers_return_empty_or_digest_witness :
  isDigest (Extended.fingerprintOf Extended.sampleEnv Extended.CpuClass).
Proof.
  apply (proj1 (proj2 (extended_providers_return_empty_or_digest
                         Extended.sampleEnv Extended.CpuClass SHA256_octetDigest))).
  reflexivity.
Defined.

(* ================================================================== *)
(** * [setWeights] followed by [generateVisitorId]: the tables outside
      the data model *)
(* ================================================================== *)

Section Deferred.

Local Open Scope R_scope.

Lemma get_setWeights (newWeights : PartialWeights) (this : FingerprintSDK) (k : key) :
  get (weights (snd (setWeights newWeights this))) k
    = ndiv (get (spread (weights this) newWeights) k)
           (total (spread (weights this) newWeights)).
Proof. rewrite setWeights_run. cbn [snd weights]. apply get_divideAll. Qed.

(** Over a sum that is not a finite number every quotient is [NaN] or
    zero. *)
Lemma divided_by_non_finite (w : Weights) (k : key) :
  (forall r, total w <> Fin r) ->
  ndiv (get w k) (total w) = NaN \/ ndiv (get w k) (total w) = Fin 0.
Proof.
  intros Hnot. destruct w as [a b c d]. unfold total in *. cbn [values fold_left] in *.
  destruct a as [| | |a], b as [| | |b], c as [| | |c], d as [| | |d];
    cbn [nadd] in *;
    try (exfalso; eapply Hnot; reflexivity);
    destruct k; cbn [get canvas webGL audio fonts ndiv];
    first [ now left | now right ].
Qed.

Lemma NaN_or_zero_negligible (a : number) : a = NaN \/ a = Fin 0 -> negligible a.
Proof.
  intros [->| ->]; [now left|]. right. exists 0. split; [reflexivity | lra].
Qed.

End Deferred.

(** X22. When the merged total is not a finite number, because a
    weight is [NaN] or infinite, [setWeights] leaves only [NaN] and
    zero in the table, and the next [generateVisitorId] returns the
    digest of the empty string whatever the signals are. *)
Theorem non_finite_total_erases_signals :
  forall (env : Env) (this : FingerprintSDK) (newWeights : PartialWeights),
    (forall r, total (spread (weights this) newWeights) <> Fin r) ->
    (forall k, get (weights (snd (setWeights newWeights this))) k = NaN \/
               get (weights (snd (setWeights newWeights this))) k = Fin 0) /\
    generateVisitorId env (snd (setWeights newWeights this))
      = (Normal (hashData env []), snd (setWeights newWeights this)).
Proof.
  intros env this newWeights Hnot.
  assert (Hvalues : forall k,
             get (weights (snd (setWeights newWeights this))) k = NaN \/
             get (weights (snd (setWeights newWeights this))) k = Fin 0).
  { intros k. rewrite get_setWeights. now apply divided_by_non_finite. }
  split; [exact Hvalues|].
  apply generateVisitorId_negligible. intros k. apply NaN_or_zero_negligible, Hvalues.
Qed.

Lemma non_finite_total_erases_signals_witness :
  fst (generateVisitorId sampleEnv (snd (setWeights (only Canvas PosInf) newFingerprintSDK)))
    = Normal (js "e3b0c44298fc1c149afbf4c8996fb92427ae41e4649b934ca495991b7852b855").
Proof.
  rewrite (proj2 (non_finite_total_erases_signals sampleEnv newFingerprintSDK
                    (only Canvas PosInf) (fun r H => ltac:(discriminate H)))).
  cbn [fst]. eval_digest. reflexivity.
Defined.

(* ================================================================== *)
(** * The audio signal *)
(* ================================================================== *)

Section Audio.

Lemma decimal_reads_all :
  forallb decimalReads (map Z.of_nat (seq 0 256)) = true.
Proof. vm_compute. reflexivity. Qed.

Lemma decimal_reads (byte : Z) :
  (0 <= byte < 256)%Z ->
  commaFree (toStringDec byte) = true /\ decValue (toStringDec byte) = byte.
Proof.
  intros Hb.
  assert (Hin : In byte (map Z.of_nat (seq 0 256))).
  { rewrite <- (Z2Nat.id byte) by lia. apply in_map, in_seq. lia. }
  pose proof (proj1 (forallb_forall _ _) decimal_reads_all _ Hin) as Hok.
  unfold decimalReads in Hok. apply andb_prop in Hok as [Hfree Hval].
  split; [exact Hfree | now apply Z.eqb_eq].
Qed.

Lemma decimals_commaFree (data : list Z) :
  Forall (fun b => (0 <= b < 256)%Z) data ->
  forallb commaFree (map toStringDec data) = true.
Proof.
  induction 1 as [|b rest Hb _ IH]; [reflexivity|].
  cbn [map forallb]. now rewrite (proj1 (decimal_reads b Hb)), IH.
Qed.

Lemma decimals_read_back (data : list Z) :
  Forall (fun b => (0 <= b < 256)%Z) data ->
  map decValue (map toStringDec data) = data.
Proof.
  induction 1 as [|b rest Hb _ IH]; [reflexivity|].
  cbn [map]. now rewrite (proj2 (decimal_reads b Hb)), IH.
Qed.

End Audio.

(** X24. The string [frequencyData.join(',')] that the audio provider
    digests identifies the data: every element of a [Uint8Array] prints
    as a decimal numeral without a comma, so two arrays that print the
    same string are the same array. *)
Theorem audio_signal_identifies_frequency_data :
  forall env1 env2 : Env,
    Forall (fun b => (0 <= b < 256)%Z) (frequencyData env1) ->
    Forall (fun b => (0 <= b < 256)%Z) (frequencyData env2) ->
    join (js ",") (map toStringDec (frequencyData env1))
      = join (js ",") (map toStringDec (frequencyData env2)) ->
    frequencyData env1 = frequencyData env2.
Proof.
  intros env1 env2 H1 H2 Heq.
  apply join_comma_injective in Heq; try now apply decimals_commaFree.
  rewrite <- (decimals_read_back _ H1), <- (decimals_read_back _ H2).
  now rewrite Heq.
Qed.

Lemma audio_signal_identifies_frequency_data_witness :
  frequencyData sampleEnv = frequencyData noCanvasEnv.
Proof.
  apply audio_signal_identifies_frequency_data.
  - repeat constructor; lia.
  - repeat constructor; lia.
  - reflexivity.
Defined.

(* ================================================================== *)
(** * [generateVisitorId] in binary64 *)
(* ================================================================== *)

(** The products and their floors as the processor computes them:
    [0.29 * 100] is [28.999999999999996]. *)
Example repetitions_binary64 :
  map Binary64.repetitions [0.3; 0.25; 0.2; 0.29; 0.01; 0.001; -0.1; -0; nan; infinity]%float
  = [Some 30; Some 25; Some 20; Some 28; Some 1; Some 0; None; Some 0; Some 0; None]%nat.
Proof. vm_compute. reflexivity. Qed.

Section Binary64Class.

Lemma b64_weightedComponent (fingerprint : jsstring) (weight : float) :
  Binary64.weightedComponent fingerprint weight
    = match Binary64.repetitions weight with
      | Some n => Normal (concat (repeat fingerprint n))
      | None => Throw RangeError
      end.
Proof.
  unfold Binary64.weightedComponent, Binary64.String_repeat, Binary64.repetitions.
  destruct (Binary64.ToIntegerOrInfinity _) as [n| |]; try reflexivity.
  now destruct (n <? 0)%Z.
Qed.

(** On a page with a body, in a secure context, the providers return
    what those of [Sdk] return. *)
Lemma b64_providers (page : Binary64.Page) :
  Binary64.subtle page = true ->
  Binary64.getCanvasFingerprint page = Normal (signalDigest (Binary64.env page) Canvas) /\
  Binary64.getWebGLFingerprint page = Normal (signalDigest (Binary64.env page) WebGL) /\
  Binary64.getAudioFingerprint page = Normal (signalDigest (Binary64.env page) Audio) /\
  forall data, Binary64.hashData page data = Normal (hashData (Binary64.env page) data).
Proof.
  intros Hs.
  unfold Binary64.getCanvasFingerprint, Binary64.getWebGLFingerprint,
    Binary64.getAudioFingerprint, Binary64.hashData, signalDigest, rawValue.
  rewrite Hs. repeat split.
  - now destruct (canvasDataURL (Binary64.env page)).
  - now destruct (webglDebugInfo (Binary64.env page)) as [[[vendor renderer]|]|].
Qed.

Lemma b64_generateVisitorId_run (page : Binary64.Page) (this : Binary64.FingerprintSDK) :
  Binary64.body page = true -> Binary64.subtle page = true ->
  Binary64.generateVisitorId page this =
    (match Binary64.repetitions (Binary64.canvas (Binary64.weights this)),
           Binary64.repetitions (Binary64.webGL (Binary64.weights this)),
           Binary64.repetitions (Binary64.audio (Binary64.weights this)),
           Binary64.repetitions (Binary64.fonts (Binary64.weights this)) with
     | Some n1, Some n2, Some n3, Some n4 =>
         Normal (hashData (Binary64.env page)
                   (Binary64.combined (Binary64.env page)
                      (fun k => match k with
                                | Canvas => n1 | WebGL => n2 | Audio => n3 | Fonts => n4
                                end)))
     | _, _, _, _ => Throw RangeError
     end, this).
Proof.
  intros Hb Hs. destruct (b64_providers page Hs) as (Hc & Hg & Ha & Hh).
  unfold Binary64.generateVisitorId, Binary64.bind, Binary64.lift, Binary64.readWeights.
  rewrite Hc, Hg, Ha. unfold Binary64.getFontList. rewrite Hb, !Hh.
  rewrite !b64_weightedComponent.
  change (hashData (Binary64.env page) (join (js ",") (getFontList (Binary64.env page))))
    with (signalDigest (Binary64.env page) Fonts).
  destruct (Binary64.repetitions (Binary64.canvas _)) as [n1|]; [|reflexivity].
  destruct (Binary64.repetitions (Binary64.webGL _)) as [n2|]; [|reflexivity].
  destruct (Binary64.repetitions (Binary64.audio _)) as [n3|]; [|reflexivity].
  destruct (Binary64.repetitions (Binary64.fonts _)) as [n4|]; [|reflexivity].
  rewrite join_empty_separator, Hh. reflexivity.
Qed.

Lemma b64_combined_ext (e : Env) (count count' : key -> nat) :
  (forall k, count k = count' k) ->
  Binary64.combined e count = Binary64.combined e count'.
Proof.
  intros H. unfold Binary64.combined. f_equal. apply map_ext. intros k. now rewrite H.
Qed.

Lemma b64_generateVisitorId_counts (page : Binary64.Page) (this : Binary64.FingerprintSDK)
    (count : key -> nat) :
  Binary64.body page = true -> Binary64.subtle page = true ->
  (forall k, Binary64.repetitions (Binary64.get (Binary64.weights this) k) = Some (count k)) ->
  Binary64.generateVisitorId page this
    = (Normal (hashData (Binary64.env page) (Binary64.combined (Binary64.env page) count)),
       this).
Proof.
  intros Hb Hs Hcount. rewrite (b64_generateVisitorId_run page this Hb Hs).
  pose proof (Hcount Canvas) as H1. pose proof (Hcount WebGL) as H2.
  pose proof (Hcount Audio) as H3. pose proof (Hcount Fonts) as H4.
  cbn [Binary64.get] in H1, H2, H3, H4. rewrite H1, H2, H3, H4.
  rewrite (b64_combined_ext _ _ count); [reflexivity|]. intros k. now destruct k.
Qed.

Lemma b64_specRepeatCount (weight : float) (n : nat) :
  Binary64.repetitions weight = Some n -> Binary64.specRepeatCount weight = n.
Proof.
  unfold Binary64.repetitions, Binary64.specRepeatCount.
  destruct (Binary64.ToIntegerOrInfinity _) as [z| |]; try discriminate.
  destruct (Z.ltb_spec z 0) as [|Hz]; [discriminate|].
  intros H. injection H as <-. now rewrite Z.max_r.
Qed.

Lemma b64_initial_repetitions (k : key) :
  Binary64.repetitions (Binary64.get Binary64.initialWeights k)
    = Some (match k with Canvas => 30 | WebGL => 25 | Audio => 25 | Fonts => 20 end)%nat.
Proof. destruct k; vm_compute; reflexivity. Qed.

End Binary64Class.

(** C2, as the source has it.  On a page where the providers succeed,
    and for weights whose products [weight * 100], computed in
    binary64, have a floor that [repeat] accepts, from 0 to [2 ^ 20],
    the identifier is the digest of the concatenation, in the order
    canvas, WebGL, audio, fonts, of each signal's digest repeated
    [Math.floor(weight * 100)] times.  The digest of a signal is that of its raw value when the
    capability is present; an absent canvas or WebGL capability
    contributes the empty string, which is not digested.  With every
    capability present this is what the specification describes. *)
Theorem generateVisitorId_combines :
  forall (page : Binary64.Page) (this : Binary64.FingerprintSDK) (count : key -> nat),
    Binary64.body page = true -> Binary64.subtle page = true ->
    (forall k,
        Binary64.repetitions (Binary64.get (Binary64.weights this) k) = Some (count k)) ->
    (forall k, Binary64.modest (count k)) ->
    Binary64.generateVisitorId page this
      = (Normal (hashData (Binary64.env page)
                   (Binary64.combined (Binary64.env page) count)), this) /\
    ((forall k, rawValue (Binary64.env page) k <> None) ->
       hashData (Binary64.env page) (Binary64.combined (Binary64.env page) count)
         = Binary64.specVisitorId (Binary64.env page) (Binary64.weights this)).
Proof.
  intros page this count Hb Hs Hcount _.
  split; [now apply b64_generateVisitorId_counts|].
  intros Hpresent. unfold Binary64.specVisitorId, Binary64.combined. do 2 f_equal.
  apply map_ext. intros k.
  rewrite (b64_specRepeatCount _ _ (Hcount k)). do 2 f_equal.
  unfold signalDigest, providerOutput. specialize (Hpresent k).
  now destruct (rawValue (Binary64.env page) k).
Qed.

Lemma generateVisitorId_combines_witness :
  Binary64.generateVisitorId (Binary64.complete sampleEnv) Binary64.newFingerprintSDK
    = (Normal (js "fa2736bc702216086bc5310381839abf46625ff269fd828bbd6977b7ec431c99"),
       Binary64.newFingerprintSDK) /\
  Binary64.specVisitorId sampleEnv Binary64.initialWeights
    = js "fa2736bc702216086bc5310381839abf46625ff269fd828bbd6977b7ec431c99".
Proof.
  assert (Hmodest : forall k,
             Binary64.modest (match k with
                              | Canvas => 30 | WebGL => 25 | Audio => 25 | Fonts => 20
                              end)%nat)
    by (intros k; destruct k; apply Z.leb_le; reflexivity).
  destruct (generateVisitorId_combines (Binary64.complete sampleEnv)
              Binary64.newFingerprintSDK _ eq_refl eq_refl b64_initial_repetitions
              Hmodest)
    as [Hrun Hspec].
  assert (Hpresent : forall k, rawValue sampleEnv k <> None)
    by (intros k; destruct k; discriminate).
  specialize (Hspec Hpresent). cbn [Binary64.env Binary64.complete] in Hrun, Hspec.
  assert (Hid : hashData sampleEnv
                  (Binary64.combined sampleEnv
                     (fun k => match k with
                               | Canvas => 30 | WebGL => 25 | Audio => 25 | Fonts => 20
                               end)%nat)
                = js "fa2736bc702216086bc5310381839abf46625ff269fd828bbd6977b7ec431c99")
    by (vm_compute; reflexivity).
  rewrite Hid in Hrun, Hspec. split; [exact Hrun | symmetry; exact Hspec].
Defined.

(** C2 fails as stated: without a 2D context and without WebGL the
    empty canvas and WebGL values are not digested, and the identifier
    is not the one the specification describes. *)
Lemma absent_capability_is_not_digested :
  rawValue (bareEnv Platform.SHA256) Canvas = None /\
  Binary64.generateVisitorId (Binary64.complete (bareEnv Platform.SHA256))
                             Binary64.newFingerprintSDK
    = (Normal (js "525f06b097581e61654dab21b889f578d1f5f7b443c4bb99eed32f825916b50c"),
       Binary64.newFingerprintSDK) /\
  Binary64.specVisitorId (bareEnv Platform.SHA256) Binary64.initialWeights
    = js "61ee8b0892696b17195c762e980fa5ec9ab4af8cbad6261e4c3a2946d1b12241".
Proof.
  split; [reflexivity|]. split.
  - rewrite (b64_generateVisitorId_counts (Binary64.complete (bareEnv Platform.SHA256))
               Binary64.newFingerprintSDK _ eq_refl eq_refl b64_initial_repetitions).
    cbn [Binary64.env Binary64.complete]. eval_digest. reflexivity.
  - vm_compute. reflexivity.
Qed.

(** The table [{0.29, 0.21, 0.25, 0.25}] sums to 1 in binary64, so
    [setWeights] leaves it as it is; the canvas digest is then repeated
    28 times, not 29. *)
Example canvas_weight_029 :
  Binary64.setWeights (Binary64.full 0.29 0.21 0.25 0.25) Binary64.newFingerprintSDK
    = (Normal tt,
       {| Binary64.weights :=
            {| Binary64.canvas := 0.29; Binary64.webGL := 0.21;
               Binary64.audio := 0.25; Binary64.fonts := 0.25 |} |}) /\
  map Binary64.repetitions [0.29; 0.21; 0.25; 0.25]%float
    = [Some 28; Some 21; Some 25; Some 25]%nat /\
  fst (Binary64.generateVisitorId (Binary64.complete sampleEnv)
         (snd (Binary64.setWeights (Binary64.full 0.29 0.21 0.25 0.25)
                                   Binary64.newFingerprintSDK)))
    = Normal (js "2e8493cbb55646588f36a882de29002fdb4b52f49b9f7ab0b356f848143db2a4").
Proof. split; [|split]; vm_compute; reflexivity. Qed.

(** X2. The ways [generateVisitorId] ends, on a table none of whose
    counts passes [2 ^ 20].  It throws [TypeError] exactly when
    [crypto.subtle] or the [body] element is missing; it throws
    [RangeError] exactly when both are there and the floor of some
    product [weight * 100], computed in binary64, is negative or
    infinite; otherwise it returns an identifier.  It never changes the
    weight table. *)
Theorem generateVisitorId_throws_iff :
  forall (page : Binary64.Page) (this : Binary64.FingerprintSDK),
    (forall k n,
        Binary64.repetitions (Binary64.get (Binary64.weights this) k) = Some n ->
        Binary64.modest n) ->
    (fst (Binary64.generateVisitorId page this) = Throw TypeError <->
       Binary64.subtle page = false \/ Binary64.body page = false) /\
    (fst (Binary64.generateVisitorId page this) = Throw RangeError <->
       Binary64.subtle page = true /\ Binary64.body page = true /\
       exists k, Binary64.repetitions (Binary64.get (Binary64.weights this) k) = None) /\
    ((exists id, fst (Binary64.generateVisitorId page this) = Normal id) <->
       Binary64.subtle page = true /\ Binary64.body page = true /\
       forall k, Binary64.repetitions (Binary64.get (Binary64.weights this) k) <> None) /\
    snd (Binary64.generateVisitorId page this) = this.
Proof.
  intros page this _.
  destruct (Binary64.subtle page) eqn:Hs.
  - destruct (Binary64.body page) eqn:Hb.
    + rewrite (b64_generateVisitorId_run page this Hb Hs). cbn [fst snd].
      destruct (Binary64.repetitions (Binary64.canvas (Binary64.weights this))) as [n1|] eqn:H1;
      destruct (Binary64.repetitions (Binary64.webGL (Binary64.weights this))) as [n2|] eqn:H2;
      destruct (Binary64.repetitions (Binary64.audio (Binary64.weights this))) as [n3|] eqn:H3;
      destruct (Binary64.repetitions (Binary64.fonts (Binary64.weights this))) as [n4|] eqn:H4;
      (split; [split; [discriminate | intros [H|H]; discriminate]|]);
      (split; [split;
        [ try discriminate; intros _; repeat split;
          first [ now (exists Canvas) | now (exists WebGL)
                | now (exists Audio) | now (exists Fonts) ]
        | try reflexivity; intros (_ & _ & k & Hk); destruct k;
          cbn [Binary64.get] in Hk; congruence ]|]);
      (split; [|reflexivity]);
      (split;
        [ intros [id Hid]; try discriminate; repeat split;
          intros k; destruct k; cbn [Binary64.get]; congruence
        | intros (_ & _ & Hall); try (now eexists);
          exfalso;
          first [ now apply (Hall Canvas) | now apply (Hall WebGL)
                | now apply (Hall Audio) | now apply (Hall Fonts) ] ]).
    + assert (Hrun : Binary64.generateVisitorId page this = (Throw TypeError, this)).
      { destruct (b64_providers page Hs) as (Hc & Hg & Ha & Hh).
        unfold Binary64.generateVisitorId, Binary64.bind, Binary64.lift.
        rewrite Hc, Hg, Ha. unfold Binary64.getFontList. now rewrite Hb. }
      rewrite Hrun. cbn [fst snd].
      split; [split; [now right | reflexivity]|].
      split; [split; [discriminate | intros (_ & H & _); discriminate]|].
      split; [|reflexivity].
      split; [intros [id H]; discriminate | intros (_ & H & _); discriminate].
  - assert (Hrun : Binary64.generateVisitorId page this = (Throw TypeError, this)).
    { unfold Binary64.generateVisitorId, Binary64.bind, Binary64.lift,
        Binary64.getCanvasFingerprint, Binary64.getWebGLFingerprint,
        Binary64.getAudioFingerprint, Binary64.hashData.
      rewrite Hs.
      destruct (canvasDataURL (Binary64.env page));
        destruct (webglDebugInfo (Binary64.env page)) as [[[vendor renderer]|]|];
        reflexivity. }
    rewrite Hrun. cbn [fst snd].
    split; [split; [now left | reflexivity]|].
    split; [split; [discriminate | intros (H & _); discriminate]|].
    split; [|reflexivity].
    split; [intros [id H]; discriminate | intros (H & _); discriminate].
Qed.

Lemma generateVisitorId_throws_iff_witness :
  fst (Binary64.generateVisitorId
         {| Binary64.env := sampleEnv; Binary64.body := false; Binary64.subtle := true |}
         Binary64.newFingerprintSDK)
    = Throw TypeError /\
  exists id,
    fst (Binary64.generateVisitorId (Binary64.complete sampleEnv) Binary64.newFingerprintSDK)
      = Normal id.
Proof.
  assert (Hmodest : forall k n,
             Binary64.repetitions
               (Binary64.get (Binary64.weights Binary64.newFingerprintSDK) k) = Some n ->
             Binary64.modest n).
  { intros k n Hn. change (Binary64.weights Binary64.newFingerprintSDK)
      with Binary64.initialWeights in Hn.
    rewrite b64_initial_repetitions in Hn. injection Hn as <-.
    destruct k; apply Z.leb_le; reflexivity. }
  split.
  - apply (proj1 (generateVisitorId_throws_iff
                    {| Binary64.env := sampleEnv; Binary64.body := false;
                       Binary64.subtle := true |}
                    Binary64.newFingerprintSDK Hmodest)).
    now right.
  - apply (proj1 (proj2 (proj2 (generateVisitorId_throws_iff
                                  (Binary64.complete sampleEnv)
                                  Binary64.newFingerprintSDK Hmodest)))).
    split; [reflexivity|]. split; [reflexivity|].
    intros k. rewrite b64_initial_repetitions. discriminate.
Defined.

(** X17. The identifier depends on the weights only through the
    floors of their products [weight * 100], computed in binary64, and
    on a signal only if its count is not 0: two instances whose tables
    give the same counts, on pages with the same digest service that
    agree on the digest of every signal of non-zero count, return the
    same identifier. *)
Theorem generateVisitorId_depends_on_counts :
  forall (page1 page2 : Binary64.Page) (this1 this2 : Binary64.FingerprintSDK)
         (count : key -> nat),
    Binary64.body page1 = true -> Binary64.subtle page1 = true ->
    Binary64.body page2 = true -> Binary64.subtle page2 = true ->
    subtleDigest (Binary64.env page1) = subtleDigest (Binary64.env page2) ->
    (forall k,
        Binary64.repetitions (Binary64.get (Binary64.weights this1) k) = Some (count k)) ->
    (forall k,
        Binary64.repetitions (Binary64.get (Binary64.weights this2) k) = Some (count k)) ->
    (forall k, count k <> 0%nat ->
               signalDigest (Binary64.env page1) k = signalDigest (Binary64.env page2) k) ->
    fst (Binary64.generateVisitorId page1 this1)
      = fst (Binary64.generateVisitorId page2 this2).
Proof.
  intros page1 page2 this1 this2 count Hb1 Hs1 Hb2 Hs2 Hdigest Hc1 Hc2 Hsignals.
  rewrite (b64_generateVisitorId_counts page1 this1 count Hb1 Hs1 Hc1),
          (b64_generateVisitorId_counts page2 this2 count Hb2 Hs2 Hc2).
  cbn [fst]. unfold hashData. rewrite Hdigest. do 2 f_equal.
  unfold Binary64.combined. f_equal. apply map_ext. intros k.
  destruct (count k) as [|n] eqn:Hn; [reflexivity|].
  rewrite Hsignals; [reflexivity | lia].
Qed.

Lemma generateVisitorId_depends_on_counts_witness :
  fst (Binary64.generateVisitorId (Binary64.complete sampleEnv)
         {| Binary64.weights :=
              {| Binary64.canvas := 0.005; Binary64.webGL := 0.25;
                 Binary64.audio := 0.25; Binary64.fonts := 0.2 |} |})
    = fst (Binary64.generateVisitorId (Binary64.complete noCanvasEnv)
         {| Binary64.weights :=
              {| Binary64.canvas := nan; Binary64.webGL := 0.259;
                 Binary64.audio := 0.25; Binary64.fonts := 0.2 |} |}).
Proof.
  refine (generateVisitorId_depends_on_counts
            (Binary64.complete sampleEnv) (Binary64.complete noCanvasEnv)
            {| Binary64.weights :=
                 {| Binary64.canvas := 0.005; Binary64.webGL := 0.25;
                    Binary64.audio := 0.25; Binary64.fonts := 0.2 |} |}
            {| Binary64.weights :=
                 {| Binary64.canvas := nan; Binary64.webGL := 0.259;
                    Binary64.audio := 0.25; Binary64.fonts := 0.2 |} |}
            (fun k => match k with
                      | Canvas => 0 | WebGL => 25 | Audio => 25 | Fonts => 20
                      end)%nat
            eq_refl eq_refl eq_refl eq_refl eq_refl _ _ _).
  - intros k. destruct k; vm_compute; reflexivity.
  - intros k. destruct k; vm_compute; reflexivity.
  - intros k Hk. destruct k.
    + exfalso. now apply Hk.
    + apply signalDigest_depends; [reflexivity | vm_compute; reflexivity].
    + apply signalDigest_depends; [reflexivity | vm_compute; reflexivity].
    + apply signalDigest_depends; [reflexivity | vm_compute; reflexivity].
Defined.

(* ================================================================== *)
(** * [setWeights] in binary64 *)
(* ================================================================== *)

(** After [setWeights({canvas: 0.56, webGL: 0.15, audio: 0.2, fonts:
    0.09})] the four quotients are just below the weights given, and
    the counts are 55, 14, 19 and 8: the combined string holds 96
    digests. *)
Example counts_after_normalising :
  map (fun k => Binary64.repetitions
                  (Binary64.get
                     (Binary64.weights
                        (snd (Binary64.setWeights (Binary64.full 0.56 0.15 0.2 0.09)
                                                  Binary64.newFingerprintSDK))) k))
      canonicalOrder
  = [Some 55; Some 14; Some 19; Some 8]%nat.
Proof. vm_compute. reflexivity. Qed.

Section Binary64Division.

Lemma Prim2SF_zero : Prim2SF 0%float = S754_zero false.
Proof. reflexivity. Qed.

Lemma Prim2SF_hundred : exists m e, Prim2SF 100%float = S754_finite false m e.
Proof. eexists. eexists. vm_compute. reflexivity. Qed.

Lemma is_zero_spec (x : float) :
  is_zero x = true -> exists s, Prim2SF x = S754_zero s.
Proof.
  unfold is_zero. rewrite eqb_spec.
  change (Prim2SF zero) with (S754_zero false).
  destruct (Prim2SF x) as [s| s| |s m e]; try discriminate.
  - intros _. now exists s.
  - now destruct s.
  - now destruct s.
Qed.

Lemma finite_nonzero_spec (x : float) :
  is_finite x = true -> is_zero x = false ->
  exists s m e, Prim2SF x = S754_finite s m e.
Proof.
  unfold is_finite, is_nan, is_infinity, is_zero.
  rewrite !eqb_spec, abs_spec.
  change (Prim2SF zero) with (S754_zero false).
  change (Prim2SF infinity) with (S754_infinity false).
  destruct (Prim2SF x) as [s| s| |s m e]; try destruct s; cbn; try discriminate;
    intros _ _; eexists; eexists; eexists; reflexivity.
Qed.

(** The count of an infinite weight, and that of [NaN]. *)
Lemma repetitions_infinity (w : float) (s : bool) :
  Prim2SF w = S754_infinity s -> Binary64.repetitions w = None.
Proof.
  intros Hw. destruct Prim2SF_hundred as (m & e & H100).
  assert (Hp : Prim2SF (w * 100) = S754_infinity s).
  { rewrite mul_spec, Hw, H100. cbn. now destruct s. }
  unfold Binary64.repetitions, Binary64.Math_floor, Binary64.ToIntegerOrInfinity.
  rewrite Hp, Hp. now destruct s.
Qed.

Lemma repetitions_nan (w : float) :
  Prim2SF w = S754_nan -> Binary64.repetitions w = Some 0%nat.
Proof.
  intros Hw. destruct Prim2SF_hundred as (m & e & H100).
  assert (Hp : Prim2SF (w * 100) = S754_nan) by now rewrite mul_spec, Hw.
  unfold Binary64.repetitions, Binary64.Math_floor, Binary64.ToIntegerOrInfinity.
  now rewrite Hp, Hp.
Qed.

Lemma b64_get_setWeights (newWeights : Binary64.PartialWeights)
    (this : Binary64.FingerprintSDK) (k : key) :
  Binary64.get (Binary64.weights (snd (Binary64.setWeights newWeights this))) k
    = (Binary64.get (Binary64.spread (Binary64.weights this) newWeights) k
       / Binary64.total (Binary64.spread (Binary64.weights this) newWeights))%float.
Proof. now destruct k. Qed.

Lemma b64_generateVisitorId_rejected (page : Binary64.Page) (this : Binary64.FingerprintSDK)
    (k : key) :
  Binary64.body page = true -> Binary64.subtle page = true ->
  Binary64.repetitions (Binary64.get (Binary64.weights this) k) = None ->
  Binary64.generateVisitorId page this = (Throw RangeError, this).
Proof.
  intros Hb Hs Hk. rewrite (b64_generateVisitorId_run page this Hb Hs).
  destruct k; cbn [Binary64.get] in Hk;
    destruct (Binary64.repetitions (Binary64.canvas (Binary64.weights this)));
    destruct (Binary64.repetitions (Binary64.webGL (Binary64.weights this)));
    destruct (Binary64.repetitions (Binary64.audio (Binary64.weights this)));
    destruct (Binary64.repetitions (Binary64.fonts (Binary64.weights this)));
    try discriminate; reflexivity.
Qed.

End Binary64Division.

(** X23. When the merged total, added in binary64, is a zero,
    [setWeights] divides by zero without a complaint.  If every merged
    weight is a zero the table becomes all [NaN] and the next
    [generateVisitorId] returns the digest of the empty string; a
    merged weight that is finite and not zero becomes an infinity, and
    the next [generateVisitorId] throws [RangeError]. *)
Theorem zero_total_erases_or_fails :
  forall (page : Binary64.Page) (this : Binary64.FingerprintSDK)
         (newWeights : Binary64.PartialWeights),
    Binary64.body page = true -> Binary64.subtle page = true ->
    is_zero (Binary64.total (Binary64.spread (Binary64.weights this) newWeights)) = true ->
    ((forall k, is_zero (Binary64.get (Binary64.spread (Binary64.weights this) newWeights) k)
                = true) ->
       Binary64.generateVisitorId page (snd (Binary64.setWeights newWeights this))
         = (Normal (hashData (Binary64.env page) []),
            snd (Binary64.setWeights newWeights this))) /\
    (forall k,
       is_finite (Binary64.get (Binary64.spread (Binary64.weights this) newWeights) k) = true ->
       is_zero (Binary64.get (Binary64.spread (Binary64.weights this) newWeights) k) = false ->
       Binary64.generateVisitorId page (snd (Binary64.setWeights newWeights this))
         = (Throw RangeError, snd (Binary64.setWeights newWeights this))).
Proof.
  intros page this newWeights Hb Hs Hzero.
  destruct (is_zero_spec _ Hzero) as [st Ht]. split.
  - intros Hall.
    rewrite (b64_generateVisitorId_counts page _ (fun _ => 0%nat) Hb Hs); [reflexivity|].
    intros k. rewrite b64_get_setWeights. apply repetitions_nan.
    destruct (is_zero_spec _ (Hall k)) as [sk Hk]. now rewrite div_spec, Hk, Ht.
  - intros k Hfin Hnz. apply (b64_generateVisitorId_rejected page _ k Hb Hs).
    rewrite b64_get_setWeights.
    destruct (finite_nonzero_spec _ Hfin Hnz) as (s & m & e & Hk).
    apply (repetitions_infinity _ (xorb s st)). now rewrite div_spec, Hk, Ht.
Qed.

Lemma zero_total_erases_or_fails_witness :
  Binary64.generateVisitorId (Binary64.complete sampleEnv)
      (snd (Binary64.setWeights (Binary64.full (-1) 0.25 0.25 0.5)
                                Binary64.newFingerprintSDK))
    = (Throw RangeError,
       snd (Binary64.setWeights (Binary64.full (-1) 0.25 0.25 0.5)
                                Binary64.newFingerprintSDK)).
Proof.
  exact (proj2 (zero_total_erases_or_fails (Binary64.complete sampleEnv)
                  Binary64.newFingerprintSDK (Binary64.full (-1) 0.25 0.25 0.5)
                  eq_refl eq_refl eq_refl)
               Canvas eq_refl eq_refl).
Defined.

(** The table of the counterexample to C6 in binary64: all its numbers
    are dyadic, and the doubles do what the reals do. *)
Example skewed_table_binary64 :
  Binary64.setWeights (Binary64.full (-1) 0.25 0.25 1.5) Binary64.newFingerprintSDK
    = (Normal tt,
       {| Binary64.weights :=
            {| Binary64.canvas := -1; Binary64.webGL := 0.25;
               Binary64.audio := 0.25; Binary64.fonts := 1.5 |} |}) /\
  Binary64.weights
    (snd (Binary64.setWeights
            {| Binary64.canvas' := None; Binary64.webGL' := None;
               Binary64.audio' := None; Binary64.fonts' := Some 0.5%float |}
            {| Binary64.weights :=
                 {| Binary64.canvas := -1; Binary64.webGL := 0.25;
                    Binary64.audio := 0.25; Binary64.fonts := 1.5 |} |}))
    = {| Binary64.canvas := neg_infinity; Binary64.webGL := infinity;
         Binary64.audio := infinity; Binary64.fonts := infinity |} /\
  (infinity / infinity)%float = nan.
Proof. split; [|split]; vm_compute; reflexivity. Qed.
